(** * Novation Launchkey Mini MK4 37 control-surface drivers

    A shallow embedding of the two Zynthian drivers of this repository,

    - [zynthian_ctrldev_launchkey_mini_mk4_37.py], the transport variant
      (relative encoders), module [Mini] below, and
    - [zynthian_ctrldev_launchkey_mk4_37.py], the pickup variant (absolute
      knobs with soft takeover), module [Mk4] below,

    followed by the properties of their event decoders.

    Python objects are modelled as follows.  [self] is a record of the fields
    the class sets in [__init__]; dictionaries are [gmap]s; Python [float]s
    are the kernel's binary64 floats; Python [int]s are [Z].  A method is a
    computation in a state-and-exception monad over a [world]: the driver's
    fields, the host objects it talks to, and the ordered list of calls it
    made on the host and on the device.  [time()] is read at most once per
    event and is an argument of [midi_event]. *)

From Stdlib Require Import ZArith Floats Lia.
From stdpp Require Import gmap strings list functions.

Set Warnings "-inexact-float".
Open Scope Z_scope.

(** ** Python values, exceptions and the method monad *)

Inductive exn : Type :=
| IndexError
| AttributeError
| HostError.

Inductive result (A : Type) : Type :=
| Ok (a : A)
| Raise (e : exn).
Arguments Ok {A} a.
Arguments Raise {A} e.

Section Monad.
Context {S : Type}.

Definition M (A : Type) : Type := S → result A * S.

Definition ret {A} (a : A) : M A := λ s, (Ok a, s).

Definition bind {A B} (m : M A) (k : A → M B) : M B :=
  λ s, match m s with
       | (Ok a, s') => k a s'
       | (Raise e, s') => (Raise e, s')
       end.

Definition raise {A} (e : exn) : M A := λ s, (Raise e, s).

(** [try: m except: h]; what [m] did before raising stays done. *)
Definition try_except {A} (m : M A) (h : exn → M A) : M A :=
  λ s, match m s with
       | (Ok a, s') => (Ok a, s')
       | (Raise e, s') => h e s'
       end.

Definition get : M S := λ s, (Ok s, s).

Definition modify (f : S → S) : M unit := λ s, (Ok tt, f s).

(** [for i in l: body(i)] *)
Fixpoint for_each {A} (l : list A) (body : A → M unit) : M unit :=
  match l with
  | [] => ret tt
  | i :: l' => bind (body i) (λ _, for_each l' body)
  end.
End Monad.
Arguments M S A : clear implicits.

Notation "'do' x <- m ; k" := (bind m (λ x, k))
  (at level 10, x name, m at level 100, k at level 200, only parsing).
Notation "'run' m ; k" := (bind m (λ _, k))
  (at level 10, m at level 100, k at level 200, only parsing).

(** [ev[i]] on a sequence of integers. *)
Definition getitem {S} (ev : list Z) (i : nat) : M S Z :=
  match ev !! i with
  | Some b => ret b
  | None => raise IndexError
  end.

(** [float(z)] for the small integers the drivers convert. *)
Definition float_of_int (z : Z) : float :=
  if z <? 0 then PrimFloat.opp (PrimFloat.of_uint63 (Uint63.of_Z (- z)))
  else PrimFloat.of_uint63 (Uint63.of_Z z).

(** The builtins [min(a, b)] and [max(a, b)]: the first argument wins ties. *)
Definition py_min (a b : float) : float := if PrimFloat.ltb b a then b else a.
Definition py_max (a b : float) : float := if PrimFloat.ltb a b then b else a.

(** Truth value of an integer. *)
Definition truthy (z : Z) : bool := negb (z =? 0).

(** ** The host: chains, mixer, and the calls a driver makes *)

(** An attribute of a host object: absent ([hasattr] is false), [None], or a
    value. *)
Inductive attr (A : Type) : Type :=
| Missing
| PyNone
| Val (a : A).
Arguments Missing {A}.
Arguments PyNone {A}.
Arguments Val {A} a.

Record processor : Type := Processor {
  preset_list : attr (list string);
  preset_index : option Z;          (* [None]: no such attribute *)
  set_preset_raises : bool;
}.

Record chain : Type := Chain {
  mixer_chan : attr Z;
  current_processor : attr processor;
}.

(** What a chain lookup does: raise, return [None], or return a chain. *)
Inductive lookup : Type :=
| LookupRaises
| NoChain
| Found (c : chain).

Record chain_manager_t : Type := ChainManager {
  get_chain_by_position : Z → lookup;
  get_active_chain : lookup;
}.

Record zynmixer_t : Type := Zynmixer {
  get_level : Z → float;
  get_solo : Z → Z;
  get_mute : Z → Z;
}.

Inductive pyval : Type :=
| PInt (z : Z)
| PStr (s : string).

(** The calls that leave the driver, in the order they are made. *)
Inductive effect : Type :=
| send_cuia (name : string) (args : option (list pyval))
| dev_send_note_on (idev : option Z) (chan note vel : Z)
| dev_send_ccontrol_change (idev : option Z) (chan cc val : Z)
| write_zynmidi (ev : list Z)
| set_level (chan : Z) (level : float)
| set_solo (chan : Z) (v : Z)
| set_mute (chan : Z) (v : Z)
| select_bank (bank : Z)
| set_preset (index : Z)
| logging_warning.

(** The driver ([self], of type [D]) in its environment. *)
Record world (D : Type) : Type := World {
  self : D;
  idev_out : option Z;
  has_chain_manager : bool;         (* [hasattr(self, 'chain_manager')] *)
  has_zynmixer : bool;              (* [hasattr(self, 'zynmixer')] *)
  chain_manager : chain_manager_t;
  zynmixer : zynmixer_t;
  out : list effect;
}.
Arguments World {D}.
Arguments self {D}.
Arguments idev_out {D}.
Arguments has_chain_manager {D}.
Arguments has_zynmixer {D}.
Arguments chain_manager {D}.
Arguments zynmixer {D}.
Arguments out {D}.

Section Host.
Context {D : Type}.
Implicit Types w : world D.

Definition with_self (d : D) w : world D :=
  World d (idev_out w) (has_chain_manager w) (has_zynmixer w)
        (chain_manager w) (zynmixer w) (out w).

Definition with_zynmixer (m : zynmixer_t) w : world D :=
  World (self w) (idev_out w) (has_chain_manager w) (has_zynmixer w)
        (chain_manager w) m (out w).

Definition with_out (o : list effect) w : world D :=
  World (self w) (idev_out w) (has_chain_manager w) (has_zynmixer w)
        (chain_manager w) (zynmixer w) o.

Definition emit (e : effect) : M (world D) unit :=
  modify (λ w, with_out (out w ++ [e]) w).

Definition get_self : M (world D) D := do w <- get; ret (self w).

Definition set_self (d : D) : M (world D) unit := modify (with_self d).

(** [self.chain_manager.get_chain_by_position(i, midi=False)] *)
Definition chain_by_position (i : Z) : M (world D) (option chain) :=
  do w <- get;
  if has_chain_manager w then
    match get_chain_by_position (chain_manager w) i with
    | LookupRaises => raise HostError
    | NoChain => ret None
    | Found c => ret (Some c)
    end
  else raise AttributeError.

(** [self.zynmixer] *)
Definition the_zynmixer : M (world D) zynmixer_t :=
  do w <- get;
  if has_zynmixer w then ret (zynmixer w) else raise AttributeError.

Definition mixer_set_level (ch : Z) (v : float) : M (world D) unit :=
  do m <- the_zynmixer;
  run modify (with_zynmixer
                (Zynmixer (<[ch := v]> (get_level m)) (get_solo m) (get_mute m)));
  emit (set_level ch v).

Definition mixer_set_solo (ch v : Z) : M (world D) unit :=
  do m <- the_zynmixer;
  run modify (with_zynmixer
                (Zynmixer (get_level m) (<[ch := v]> (get_solo m)) (get_mute m)));
  emit (set_solo ch v).

Definition mixer_set_mute (ch v : Z) : M (world D) unit :=
  do m <- the_zynmixer;
  run modify (with_zynmixer
                (Zynmixer (get_level m) (get_solo m) (<[ch := v]> (get_mute m))));
  emit (set_mute ch v).

(** [chain and chain.mixer_chan is not None and chain.mixer_chan < 17],
    giving the channel when the test passes. *)
Definition checked_mixer_chan (c : option chain) : M (world D) (option Z) :=
  match c with
  | None => ret None
  | Some c =>
      match mixer_chan c with
      | Missing => raise AttributeError
      | PyNone => ret None
      | Val ch => ret (if ch <? 17 then Some ch else None)
      end
  end.

(** The same test behind [hasattr(chain, 'mixer_chan')]. *)
Definition probed_mixer_chan (c : option chain) : M (world D) (option Z) :=
  match c with
  | None => ret None
  | Some c =>
      match mixer_chan c with
      | Missing => ret None
      | PyNone => ret None
      | Val ch => ret (if ch <? 17 then Some ch else None)
      end
  end.
End Host.

(** ** LED feedback, common to both drivers

    [update_button_leds] is the same method in both files; [update_pad_leds]
    differs only in the two velocities of the solo row. *)

Section Leds.
Context {D : Type}.
Variables (vel_soloed vel_not_soloed : Z).

Definition update_button_leds (knob_bank : Z) : M (world D) unit :=
  do w <- get;
  match idev_out w with
  | None => ret tt
  | Some _ =>
      run for_each [104; 105; 0x66; 0x67; 106; 107]
            (λ cc, emit (dev_send_ccontrol_change (idev_out w) 0 cc 127));
      run emit (dev_send_ccontrol_change (idev_out w) 0 51
                  (if knob_bank =? 0 then 127 else 0));
      emit (dev_send_ccontrol_change (idev_out w) 0 52
              (if knob_bank =? 1 then 127 else 0))
  end.

(** The inner [try] of the solo row: the velocity for position [i]. *)
Definition solo_pad_velocity (i : Z) : M (world D) Z :=
  try_except
    (do chain <- chain_by_position i;
     do mc <- probed_mixer_chan chain;
     match mc with
     | Some mixer_chan =>
         do m <- the_zynmixer;
         ret (if truthy (get_solo m mixer_chan)
              then vel_soloed else vel_not_soloed)
     | None => ret 0
     end)
    (λ _, ret 0).

(** The inner [try] of the mute row. *)
Definition mute_pad_velocity (i : Z) : M (world D) Z :=
  try_except
    (do chain <- chain_by_position i;
     do mc <- probed_mixer_chan chain;
     match mc with
     | Some mixer_chan =>
         do m <- the_zynmixer;
         ret (if truthy (get_mute m mixer_chan) then 5 else 64)
     | None => ret 0
     end)
    (λ _, ret 0).

Definition update_pad_leds : M (world D) unit :=
  do w <- get;
  match idev_out w with
  | None => ret tt
  | Some _ =>
      try_except
        (if negb (has_chain_manager w) || negb (has_zynmixer w) then ret tt
         else
           run for_each (seqZ 0 8)
                 (λ i, do vel <- solo_pad_velocity i;
                       emit (dev_send_note_on (idev_out w) 0 (96 + i) vel));
           for_each (seqZ 0 8)
             (λ i, do vel <- mute_pad_velocity i;
                   emit (dev_send_note_on (idev_out w) 0 (112 + i) vel)))
        (λ _, ret tt)
  end.

(** The pad branch of [midi_event]: notes 96..119. *)
Definition pad_note (evtype note vel : Z) : M (world D) unit :=
  if (96 <=? note) && (note <=? 103) && (evtype =? 0x9) && (0 <? vel) then
    do chain <- chain_by_position (note - 96);
    do mc <- checked_mixer_chan chain;
    match mc with
    | Some mixer_chan =>
        do m <- the_zynmixer;
        run mixer_set_solo mixer_chan
              (if truthy (get_solo m mixer_chan) then 0 else 1);
        update_pad_leds
    | None => ret tt
    end
  else if (112 <=? note) && (note <=? 119) && (evtype =? 0x9) && (0 <? vel) then
    do chain <- chain_by_position (note - 112);
    do mc <- checked_mixer_chan chain;
    match mc with
    | Some mixer_chan =>
        do m <- the_zynmixer;
        run mixer_set_mute mixer_chan
              (if truthy (get_mute m mixer_chan) then 0 else 1);
        update_pad_leds
    | None => ret tt
    end
  else ret tt.
End Leds.

(** The three-way test on a press duration, as written at every hold
    button: its result is the second argument of [ZYNSWITCH]. *)
Definition hold_kind (duration : float) : string :=
  if PrimFloat.ltb duration 0.5 then "S"
  else if PrimFloat.ltb duration 1.5 then "B"
  else "L".

(** ** The pickup variant: [zynthian_ctrldev_launchkey_mk4_37] *)

Module Mk4.

Record driver : Type := Driver {
  shift : bool;
  press_times : gmap Z float;
  knob_bank : Z;
  mixer_synced : gmap Z bool;
  last_zynpot_values : gmap Z Z;
}.

(** The fields as [__init__] sets them. *)
Definition init : driver := Driver false ∅ 0 ∅ ∅.

Definition set_shift (b : bool) (d : driver) : driver :=
  Driver b (press_times d) (knob_bank d) (mixer_synced d) (last_zynpot_values d).
Definition set_press_times (p : gmap Z float) (d : driver) : driver :=
  Driver (shift d) p (knob_bank d) (mixer_synced d) (last_zynpot_values d).
Definition set_knob_bank (b : Z) (d : driver) : driver :=
  Driver (shift d) (press_times d) b (mixer_synced d) (last_zynpot_values d).
Definition set_mixer_synced (s : gmap Z bool) (d : driver) : driver :=
  Driver (shift d) (press_times d) (knob_bank d) s (last_zynpot_values d).
Definition set_last_zynpot_values (l : gmap Z Z) (d : driver) : driver :=
  Driver (shift d) (press_times d) (knob_bank d) (mixer_synced d) l.

Abbreviation method := (M (world driver)).

Definition update_pad_leds : method unit := update_pad_leds 5 10.

Definition refresh : method unit :=
  do d <- get_self;
  run set_self (set_mixer_synced ∅ d);
  update_pad_leds.

Definition button_commands (ccnum : Z) : option string :=
  if ccnum =? 106 then Some "PRESET"
  else if ccnum =? 107 then Some "MENU"
  else if ccnum =? 0x66 then Some "ARROW_RIGHT"
  else if ccnum =? 0x67 then Some "ARROW_LEFT"
  else if ccnum =? 104 then Some "BACK"
  else None.

(** [{74: 0, 75: 1, 76: 3, 77: 2}.get(ccnum)] on the four keys. *)
Definition zynswitch_index (ccnum : Z) : Z :=
  if ccnum =? 74 then 0 else if ccnum =? 75 then 1
  else if ccnum =? 76 then 3 else 2.

(** Buttons 51 and 52. *)
Definition bank_button (arrow : string) (turn : Z → Z) : method unit :=
  do d <- get_self;
  if shift d then emit (send_cuia arrow None)
  else
    let d := set_knob_bank (turn (knob_bank d)) d in
    let d := set_mixer_synced ∅ d in
    run set_self d;
    update_button_leds (knob_bank d).

(** The press/release block of a hold button; [led] tells whether the
    press is echoed to the button's LED, as it is at CC 105. *)
Definition hold_button (now : float) (ccnum ccval index : Z) (led : bool)
  : method unit :=
  do d <- get_self;
  if 0 <? ccval then
    run set_self (set_press_times (<[ccnum := now]> (press_times d)) d);
    if led then
      do w <- get;
      emit (dev_send_ccontrol_change (idev_out w) 0 ccnum 127)
    else ret tt
  else
    match press_times d !! ccnum with
    | Some start =>
        let duration := PrimFloat.sub now start in
        run emit (send_cuia "ZYNSWITCH"
                    (Some [PInt index; PStr (hold_kind duration)]));
        set_self (set_press_times (delete ccnum (press_times d)) d)
    | None => ret tt
    end.

(** Bank 0, knobs 1-6: soft takeover of a mixer level. *)
Definition mixer_knob (ccnum ccval : Z) : method unit :=
  let mixer_channel := ccnum - 20 in
  do chain <- chain_by_position (mixer_channel - 1);
  do mc <- checked_mixer_chan chain;
  match mc with
  | Some mixer_chan =>
      do m <- the_zynmixer;
      let current_level := get_level m mixer_chan in
      let new_level := PrimFloat.div (float_of_int ccval) 127 in
      do d <- get_self;
      match mixer_synced d !! ccnum with
      | None =>
          if PrimFloat.ltb
               (PrimFloat.abs (PrimFloat.sub new_level current_level)) 0.02
          then
            run set_self (set_mixer_synced (<[ccnum := true]> (mixer_synced d)) d);
            mixer_set_level mixer_chan new_level
          else ret tt
      | Some _ => mixer_set_level mixer_chan new_level
      end
  | None => ret tt
  end.

(** The wrap-around correction of a raw difference. *)
Definition wrap_delta (delta : Z) : Z :=
  if 64 <? delta then delta - 128
  else if delta <? -64 then delta + 128
  else delta.

(** Bank 1, knobs 1-4: ZYNPOT deltas from consecutive raw values. *)
Definition zynpot_knob (ccnum ccval : Z) : method unit :=
  let zynpot_index := ccnum - 21 in
  do d <- get_self;
  match last_zynpot_values d !! ccnum with
  | None =>
      set_self (set_last_zynpot_values
                  (<[ccnum := ccval]> (last_zynpot_values d)) d)
  | Some last_val =>
      let delta := wrap_delta (ccval - last_val) in
      if negb (delta =? 0) then
        run emit (send_cuia "ZYNPOT" (Some [PInt zynpot_index; PInt delta]));
        set_self (set_last_zynpot_values
                    (<[ccnum := ccval]> (last_zynpot_values d)) d)
      else ret tt
  end.

(** The branch [20 < ccnum < 29]. *)
Definition knob (ev_chan ccnum ccval : Z) : method bool :=
  do d <- get_self;
  if knob_bank d =? 0 then
    run (if (20 <? ccnum) && (ccnum <? 27) then mixer_knob ccnum ccval
         else ret tt);
    ret true
  else if knob_bank d =? 1 then
    if (20 <? ccnum) && (ccnum <? 25) then
      run zynpot_knob ccnum ccval;
      ret true
    else
      let new_ccnum := ccnum - 25 + 20 in
      run emit (write_zynmidi [Z.lor 0xB0 ev_chan; new_ccnum; ccval]);
      ret true
  else ret false.

Definition control_change (now : float) (ev_chan ccnum ccval : Z)
  : method bool :=
  if (ccnum =? 51) && (0 <? ccval) then
    run bank_button "ARROW_UP" (λ bank, (bank - 1) `mod` 3); ret true
  else if (ccnum =? 52) && (0 <? ccval) then
    run bank_button "ARROW_DOWN" (λ bank, (bank + 1) `mod` 3); ret true
  else if ccnum =? 0x3F then
    do d <- get_self;
    run set_self (set_shift (negb (ccval =? 0)) d); ret true
  else if ccnum =? 105 then
    run hold_button now ccnum ccval 3 true; ret true
  else if (20 <? ccnum) && (ccnum <? 29) then
    knob ev_chan ccnum ccval
  else if (ccnum =? 74) || (ccnum =? 75) || (ccnum =? 76) || (ccnum =? 77) then
    do d <- get_self;
    if shift d && (ccnum =? 76) then
      run (if 0 <? ccval then emit (send_cuia "TEMPO" None) else ret tt);
      ret true
    else
      run hold_button now ccnum ccval (zynswitch_index ccnum) false;
      ret true
  else if (ccnum =? 0x73) && (0 <? ccval) then
    do d <- get_self;
    run emit (send_cuia (if shift d then "TOGGLE_MIDI_PLAY" else "TOGGLE_PLAY")
                None);
    ret true
  else if (ccnum =? 0x75) && (0 <? ccval) then
    do d <- get_self;
    run emit (send_cuia
                (if shift d then "TOGGLE_MIDI_RECORD" else "TOGGLE_RECORD")
                None);
    ret true
  else
    (* [ccnum in button_commands and ccval > 0] *)
    match (if 0 <? ccval then button_commands ccnum else None) with
    | Some command =>
        do w <- get;
        run emit (dev_send_ccontrol_change (idev_out w) 0 ccnum 127);
        run emit (send_cuia command None);
        ret true
    | None =>
        if (ccnum =? 0) || (ccval =? 0) then ret true else ret false
    end.

Definition midi_event (now : float) (ev : list Z) : method bool :=
  do ev0 <- getitem ev 0;
  let evtype := Z.land (Z.shiftr ev0 4) 0x0F in
  let ev_chan := Z.land ev0 0x0F in
  if (evtype =? 0x9) || (evtype =? 0x8) then
    do ev1 <- getitem ev 1;
    let note := Z.land ev1 0x7F in
    do ev2 <- getitem ev 2;
    let vel := Z.land ev2 0x7F in
    if (96 <=? note) && (note <=? 119) then
      run pad_note 5 10 evtype note vel;
      ret true
    else
      run emit (write_zynmidi ev);
      ret true
  else if evtype =? 0xB then
    do ev1 <- getitem ev 1;
    let ccnum := Z.land ev1 0x7F in
    do ev2 <- getitem ev 2;
    let ccval := Z.land ev2 0x7F in
    control_change now ev_chan ccnum ccval
  else if evtype =? 0xC then
    do ev1 <- getitem ev 1;
    let val1 := Z.land ev1 0x7F in
    run emit (select_bank (val1 + 1));
    ret true
  else ret false.

End Mk4.

(** ** The transport variant: [zynthian_ctrldev_launchkey_mini_mk4_37] *)

Module Mini.

Record driver : Type := Driver {
  shift : bool;
  press_times : gmap Z float;
  knob_bank : Z;
  last_select_back_time : float;
}.

(** The fields as [__init__] sets them. *)
Definition init : driver := Driver false ∅ 1 0%float.

Definition set_shift (b : bool) (d : driver) : driver :=
  Driver b (press_times d) (knob_bank d) (last_select_back_time d).
Definition set_press_times (p : gmap Z float) (d : driver) : driver :=
  Driver (shift d) p (knob_bank d) (last_select_back_time d).
Definition set_knob_bank (b : Z) (d : driver) : driver :=
  Driver (shift d) (press_times d) b (last_select_back_time d).
Definition set_last_select_back_time (t : float) (d : driver) : driver :=
  Driver (shift d) (press_times d) (knob_bank d) t.

Abbreviation method := (M (world driver)).

Definition update_pad_leds : method unit := update_pad_leds 14 118.

Definition refresh : method unit := update_pad_leds.

Definition button_commands (ccnum : Z) : option string :=
  if ccnum =? 107 then Some "PRESET"
  else if ccnum =? 105 then Some "MENU"
  else if ccnum =? 0x66 then Some "ARROW_RIGHT"
  else if ccnum =? 0x67 then Some "ARROW_LEFT"
  else if ccnum =? 106 then Some "BACK"
  else None.

(** [{74: 0, 75: 1, 76: 3, 77: 2}.get(ccnum)] on the four keys. *)
Definition zynswitch_index (ccnum : Z) : Z :=
  if ccnum =? 74 then 0 else if ccnum =? 75 then 1
  else if ccnum =? 76 then 3 else 2.

(** Buttons 51 and 52. *)
Definition bank_button (arrow : string) (turn : Z → Z) : method unit :=
  do d <- get_self;
  if shift d then emit (send_cuia arrow None)
  else
    let d := set_knob_bank (turn (knob_bank d)) d in
    run set_self d;
    update_button_leds (knob_bank d).

(** The press/release block of a hold button; [led] tells whether the
    press is echoed to the button's LED, as it is at CC 104. *)
Definition hold_button (now : float) (ccnum ccval index : Z) (led : bool)
  : method unit :=
  do d <- get_self;
  if 0 <? ccval then
    run set_self (set_press_times (<[ccnum := now]> (press_times d)) d);
    if led then
      do w <- get;
      emit (dev_send_ccontrol_change (idev_out w) 0 ccnum 127)
    else ret tt
  else
    match press_times d !! ccnum with
    | Some start =>
        let duration := PrimFloat.sub now start in
        run emit (send_cuia "ZYNSWITCH"
                    (Some [PInt index; PStr (hold_kind duration)]));
        set_self (set_press_times (delete ccnum (press_times d)) d)
    | None => ret tt
    end.

(** The relative value of a transport-mode encoder as a signed delta. *)
Definition relative_delta (ccval : Z) : Z :=
  if (ccval =? 1) || (ccval <? 64) then
    if ccval =? 1 then -1 else - (64 - ccval)
  else if (ccval =? 127) || (64 <? ccval) then
    if ccval =? 127 then 1 else ccval - 64
  else 0.

(** The same test where only the direction is used. *)
Definition relative_direction (ccval : Z) : Z :=
  if (ccval =? 1) || (ccval <? 64) then -1
  else if (ccval =? 127) || (64 <? ccval) then 1
  else 0.

(** Bank 0: a knob nudges a mixer level. *)
Definition mixer_knob (ccnum ccval : Z) : method unit :=
  let mixer_channel := ccnum - 84 in
  do chain <- chain_by_position (mixer_channel - 1);
  do mc <- checked_mixer_chan chain;
  match mc with
  | Some mixer_chan =>
      let delta := relative_delta ccval in
      if negb (delta =? 0) then
        do m <- the_zynmixer;
        let current_level := get_level m mixer_chan in
        let new_level :=
          py_max 0 (py_min 1 (PrimFloat.add current_level
                                (PrimFloat.mul (float_of_int delta) 0.01))) in
        mixer_set_level mixer_chan new_level
      else ret tt
  | None => ret tt
  end.

(** Bank 1, knobs 1-4: ZYNPOT deltas. *)
Definition zynpot_knob (ccnum ccval : Z) : method unit :=
  let zynpot_index := ccnum - 85 in
  let delta := relative_delta ccval in
  if negb (delta =? 0) then
    emit (send_cuia "ZYNPOT" (Some [PInt zynpot_index; PInt delta]))
  else ret tt.

(** Bank 1, knob 5: previous or next preset of the active chain. *)
Definition browse_presets (ccval : Z) : method unit :=
  let delta := relative_direction ccval in
  if negb (delta =? 0) then
    try_except
      (do w <- get;
       match get_active_chain (chain_manager w) with
       | LookupRaises => raise HostError
       | NoChain => ret tt
       | Found chain =>
           match current_processor chain with
           | Missing => raise AttributeError
           | PyNone => ret tt
           | Val processor =>
               match preset_list processor with
               | Val (p :: ps) =>
                   let len := Z.of_nat (length (p :: ps)) in
                   let current_index := default 0 (preset_index processor) in
                   let new_index := current_index + delta in
                   let new_index :=
                     if new_index <? 0 then len - 1
                     else if len <=? new_index then 0
                     else new_index in
                   run (if set_preset_raises processor then raise HostError
                        else emit (set_preset new_index));
                   run emit (send_cuia "refresh_screen" (Some [PStr "control"]));
                   emit (send_cuia "refresh_screen" (Some [PStr "audio_mixer"]))
               | _ => ret tt
               end
           end
       end)
      (λ _, emit logging_warning)
  else ret tt.

(** Bank 1, knob 6: SELECT clockwise, BACK counter-clockwise, debounced.
    Every path of this block returns [True]. *)
Definition select_back_knob (now : float) (ccval : Z) : method unit :=
  let current_time := now in
  do d <- get_self;
  if PrimFloat.ltb (PrimFloat.sub current_time (last_select_back_time d)) 0.6
  then ret tt
  else
    run set_self (set_last_select_back_time current_time d);
    if (ccval =? 1) || (ccval <? 64) then emit (send_cuia "BACK" None)
    else if (ccval =? 127) || (64 <? ccval) then
      emit (send_cuia "ZYNSWITCH" (Some [PInt 3; PStr "S"]))
    else ret tt.

(** Bank 1, knobs 7 and 8. *)
Definition arrow_knob (ccw cw : string) (ccval : Z) : method unit :=
  if (ccval =? 1) || (ccval <? 64) then emit (send_cuia ccw None)
  else if (ccval =? 127) || (64 <? ccval) then emit (send_cuia cw None)
  else ret tt.

(** The branch [84 < ccnum < 93]. *)
Definition knob (now : float) (ev_chan ccnum ccval : Z) : method bool :=
  do d <- get_self;
  if knob_bank d =? 0 then
    run mixer_knob ccnum ccval; ret true
  else if knob_bank d =? 1 then
    if (84 <? ccnum) && (ccnum <? 89) then
      run zynpot_knob ccnum ccval; ret true
    else if ccnum =? 89 then
      run browse_presets ccval; ret true
    else if ccnum =? 90 then
      run select_back_knob now ccval; ret true
    else if ccnum =? 91 then
      run arrow_knob "ARROW_LEFT" "ARROW_RIGHT" ccval; ret true
    else if ccnum =? 92 then
      run arrow_knob "ARROW_UP" "ARROW_DOWN" ccval; ret true
    else ret true
  else if knob_bank d =? 2 then
    let new_ccnum := ccnum - 85 + 24 in
    run emit (write_zynmidi [Z.lor 0xB0 ev_chan; new_ccnum; ccval]);
    ret true
  else ret false.

Definition control_change (now : float) (ev_chan ccnum ccval : Z)
  : method bool :=
  if (ccnum =? 51) && (0 <? ccval) then
    run bank_button "ARROW_UP" (λ bank, (bank - 1) `mod` 3); ret true
  else if (ccnum =? 52) && (0 <? ccval) then
    run bank_button "ARROW_DOWN" (λ bank, (bank + 1) `mod` 3); ret true
  else if ccnum =? 0x3F then
    do d <- get_self;
    run set_self (set_shift (negb (ccval =? 0)) d); ret true
  else if ccnum =? 104 then
    run hold_button now ccnum ccval 3 true; ret true
  else if (84 <? ccnum) && (ccnum <? 93) then
    knob now ev_chan ccnum ccval
  else if (ccnum =? 74) || (ccnum =? 75) || (ccnum =? 76) || (ccnum =? 77) then
    do d <- get_self;
    if shift d && (ccnum =? 76) then
      run (if 0 <? ccval then emit (send_cuia "TEMPO" None) else ret tt);
      ret true
    else
      run hold_button now ccnum ccval (zynswitch_index ccnum) false;
      ret true
  else if (ccnum =? 0x73) && (0 <? ccval) then
    do d <- get_self;
    run emit (send_cuia (if shift d then "TOGGLE_MIDI_PLAY" else "TOGGLE_PLAY")
                None);
    ret true
  else if (ccnum =? 0x75) && (0 <? ccval) then
    do d <- get_self;
    run emit (send_cuia
                (if shift d then "TOGGLE_MIDI_RECORD" else "TOGGLE_RECORD")
                None);
    ret true
  else
    (* [ccnum in button_commands and ccval > 0] *)
    match (if 0 <? ccval then button_commands ccnum else None) with
    | Some command =>
        do w <- get;
        run emit (dev_send_ccontrol_change (idev_out w) 0 ccnum 127);
        run emit (send_cuia command None);
        ret true
    | None =>
        if (ccnum =? 0) || (ccval =? 0) then ret true else ret false
    end.

Definition midi_event (now : float) (ev : list Z) : method bool :=
  do ev0 <- getitem ev 0;
  let evtype := Z.land (Z.shiftr ev0 4) 0x0F in
  let ev_chan := Z.land ev0 0x0F in
  if (evtype =? 0x9) || (evtype =? 0x8) then
    do ev1 <- getitem ev 1;
    let note := Z.land ev1 0x7F in
    do ev2 <- getitem ev 2;
    let vel := Z.land ev2 0x7F in
    if (96 <=? note) && (note <=? 119) then
      run pad_note 14 118 evtype note vel;
      ret true
    else
      run emit (write_zynmidi ev);
      ret true
  else if evtype =? 0xB then
    do ev1 <- getitem ev 1;
    let ccnum := Z.land ev1 0x7F in
    do ev2 <- getitem ev 2;
    let ccval := Z.land ev2 0x7F in
    control_change now ev_chan ccnum ccval
  else if evtype =? 0xC then
    do ev1 <- getitem ev 1;
    let val1 := Z.land ev1 0x7F in
    run emit (select_bank (val1 + 1));
    ret true
  else ret false.

(** The mixer notification callback: a refresh on a mute or solo change. *)
Definition update_mixer_strip (chan : Z) (symbol : string) (value : Z)
  : method unit :=
  if bool_decide (symbol ∈ ["mute"; "solo"]) then update_pad_leds else ret tt.

(** The screen notification callback. *)
Definition on_screen_change (screen : string) : method unit := update_pad_leds.

End Mini.

(** * Vocabulary of the statements *)

(** ** Decoded fields of a message *)

Definition evtype (ev0 : Z) : Z := Z.land (Z.shiftr ev0 4) 0x0F.
Definition ev_chan (ev0 : Z) : Z := Z.land ev0 0x0F.
Definition data7 (b : Z) : Z := Z.land b 0x7F.

Definition is_note (ev0 : Z) : bool := (evtype ev0 =? 0x9) || (evtype ev0 =? 0x8).
Definition is_pad (note : Z) : bool := (96 <=? note) && (note <=? 119).

(** The number of bytes [midi_event] indexes for a status byte. *)
Definition bytes_read (ev0 : Z) : nat :=
  if is_note ev0 || (evtype ev0 =? 0xB) then 3%nat
  else if evtype ev0 =? 0xC then 2%nat
  else 1%nat.

(** The message has the bytes [midi_event] indexes. *)
Definition enough_bytes (ev : list Z) : Prop :=
  match ev with
  | [] => False
  | ev0 :: _ => (bytes_read ev0 ≤ length ev)%nat
  end.

(** The tests of the branches that come before
    [elif ccnum == 0 or ccval == 0], in the pickup driver. *)
Definition mk4_earlier_handler (ccnum ccval : Z) : bool :=
  (ccnum =? 51) && (0 <? ccval)
  || (ccnum =? 52) && (0 <? ccval)
  || (ccnum =? 0x3F)
  || (ccnum =? 105)
  || (20 <? ccnum) && (ccnum <? 29)
  || ((ccnum =? 74) || (ccnum =? 75) || (ccnum =? 76) || (ccnum =? 77))
  || (ccnum =? 0x73) && (0 <? ccval)
  || (ccnum =? 0x75) && (0 <? ccval)
  || bool_decide (is_Some (Mk4.button_commands ccnum)) && (0 <? ccval).

(** The same for the transport driver. *)
Definition mini_earlier_handler (ccnum ccval : Z) : bool :=
  (ccnum =? 51) && (0 <? ccval)
  || (ccnum =? 52) && (0 <? ccval)
  || (ccnum =? 0x3F)
  || (ccnum =? 104)
  || (84 <? ccnum) && (ccnum <? 93)
  || ((ccnum =? 74) || (ccnum =? 75) || (ccnum =? 76) || (ccnum =? 77))
  || (ccnum =? 0x73) && (0 <? ccval)
  || (ccnum =? 0x75) && (0 <? ccval)
  || bool_decide (is_Some (Mini.button_commands ccnum)) && (0 <? ccval).

(** ** Runs of events *)

(** Events handled one after the other, each at its own clock reading. *)
Fixpoint mk4_events (evs : list (float * list Z)) (w : world Mk4.driver)
  : world Mk4.driver :=
  match evs with
  | [] => w
  | (now, ev) :: evs' => mk4_events evs' (snd (Mk4.midi_event now ev w))
  end.

Fixpoint mini_events (evs : list (float * list Z)) (w : world Mini.driver)
  : world Mini.driver :=
  match evs with
  | [] => w
  | (now, ev) :: evs' => mini_events evs' (snd (Mini.midi_event now ev w))
  end.

(** ** What the LED methods write *)

(** What [update_button_leds] writes to the device. *)
Definition button_led_writes (idev : option Z) (knob_bank : Z) : list effect :=
  match idev with
  | None => []
  | Some _ =>
      ((λ cc, dev_send_ccontrol_change idev 0 cc 127)
         <$> [104; 105; 0x66; 0x67; 106; 107])
      ++ [dev_send_ccontrol_change idev 0 51 (if knob_bank =? 0 then 127 else 0);
          dev_send_ccontrol_change idev 0 52 (if knob_bank =? 1 then 127 else 0)]
  end.

(** The mixer channel behind pad position [i], when the chain lookup
    returns a chain that has a [mixer_chan] below 17; [None] when any step
    of that resolution fails. *)
Definition resolve_pad {D} (w : world D) (i : Z) : option Z :=
  if has_chain_manager w then
    match get_chain_by_position (chain_manager w) i with
    | Found c =>
        match mixer_chan c with
        | Val ch => if ch <? 17 then Some ch else None
        | _ => None
        end
    | _ => None
    end
  else None.

(** The velocity written for position [i] of a row whose state is read
    with [state]: 0 when the position does not resolve. *)
Definition pad_velocity {D} (w : world D) (state : zynmixer_t → Z → Z)
    (on off : Z) (i : Z) : Z :=
  match resolve_pad w i with
  | Some ch =>
      if has_zynmixer w then
        if truthy (state (zynmixer w) ch) then on else off
      else 0
  | None => 0
  end.

(** The sixteen note-on messages of a refresh. *)
Definition pad_led_writes {D} (vel_soloed vel_not_soloed : Z) (w : world D)
  : list effect :=
  match idev_out w with
  | None => []
  | Some _ =>
      if negb (has_chain_manager w) || negb (has_zynmixer w) then []
      else
        ((λ i, dev_send_note_on (idev_out w) 0 (96 + i)
                 (pad_velocity w get_solo vel_soloed vel_not_soloed i))
           <$> seqZ 0 8)
        ++ ((λ i, dev_send_note_on (idev_out w) 0 (112 + i)
                    (pad_velocity w get_mute 5 64 i))
              <$> seqZ 0 8)
  end.

(** The ways the resolution of pad position [i] fails. *)
Inductive pad_unresolved (cm : chain_manager_t) (i : Z) : Prop :=
| lookup_raises :
    get_chain_by_position cm i = LookupRaises → pad_unresolved cm i
| no_chain :
    get_chain_by_position cm i = NoChain → pad_unresolved cm i
| no_mixer_chan_attribute c :
    get_chain_by_position cm i = Found c → mixer_chan c = Missing →
    pad_unresolved cm i
| mixer_chan_none c :
    get_chain_by_position cm i = Found c → mixer_chan c = PyNone →
    pad_unresolved cm i
| mixer_chan_out_of_range c ch :
    get_chain_by_position cm i = Found c → mixer_chan c = Val ch → 17 ≤ ch →
    pad_unresolved cm i.

(** ** Methods that complete, methods that do not forward *)

(** The host answers every chain lookup the driver makes: both managers
    are set on [self], no lookup by position raises, and every chain has a
    [mixer_chan] attribute. *)
Definition host_answers {D} (w : world D) : Prop :=
  has_chain_manager w = true ∧ has_zynmixer w = true ∧
  ∀ i, match get_chain_by_position (chain_manager w) i with
       | LookupRaises => False
       | NoChain => True
       | Found c => mixer_chan c ≠ Missing
       end.

(** Started where the host answers, [m] returns normally and leaves the
    host answering. *)
Definition completes {D A} (m : M (world D) A) : Prop :=
  ∀ w, host_answers w → ∃ a w', m w = (Ok a, w') ∧ host_answers w'.

Definition is_forward (e : effect) : bool :=
  match e with
  | write_zynmidi _ => true
  | _ => false
  end.

(** Whatever [m] does, it appends calls to [out] and none of them is
    [write_zynmidi]. *)
Definition no_forward {D A} (m : M (world D) A) : Prop :=
  ∀ w, ∃ es, out (snd (m w)) = out w ++ es
             ∧ Forall (λ e, is_forward e = false) es.

(** ** Knobs *)

(** What a bank-1 ZYNPOT knob of the transport driver sends for raw value
    [v]. *)
Definition mini_zynpot_calls (ccnum v : Z) : list effect :=
  if Mini.relative_delta v =? 0 then []
  else [send_cuia "ZYNPOT"
          (Some [PInt (ccnum - 85); PInt (Mini.relative_delta v)])].

(** The level a bank-0 knob of the transport driver sets for raw value [v]
    from level [current]. *)
Definition mini_nudged_level (current : float) (v : Z) : float :=
  py_max 0 (py_min 1 (PrimFloat.add current
                        (PrimFloat.mul (float_of_int (Mini.relative_delta v))
                                       0.01))).

(** The mixer after [set_level(ch, level)]. *)
Definition set_level_in (ch : Z) (level : float) (m : zynmixer_t) : zynmixer_t :=
  Zynmixer (<[ch := level]> (get_level m)) (get_solo m) (get_mute m).

(** The level a pickup knob at raw value [v] stands for: [v / 127.0]. *)
Definition knob_level (v : Z) : float := PrimFloat.div (float_of_int v) 127.

(** The gap between the knob and the current level: [abs(new - current)]. *)
Definition takeover_gap (v : Z) (current : float) : float :=
  PrimFloat.abs (PrimFloat.sub (knob_level v) current).

(** What an accepted SELECT/BACK message sends for raw value [v]. *)
Definition select_back_calls (v : Z) : list effect :=
  if (v =? 1) || (v <? 64) then [send_cuia "BACK" None]
  else if (v =? 127) || (64 <? v) then
    [send_cuia "ZYNSWITCH" (Some [PInt 3; PStr "S"])]
  else [].

(** ** Hosts used in the examples *)

(** One chain, at position 0, on mixer channel 0; every level 0.5; nothing
    soloed or muted. *)
Definition example_chains : chain_manager_t :=
  ChainManager (λ i, if i =? 0 then Found (Chain (Val 0) PyNone) else NoChain)
               NoChain.
Definition example_mixer : zynmixer_t :=
  Zynmixer (λ _, 0.5%float) (λ _, 0) (λ _, 0).
Definition example_world {D} (d : D) : world D :=
  World d (Some 1) true true example_chains example_mixer [].

(** Position 0 resolves, position 1 raises, position 2 has a chain without
    [mixer_chan], position 3 has channel 17 and the rest have no chain. *)
Definition faulty_chains : chain_manager_t :=
  ChainManager
    (λ i, if i =? 0 then Found (Chain (Val 0) PyNone)
          else if i =? 1 then LookupRaises
          else if i =? 2 then Found (Chain Missing PyNone)
          else if i =? 3 then Found (Chain (Val 17) PyNone)
          else NoChain)
    NoChain.

(** ** State invariants and well-formed calls *)

(** What holds of the pickup driver's fields from [__init__] on: the bank
    is 0, 1 or 2; only mixer knobs are marked synced; the recorded raw values
    belong to ZYNPOT knobs and are 7-bit; press times belong to hold
    buttons. *)
Definition mk4_inv (d : Mk4.driver) : Prop :=
  0 ≤ Mk4.knob_bank d ≤ 2
  ∧ map_Forall (λ (k : Z) (_ : bool), 21 ≤ k ≤ 26) (Mk4.mixer_synced d)
  ∧ map_Forall (λ (k v : Z), 21 ≤ k ≤ 24 ∧ 0 ≤ v ≤ 127)
      (Mk4.last_zynpot_values d)
  ∧ map_Forall (λ (k : Z) (_ : float), 74 ≤ k ≤ 77 ∨ k = 105)
      (Mk4.press_times d).

(** The same for the transport driver. *)
Definition mini_inv (d : Mini.driver) : Prop :=
  0 ≤ Mini.knob_bank d ≤ 2
  ∧ map_Forall (λ (k : Z) (_ : float), 74 ≤ k ≤ 77 ∨ k = 104)
      (Mini.press_times d).

(** The action names sent without arguments. *)
Definition plain_commands : list string :=
  ["ARROW_UP"; "ARROW_DOWN"; "ARROW_LEFT"; "ARROW_RIGHT"; "TEMPO";
   "TOGGLE_PLAY"; "TOGGLE_MIDI_PLAY"; "TOGGLE_RECORD"; "TOGGLE_MIDI_RECORD";
   "PRESET"; "MENU"; "BACK"].

(** A level within [0.0, 1.0]. *)
Definition unit_level (level : float) : Prop :=
  PrimFloat.leb 0 level = true ∧ PrimFloat.leb level 1 = true.

(** The calls a driver may make while it handles the message [ev]: actions
    with the arguments the host expects, LED messages on channel 0 with 7-bit
    data, mixer calls on a channel below 17 with a level in [0.0, 1.0] or a
    flag 0 or 1, a bank from 1 to 128, and as forwarded MIDI either [ev]
    itself or a three-byte control change on CC 20..31. *)
Definition call_ok (ev : list Z) (e : effect) : Prop :=
  match e with
  | send_cuia name None => name ∈ plain_commands
  | send_cuia name (Some [PInt index; PStr kind]) =>
      name = "ZYNSWITCH" ∧ 0 ≤ index ≤ 3 ∧ kind ∈ ["S"; "B"; "L"]
  | send_cuia name (Some [PInt index; PInt delta]) =>
      name = "ZYNPOT" ∧ 0 ≤ index ≤ 3 ∧ -64 ≤ delta ≤ 64 ∧ delta ≠ 0
  | send_cuia name (Some [PStr screen]) =>
      name = "refresh_screen" ∧ screen ∈ ["control"; "audio_mixer"]
  | send_cuia _ _ => False
  | dev_send_note_on _ chan note vel =>
      chan = 0 ∧ (96 ≤ note ≤ 103 ∨ 112 ≤ note ≤ 119) ∧ 0 ≤ vel ≤ 127
  | dev_send_ccontrol_change _ chan cc val =>
      chan = 0 ∧ 0 ≤ cc ≤ 127 ∧ (val = 0 ∨ val = 127)
  | write_zynmidi m =>
      m = ev
      ∨ ∃ chan cc v, m = [Z.lor 0xB0 chan; cc; v]
                     ∧ 0 ≤ chan ≤ 15 ∧ 20 ≤ cc ≤ 31 ∧ 0 ≤ v ≤ 127
  | set_level ch level => ch < 17 ∧ unit_level level
  | set_solo ch v | set_mute ch v => ch < 17 ∧ (v = 0 ∨ v = 1)
  | select_bank bank => 1 ≤ bank ≤ 128
  | set_preset index => 0 ≤ index
  | logging_warning => True
  end.

(** Started with [I] on the driver's fields, [m] ends with [I] on them,
    whether it returns or raises; the calls it makes are appended to [out]
    and each satisfies [ok]; a value it returns satisfies [Q]. *)
Definition sound {D A} (I : D → Prop) (ok : effect → Prop)
    (m : M (world D) A) (Q : A → Prop) : Prop :=
  ∀ w, I (self w) →
       I (self (snd (m w)))
       ∧ (∃ es, out (snd (m w)) = out w ++ es ∧ Forall ok es)
       ∧ ∀ a, fst (m w) = Ok a → Q a.

(** The mixer after [set_solo(ch, v)] and after [set_mute(ch, v)]. *)
Definition set_solo_in (ch v : Z) (m : zynmixer_t) : zynmixer_t :=
  Zynmixer (get_level m) (<[ch := v]> (get_solo m)) (get_mute m).
Definition set_mute_in (ch v : Z) (m : zynmixer_t) : zynmixer_t :=
  Zynmixer (get_level m) (get_solo m) (<[ch := v]> (get_mute m)).

(** The flag a pad press writes: 0 over a true value, 1 over a false one. *)
Definition toggled (v : Z) : Z := if truthy v then 0 else 1.

(** ** Pad presses *)

(** The world after a press of a solo pad, and of a mute pad, that
    resolves to mixer channel [ch]: the flag of that channel toggled. *)
Definition press_solo {D} (ch : Z) (w : world D) : world D :=
  with_zynmixer
    (set_solo_in ch (toggled (get_solo (zynmixer w) ch)) (zynmixer w)) w.
Definition press_mute {D} (ch : Z) (w : world D) : world D :=
  with_zynmixer
    (set_mute_in ch (toggled (get_mute (zynmixer w) ch)) (zynmixer w)) w.

(** The chain position a pad note stands for: [note - 96] in the solo row,
    [note - 112] in the mute row. *)
Definition pad_position (note : Z) : Z :=
  if note <=? 103 then note - 96 else note - 112.

(** A flag map after two toggles of channel [ch]: the channel holds its
    old truth value as 0 or 1, and every other channel is as before. *)
Definition flags_restored (before after : Z → Z) (ch : Z) : Prop :=
  after ch = (if truthy (before ch) then 1 else 0)
  ∧ ∀ ch', ch' ≠ ch → after ch' = before ch'.

(** ** Sums of deltas *)

Definition sum_deltas (deltas : list Z) : Z := foldr Z.add 0 deltas.

(** The ZYNPOT call for pot [index] with delta [d]. *)
Definition zynpot_call (index d : Z) : effect :=
  send_cuia "ZYNPOT" (Some [PInt index; PInt d]).

(** * Properties *)

(** ** Order facts on binary64 values *)

Section FloatOrder.
Implicit Types x y z : float.

Local Ltac cmp_cases :=
  repeat match goal with
    | |- context [Z.compare ?a ?b] => destruct (Z.compare_spec a b)
    | |- context [PosDef.Pos.compare_cont Eq ?a ?b] =>
        change (PosDef.Pos.compare_cont Eq a b) with (Pos.compare a b);
        destruct (Pos.compare_spec a b)
    end.

Lemma SFleb_not_ltb (a b : spec_float) :
  SFleb a b = true → SFltb b a = false.
Proof.
  unfold SFleb, SFltb.
  destruct a as [[]|[]| |[] m1 e1], b as [[]|[]| |[] m2 e2];
    simpl; try done; cmp_cases; simpl; try done; lia.
Qed.

Lemma SFltb_leb_not_ltb (a b c : spec_float) :
  SFltb a b = true → SFleb b c = true → SFltb c a = false.
Proof.
  unfold SFleb, SFltb.
  destruct a as [[]|[]| |[] m1 e1], b as [[]|[]| |[] m2 e2],
           c as [[]|[]| |[] m3 e3];
    simpl; try done; cmp_cases; simpl; try done; lia.
Qed.

(** [x <= y] excludes [y < x]. *)
Lemma leb_not_ltb x y :
  PrimFloat.leb x y = true → PrimFloat.ltb y x = false.
Proof. rewrite leb_spec, ltb_spec. apply SFleb_not_ltb. Qed.

(** [x < y <= z] excludes [z < x]. *)
Lemma ltb_leb_not_ltb x y z :
  PrimFloat.ltb x y = true → PrimFloat.leb y z = true →
  PrimFloat.ltb z x = false.
Proof. rewrite leb_spec, !ltb_spec. apply SFltb_leb_not_ltb. Qed.
End FloatOrder.

(** ** Running the monad *)

Section Run.
Context {D : Type}.
Implicit Types w : world D.

Lemma with_out_id w : with_out (out w) w = w.
Proof. by destruct w. Qed.

Lemma with_out_nil w : with_out (out w ++ []) w = w.
Proof. rewrite app_nil_r. apply with_out_id. Qed.

Lemma emit_run e w : emit e w = (Ok tt, with_out (out w ++ [e]) w).
Proof. done. Qed.

(** A loop whose body is one call makes the calls in order. *)
Lemma for_each_emit {A} (f : A → effect) (l : list A) w :
  for_each l (λ i, emit (f i)) w = (Ok tt, with_out (out w ++ (f <$> l)) w).
Proof.
  revert w. induction l as [|i l IH]; intros w; simpl.
  - by rewrite with_out_nil.
  - unfold bind. rewrite emit_run, IH. simpl.
    by rewrite <- app_assoc.
Qed.
End Run.

Lemma update_button_leds_run {D} (bank : Z) (w : world D) :
  update_button_leds bank w
  = (Ok tt, with_out (out w ++ button_led_writes (idev_out w) bank) w).
Proof.
  unfold update_button_leds, button_led_writes, bind, get.
  destruct (idev_out w) as [i|] eqn:Hi.
  - rewrite for_each_emit, !emit_run. simpl.
    by rewrite <- !app_assoc.
  - by rewrite with_out_nil.
Qed.

(** ** Decoding the status byte *)

Lemma mk4_midi_event_cc now ev0 ev1 ev2 rest (w : world Mk4.driver) :
  evtype ev0 = 0xB →
  Mk4.midi_event now (ev0 :: ev1 :: ev2 :: rest) w
  = Mk4.control_change now (ev_chan ev0) (data7 ev1) (data7 ev2) w.
Proof.
  unfold evtype. intros Hty.
  unfold Mk4.midi_event, getitem, bind, ret. simpl.
  by rewrite Hty.
Qed.

Lemma mini_midi_event_cc now ev0 ev1 ev2 rest (w : world Mini.driver) :
  evtype ev0 = 0xB →
  Mini.midi_event now (ev0 :: ev1 :: ev2 :: rest) w
  = Mini.control_change now (ev_chan ev0) (data7 ev1) (data7 ev2) w.
Proof.
  unfold evtype. intros Hty.
  unfold Mini.midi_event, getitem, bind, ret. simpl.
  by rewrite Hty.
Qed.

(** ** Bank switching *)

Lemma mk4_bank_button_run arrow turn (w : world Mk4.driver) :
  Mk4.bank_button arrow turn w
  = (Ok tt,
     if Mk4.shift (self w) then with_out (out w ++ [send_cuia arrow None]) w
     else
       let bank := turn (Mk4.knob_bank (self w)) in
       with_out (out w ++ button_led_writes (idev_out w) bank)
         (with_self (Mk4.Driver false (Mk4.press_times (self w)) bank ∅
                       (Mk4.last_zynpot_values (self w))) w)).
Proof.
  unfold Mk4.bank_button, get_self, bind, get, ret.
  destruct (Mk4.shift (self w)) eqn:Hs; [done|].
  unfold set_self, modify. rewrite update_button_leds_run.
  unfold Mk4.set_mixer_synced, Mk4.set_knob_bank. simpl. by rewrite Hs.
Qed.

Lemma mini_bank_button_run arrow turn (w : world Mini.driver) :
  Mini.bank_button arrow turn w
  = (Ok tt,
     if Mini.shift (self w) then with_out (out w ++ [send_cuia arrow None]) w
     else
       let bank := turn (Mini.knob_bank (self w)) in
       with_out (out w ++ button_led_writes (idev_out w) bank)
         (with_self (Mini.Driver false (Mini.press_times (self w)) bank
                       (Mini.last_select_back_time (self w))) w)).
Proof.
  unfold Mini.bank_button, get_self, bind, get, ret.
  destruct (Mini.shift (self w)) eqn:Hs; [done|].
  unfold set_self, modify. rewrite update_button_leds_run.
  unfold Mini.set_knob_bank. simpl. by rewrite Hs.
Qed.

Lemma mk4_bank_event now ev0 ev1 ev2 rest arrow turn (w : world Mk4.driver) :
  evtype ev0 = 0xB → 0 < data7 ev2 →
  (data7 ev1 = 51 ∧ arrow = "ARROW_UP" ∧ turn = (λ bank, (bank - 1) `mod` 3)) ∨
  (data7 ev1 = 52 ∧ arrow = "ARROW_DOWN" ∧ turn = (λ bank, (bank + 1) `mod` 3)) →
  Mk4.midi_event now (ev0 :: ev1 :: ev2 :: rest) w
  = (Ok true, snd (Mk4.bank_button arrow turn w)).
Proof.
  intros Hty Hval Hcc. rewrite mk4_midi_event_cc by done.
  apply Z.ltb_lt in Hval. unfold Mk4.control_change. rewrite Hval.
  destruct Hcc as [(-> & -> & ->)|(-> & -> & ->)]; simpl;
    unfold bind; by rewrite mk4_bank_button_run.
Qed.

Lemma mini_bank_event now ev0 ev1 ev2 rest arrow turn (w : world Mini.driver) :
  evtype ev0 = 0xB → 0 < data7 ev2 →
  (data7 ev1 = 51 ∧ arrow = "ARROW_UP" ∧ turn = (λ bank, (bank - 1) `mod` 3)) ∨
  (data7 ev1 = 52 ∧ arrow = "ARROW_DOWN" ∧ turn = (λ bank, (bank + 1) `mod` 3)) →
  Mini.midi_event now (ev0 :: ev1 :: ev2 :: rest) w
  = (Ok true, snd (Mini.bank_button arrow turn w)).
Proof.
  intros Hty Hval Hcc. rewrite mini_midi_event_cc by done.
  apply Z.ltb_lt in Hval. unfold Mini.control_change. rewrite Hval.
  destruct Hcc as [(-> & -> & ->)|(-> & -> & ->)]; simpl;
    unfold bind; by rewrite mini_bank_button_run.
Qed.

(** C5, as stated, fails in the pickup driver: a bank transition leaves
    [last_zynpot_values] as it was.  Here knob CC 21 was last seen at 5 in
    bank 1; after bank-down the bank is 0 and the entry is still there. *)
Lemma bank_switch_keeps_last_zynpot_values :
  ∃ w',
    Mk4.midi_event 0 [0xB0; 51; 127]
      (example_world (Mk4.Driver false ∅ 1 ∅ {[21 := 5]}))
    = (Ok true, w')
    ∧ Mk4.knob_bank (self w') = 0
    ∧ Mk4.last_zynpot_values (self w') !! 21 = Some 5
    ∧ Mk4.last_zynpot_values (self w') ≠ ∅.
Proof.
  eexists. split; [vm_compute; reflexivity|].
  cbn [self Mk4.knob_bank Mk4.last_zynpot_values].
  split; [reflexivity|]. split; [vm_compute; reflexivity|].
  intros H. apply (f_equal (λ m : gmap Z Z, m !! 21)) in H.
  vm_compute in H. done.
Qed.

(** What the surviving entry does: knob CC 21 is seen at 5 in bank 1, moved
    to 100 in bank 0, and seen at 101 back in bank 1; after the 24 LED
    writes of the three bank changes, the one step up is sent as a ZYNPOT
    delta of -32. *)
Lemma surviving_value_after_bank_round_trip :
  drop 24 (out (mk4_events
                  [(0%float, [0xB0; 52; 127]); (0%float, [0xB0; 21; 5]);
                   (0%float, [0xB0; 51; 127]); (0%float, [0xB0; 21; 100]);
                   (0%float, [0xB0; 52; 127]); (0%float, [0xB0; 21; 101])]
                  (example_world Mk4.init)))
  = [send_cuia "ZYNPOT" (Some [PInt 0; PInt (-32)])].
Proof. vm_compute. reflexivity. Qed.

(** C5 (amended).  On a bank-down activation (CC 51, value > 0) without
    shift the bank becomes [(bank - 1) mod 3], on a bank-up activation
    (CC 52, value > 0) it becomes [(bank + 1) mod 3], so bank 0 goes down to
    bank 2 and bank 2 goes up to bank 0; the event is handled and the button
    LEDs are rewritten for the new bank.  In the pickup driver the transition
    empties [mixer_synced] and leaves [last_zynpot_values] unchanged; the
    transport driver has neither map.  With shift held the same controls send
    ARROW_UP and ARROW_DOWN and change nothing in the driver. *)
Theorem bank_switching now ev0 ev1 ev2 rest arrow (turn : Z → Z) :
  evtype ev0 = 0xB → 0 < data7 ev2 →
  (data7 ev1 = 51 ∧ arrow = "ARROW_UP" ∧ turn = (λ bank, (bank - 1) `mod` 3)) ∨
  (data7 ev1 = 52 ∧ arrow = "ARROW_DOWN" ∧ turn = (λ bank, (bank + 1) `mod` 3)) →
  let ev := ev0 :: ev1 :: ev2 :: rest in
  (∀ w : world Mk4.driver,
      (Mk4.shift (self w) = false →
       ∃ d',
         Mk4.midi_event now ev w
         = (Ok true,
            with_out (out w ++ button_led_writes (idev_out w) (Mk4.knob_bank d'))
              (with_self d' w))
         ∧ Mk4.knob_bank d' = turn (Mk4.knob_bank (self w))
         ∧ Mk4.mixer_synced d' = ∅
         ∧ Mk4.last_zynpot_values d' = Mk4.last_zynpot_values (self w)
         ∧ Mk4.press_times d' = Mk4.press_times (self w)
         ∧ Mk4.shift d' = false)
      ∧ (Mk4.shift (self w) = true →
         Mk4.midi_event now ev w
         = (Ok true, with_out (out w ++ [send_cuia arrow None]) w)))
  ∧ (∀ w : world Mini.driver,
      (Mini.shift (self w) = false →
       ∃ d',
         Mini.midi_event now ev w
         = (Ok true,
            with_out (out w ++ button_led_writes (idev_out w) (Mini.knob_bank d'))
              (with_self d' w))
         ∧ Mini.knob_bank d' = turn (Mini.knob_bank (self w))
         ∧ Mini.last_select_back_time d' = Mini.last_select_back_time (self w)
         ∧ Mini.press_times d' = Mini.press_times (self w)
         ∧ Mini.shift d' = false)
      ∧ (Mini.shift (self w) = true →
         Mini.midi_event now ev w
         = (Ok true, with_out (out w ++ [send_cuia arrow None]) w)))
  ∧ (data7 ev1 = 51 → turn 0 = 2)
  ∧ (data7 ev1 = 52 → turn 2 = 0).
Proof.
  intros Hty Hval Hcc ev. subst ev.
  split; [intros w; split; intros Hs
         | split; [intros w; split; intros Hs | split]].
  - exists (Mk4.Driver false (Mk4.press_times (self w))
              (turn (Mk4.knob_bank (self w))) ∅
              (Mk4.last_zynpot_values (self w))).
    rewrite (mk4_bank_event _ _ _ _ _ arrow turn) by done.
    by rewrite mk4_bank_button_run, Hs.
  - rewrite (mk4_bank_event _ _ _ _ _ arrow turn) by done.
    by rewrite mk4_bank_button_run, Hs.
  - exists (Mini.Driver false (Mini.press_times (self w))
              (turn (Mini.knob_bank (self w)))
              (Mini.last_select_back_time (self w))).
    rewrite (mini_bank_event _ _ _ _ _ arrow turn) by done.
    by rewrite mini_bank_button_run, Hs.
  - rewrite (mini_bank_event _ _ _ _ _ arrow turn) by done.
    by rewrite mini_bank_button_run, Hs.
  - intros H51. destruct Hcc as [(_ & _ & ->)|(H52 & _)]; [done | lia].
  - intros H52. destruct Hcc as [(H51 & _)|(_ & _ & ->)]; [lia | done].
Qed.

Lemma bank_switching_witness :
  evtype 0xB0 = 0xB ∧ 0 < data7 127 ∧
  ∀ w : world Mk4.driver,
    Mk4.shift (self w) = true →
    Mk4.midi_event 0 [0xB0; 51; 127] w
    = (Ok true, with_out (out w ++ [send_cuia "ARROW_UP" None]) w).
Proof.
  split; [reflexivity|]. split; [reflexivity|].
  intros w.
  apply (bank_switching 0 0xB0 51 127 [] "ARROW_UP" (λ bank, (bank - 1) `mod` 3));
    [reflexivity | reflexivity | left; repeat split; reflexivity].
Defined.

(** ** The last branch of the control-change chain *)

Lemma in_74_77 (ccnum : Z) :
  (ccnum =? 74) || (ccnum =? 75) || (ccnum =? 76) || (ccnum =? 77)
  = (74 <=? ccnum) && (ccnum <=? 77).
Proof.
  repeat match goal with
    | |- context [?a =? ?b] => destruct (Z.eqb_spec a b)
    | |- context [?a <=? ?b] => destruct (Z.leb_spec a b)
    end; simpl; try reflexivity; lia.
Qed.

Lemma no_button_command (cmd : option string) (ccval : Z) :
  bool_decide (is_Some cmd) && (0 <? ccval) = false →
  (if 0 <? ccval then cmd else None) = None.
Proof.
  destruct (0 <? ccval); [|done]. rewrite andb_true_r.
  destruct cmd; [|done]. intros H. apply bool_decide_eq_false in H.
  by destruct H.
Qed.

Lemma mk4_control_change_unmatched now chan ccnum ccval (w : world Mk4.driver) :
  mk4_earlier_handler ccnum ccval = false →
  Mk4.control_change now chan ccnum ccval w
  = (Ok ((ccnum =? 0) || (ccval =? 0)), w).
Proof.
  unfold mk4_earlier_handler. intros H.
  repeat (apply orb_false_elim in H; destruct H as [H ?]).
  unfold Mk4.control_change.
  repeat match goal with Hc : _ = false |- _ => rewrite Hc; clear Hc end.
  rewrite no_button_command by done.
  by destruct ((ccnum =? 0) || (ccval =? 0)).
Qed.

Lemma mini_control_change_unmatched now chan ccnum ccval (w : world Mini.driver) :
  mini_earlier_handler ccnum ccval = false →
  Mini.control_change now chan ccnum ccval w
  = (Ok ((ccnum =? 0) || (ccval =? 0)), w).
Proof.
  unfold mini_earlier_handler. intros H.
  repeat (apply orb_false_elim in H; destruct H as [H ?]).
  unfold Mini.control_change.
  repeat match goal with Hc : _ = false |- _ => rewrite Hc; clear Hc end.
  rewrite no_button_command by done.
  by destruct ((ccnum =? 0) || (ccval =? 0)).
Qed.

(** C10.  A control-change event that no earlier branch takes and whose
    controller number or value is 0 is reported handled, and the world after
    it is the world before it: no call on the host or on the device, no change
    of the driver's fields.  Controller number 0 is taken by no earlier
    branch, whatever the value; the same holds for a release (value 0) of any
    controller outside the hold buttons, the shift button and the knobs. *)
Theorem unmatched_zero_is_consumed now ev0 ev1 ev2 rest :
  evtype ev0 = 0xB →
  data7 ev1 = 0 ∨ data7 ev2 = 0 →
  let ev := ev0 :: ev1 :: ev2 :: rest in
  (∀ w : world Mk4.driver,
      mk4_earlier_handler (data7 ev1) (data7 ev2) = false →
      Mk4.midi_event now ev w = (Ok true, w))
  ∧ (∀ w : world Mini.driver,
      mini_earlier_handler (data7 ev1) (data7 ev2) = false →
      Mini.midi_event now ev w = (Ok true, w))
  ∧ (data7 ev1 = 0 →
     mk4_earlier_handler (data7 ev1) (data7 ev2) = false
     ∧ mini_earlier_handler (data7 ev1) (data7 ev2) = false)
  ∧ (data7 ev2 = 0 →
     mk4_earlier_handler (data7 ev1) (data7 ev2)
     = (data7 ev1 =? 0x3F) || (data7 ev1 =? 105)
       || (20 <? data7 ev1) && (data7 ev1 <? 29)
       || (74 <=? data7 ev1) && (data7 ev1 <=? 77)
     ∧ mini_earlier_handler (data7 ev1) (data7 ev2)
       = (data7 ev1 =? 0x3F) || (data7 ev1 =? 104)
         || (84 <? data7 ev1) && (data7 ev1 <? 93)
         || (74 <=? data7 ev1) && (data7 ev1 <=? 77)).
Proof.
  intros Hty Hzero ev. subst ev.
  assert (Hhandled : (data7 ev1 =? 0) || (data7 ev2 =? 0) = true).
  { destruct Hzero as [-> | ->]; [done | apply orb_true_r]. }
  split; [|split; [|split]].
  - intros w Hno. rewrite mk4_midi_event_cc by done.
    by rewrite mk4_control_change_unmatched, Hhandled.
  - intros w Hno. rewrite mini_midi_event_cc by done.
    by rewrite mini_control_change_unmatched, Hhandled.
  - intros ->. done.
  - intros ->. unfold mk4_earlier_handler, mini_earlier_handler.
    change (0 <? 0) with false.
    by rewrite !andb_false_r, !orb_false_r, in_74_77.
Qed.

Lemma unmatched_zero_is_consumed_witness :
  evtype 0xB0 = 0xB ∧ (data7 0 = 0 ∨ data7 99 = 0) ∧
  ∀ w : world Mini.driver,
    mini_earlier_handler (data7 0) (data7 99) = false →
    Mini.midi_event 0 [0xB0; 0; 99] w = (Ok true, w).
Proof.
  split; [reflexivity|]. split; [left; reflexivity|].
  apply (unmatched_zero_is_consumed 0 0xB0 0 99 []);
    [reflexivity | left; reflexivity].
Defined.

(** ** The pad LED refresh *)

Section PadLeds.
Context {D : Type}.
Implicit Types w : world D.

Lemma solo_pad_velocity_run on off i w :
  solo_pad_velocity on off i w = (Ok (pad_velocity w get_solo on off i), w).
Proof.
  unfold solo_pad_velocity, pad_velocity, resolve_pad, chain_by_position,
    probed_mixer_chan, the_zynmixer, try_except, bind, get, ret, raise.
  destruct (has_chain_manager w); simpl; [|done].
  destruct (get_chain_by_position (chain_manager w) i) as [| |c];
    simpl; try done.
  destruct (mixer_chan c) as [| |ch]; simpl; try done.
  destruct (ch <? 17); simpl; [|done].
  by destruct (has_zynmixer w).
Qed.

Lemma mute_pad_velocity_run i w :
  mute_pad_velocity i w = (Ok (pad_velocity w get_mute 5 64 i), w).
Proof.
  unfold mute_pad_velocity, pad_velocity, resolve_pad, chain_by_position,
    probed_mixer_chan, the_zynmixer, try_except, bind, get, ret, raise.
  destruct (has_chain_manager w); simpl; [|done].
  destruct (get_chain_by_position (chain_manager w) i) as [| |c];
    simpl; try done.
  destruct (mixer_chan c) as [| |ch]; simpl; try done.
  destruct (ch <? 17); simpl; [|done].
  by destruct (has_zynmixer w).
Qed.

(** A loop that computes a value from everything but [out] and then makes
    one call appends the calls in order. *)
Lemma for_each_compute_emit {A B} (f : A → M (world D) B) (v : world D → A → B)
    (g : A → B → effect) (l : list A) w :
  (∀ i w', f i w' = (Ok (v w' i), w')) →
  (∀ i o w', v (with_out o w') i = v w' i) →
  for_each l (λ i, do x <- f i; emit (g i x)) w
  = (Ok tt, with_out (out w ++ ((λ i, g i (v w i)) <$> l)) w).
Proof.
  intros Hf Hv. revert w. induction l as [|i l IH]; intros w; simpl.
  - by rewrite with_out_nil.
  - unfold bind at 1 2. rewrite Hf, emit_run, IH. simpl.
    rewrite <- app_assoc. simpl.
    replace ((λ j, g j (v (with_out (out w ++ [g i (v w i)]) w) j)) <$> l)
      with ((λ j, g j (v w j)) <$> l); [done|].
    apply list_fmap_ext. intros _ j _. by rewrite Hv.
Qed.

Lemma update_pad_leds_run on off w :
  update_pad_leds on off w
  = (Ok tt, with_out (out w ++ pad_led_writes on off w) w).
Proof.
  unfold update_pad_leds, pad_led_writes, bind at 1, get. cbv beta iota.
  destruct (idev_out w) as [dev|] eqn:Hdev; [|by rewrite with_out_nil].
  unfold try_except.
  destruct (negb (has_chain_manager w) || negb (has_zynmixer w)).
  { unfold ret. by rewrite with_out_nil. }
  unfold bind at 1.
  rewrite (for_each_compute_emit _
             (λ w' i, pad_velocity w' get_solo on off i)
             (λ i vel, dev_send_note_on (Some dev) 0 (96 + i) vel));
    [|apply solo_pad_velocity_run|done].
  rewrite (for_each_compute_emit _
             (λ w' i, pad_velocity w' get_mute 5 64 i)
             (λ i vel, dev_send_note_on (Some dev) 0 (112 + i) vel));
    [|apply mute_pad_velocity_run|done].
  simpl. by rewrite <- app_assoc.
Qed.
End PadLeds.

Lemma unresolved_pad_is_off {D} (w : world D) state on off i :
  pad_unresolved (chain_manager w) i → pad_velocity w state on off i = 0.
Proof.
  unfold pad_velocity, resolve_pad.
  destruct (has_chain_manager w); [|done].
  intros [H|H|c H Hc|c H Hc|c ch H Hc Hch]; rewrite H; try done;
    rewrite Hc; try done.
  apply Z.ltb_ge in Hch. by rewrite Hch.
Qed.

Lemma resolved_pad_velocity {D} (w : world D) state on off i c ch :
  has_chain_manager w = true → has_zynmixer w = true →
  get_chain_by_position (chain_manager w) i = Found c →
  mixer_chan c = Val ch → ch < 17 →
  pad_velocity w state on off i
  = if truthy (state (zynmixer w) ch) then on else off.
Proof.
  unfold pad_velocity, resolve_pad. intros -> -> -> -> Hch.
  apply Z.ltb_lt in Hch. by rewrite Hch.
Qed.

Lemma refresh_writes_all_pads {D} on off (w : world D) dev :
  idev_out w = Some dev → has_chain_manager w = true → has_zynmixer w = true →
  pad_led_writes on off w
  = ((λ i, dev_send_note_on (Some dev) 0 (96 + i)
             (pad_velocity w get_solo on off i)) <$> [0; 1; 2; 3; 4; 5; 6; 7])
    ++ ((λ i, dev_send_note_on (Some dev) 0 (112 + i)
                (pad_velocity w get_mute 5 64 i)) <$> [0; 1; 2; 3; 4; 5; 6; 7]).
Proof. unfold pad_led_writes. by intros -> -> ->. Qed.

(** C9.  A pad-LED refresh always completes.  With an output device and both
    managers in place it writes sixteen note-on messages, notes 96..103 for
    the solo row and 112..119 for the mute row, in that order and whatever the
    host answers.  The velocity at a position depends on the lookup at that
    position alone: it is 0 when the lookup raises, finds no chain, finds a
    chain without [mixer_chan], with [mixer_chan] [None], or with a channel of
    17 or more; at a position that resolves it is the colour of the solo or
    mute state, whatever happens at the other positions. *)
Theorem pad_led_refresh_degrades :
  (∀ w : world Mk4.driver,
      Mk4.update_pad_leds w
      = (Ok tt, with_out (out w ++ pad_led_writes 5 10 w) w))
  ∧ (∀ w : world Mini.driver,
      Mini.update_pad_leds w
      = (Ok tt, with_out (out w ++ pad_led_writes 14 118 w) w))
  ∧ (∀ D (w : world D) on off dev,
      idev_out w = Some dev →
      has_chain_manager w = true → has_zynmixer w = true →
      pad_led_writes on off w
      = ((λ i, dev_send_note_on (Some dev) 0 (96 + i)
                 (pad_velocity w get_solo on off i))
           <$> [0; 1; 2; 3; 4; 5; 6; 7])
        ++ ((λ i, dev_send_note_on (Some dev) 0 (112 + i)
                    (pad_velocity w get_mute 5 64 i))
              <$> [0; 1; 2; 3; 4; 5; 6; 7]))
  ∧ (∀ D (w : world D) state on off i,
      pad_unresolved (chain_manager w) i →
      pad_velocity w state on off i = 0)
  ∧ (∀ D (w : world D) state on off i c ch,
      has_chain_manager w = true → has_zynmixer w = true →
      get_chain_by_position (chain_manager w) i = Found c →
      mixer_chan c = Val ch → ch < 17 →
      pad_velocity w state on off i
      = if truthy (state (zynmixer w) ch) then on else off).
Proof.
  split; [|split; [|split; [|split]]].
  - intros w. apply update_pad_leds_run.
  - intros w. apply update_pad_leds_run.
  - intros D w on off dev. apply refresh_writes_all_pads.
  - intros D w state on off i. apply unresolved_pad_is_off.
  - intros D w state on off i c ch. apply resolved_pad_velocity.
Qed.

Lemma pad_led_refresh_degrades_witness :
  let w := World Mini.init (Some 1) true true faulty_chains example_mixer [] in
  pad_unresolved (chain_manager w) 1
  ∧ pad_velocity w get_solo 14 118 1 = 0
  ∧ out (snd (Mini.update_pad_leds w))
    = ((λ '(note, vel), dev_send_note_on (Some 1) 0 note vel)
         <$> [(96, 118); (97, 0); (98, 0); (99, 0);
              (100, 0); (101, 0); (102, 0); (103, 0);
              (112, 64); (113, 0); (114, 0); (115, 0);
              (116, 0); (117, 0); (118, 0); (119, 0)]).
Proof.
  intros w.
  assert (Hbad : pad_unresolved (chain_manager w) 1)
    by (by apply lookup_raises).
  split; [exact Hbad|]. split.
  - exact (proj1 (proj2 (proj2 (proj2 pad_led_refresh_degrades)))
             _ w get_solo 14 118 1 Hbad).
  - rewrite (proj1 (proj2 pad_led_refresh_degrades) w). reflexivity.
Defined.

(** ** Methods that complete *)

Section Completes.
Context {D : Type}.
Implicit Types w : world D.

Lemma completes_ret {A} (a : A) : completes (D:=D) (ret a).
Proof. intros w Hw. by exists a, w. Qed.

Lemma completes_bind {A B} (m : M (world D) A) (k : A → M (world D) B) :
  completes (D:=D) m → (∀ a, completes (D:=D) (k a)) → completes (D:=D) (bind m k).
Proof.
  intros Hm Hk w Hw. destruct (Hm w Hw) as (a & w1 & Hrun & Hw1).
  unfold bind. rewrite Hrun. by apply Hk.
Qed.

Lemma completes_get : completes (D:=D) (@get (world D)).
Proof. intros w Hw. by exists w, w. Qed.

Lemma completes_get_self : completes (D:=D) (@get_self D).
Proof. intros w Hw. by exists (self w), w. Qed.

Lemma completes_set_self d : completes (D:=D) (set_self d).
Proof. intros w Hw. by exists tt, (with_self d w). Qed.

Lemma completes_emit e : completes (D:=D) (emit e).
Proof. intros w Hw. by exists tt, (with_out (out w ++ [e]) w). Qed.

Lemma completes_if {A} (b : bool) (m1 m2 : M (world D) A) :
  completes (D:=D) m1 → completes (D:=D) m2 → completes (D:=D) (if b then m1 else m2).
Proof. by destruct b. Qed.

Lemma completes_the_zynmixer : completes (D:=D) the_zynmixer.
Proof.
  intros w Hw. exists (zynmixer w), w. split; [|done].
  unfold the_zynmixer, bind, get. destruct Hw as (_ & -> & _). done.
Qed.

Lemma completes_with_zynmixer m :
  completes (D:=D) (modify (with_zynmixer m)).
Proof. intros w Hw. by exists tt, (with_zynmixer m w). Qed.

Lemma completes_mixer_set_level ch v :
  completes (D:=D) (mixer_set_level ch v).
Proof.
  apply completes_bind; [apply completes_the_zynmixer|]. intros m.
  apply completes_bind; [apply completes_with_zynmixer|]. intros _.
  apply completes_emit.
Qed.

Lemma completes_mixer_set_solo ch v :
  completes (D:=D) (mixer_set_solo ch v).
Proof.
  apply completes_bind; [apply completes_the_zynmixer|]. intros m.
  apply completes_bind; [apply completes_with_zynmixer|]. intros _.
  apply completes_emit.
Qed.

Lemma completes_mixer_set_mute ch v :
  completes (D:=D) (mixer_set_mute ch v).
Proof.
  apply completes_bind; [apply completes_the_zynmixer|]. intros m.
  apply completes_bind; [apply completes_with_zynmixer|]. intros _.
  apply completes_emit.
Qed.

(** The lookup and the test on its result, taken together. *)
Lemma completes_checked_lookup {A} i (k : option Z → M (world D) A) :
  (∀ mc, completes (D:=D) (k mc)) →
  completes (D:=D) (do chain <- chain_by_position i;
             do mc <- checked_mixer_chan chain; k mc).
Proof.
  intros Hk w Hw. unfold bind at 1, chain_by_position, bind at 1, get.
  pose proof Hw as (Hcm & _ & Hchains). rewrite Hcm. specialize (Hchains i).
  destruct (get_chain_by_position (chain_manager w) i) as [| |c];
    [done| |]; unfold ret, bind, checked_mixer_chan.
  - by apply Hk.
  - destruct (mixer_chan c) as [| |ch]; [done| |]; by apply Hk.
Qed.

Lemma completes_update_pad_leds on off :
  completes (D:=D) (update_pad_leds on off).
Proof.
  intros w Hw. rewrite update_pad_leds_run.
  by exists tt, (with_out (out w ++ pad_led_writes on off w) w).
Qed.

Lemma completes_update_button_leds bank :
  completes (D:=D) (@update_button_leds D bank).
Proof.
  intros w Hw. rewrite update_button_leds_run.
  by exists tt, (with_out (out w ++ button_led_writes (idev_out w) bank) w).
Qed.

Lemma completes_pad_note on off ty note vel :
  completes (D:=D) (pad_note on off ty note vel).
Proof.
  unfold pad_note.
  repeat apply completes_if; try apply completes_ret;
    apply completes_checked_lookup; intros [ch|]; try apply completes_ret;
    (apply completes_bind; [apply completes_the_zynmixer|]; intros m);
    (apply completes_bind;
     [apply completes_mixer_set_solo || apply completes_mixer_set_mute|]);
    intros _; apply completes_update_pad_leds.
Qed.
End Completes.

Lemma completes_try_except {D A} (m : M (world D) A) (h : exn → M (world D) A) :
  (∀ w, host_answers w → host_answers (snd (m w))) →
  (∀ e, completes (h e)) →
  completes (try_except m h).
Proof.
  intros Hm Hh w Hw. unfold try_except. specialize (Hm w Hw).
  destruct (m w) as [[a|e] w']; simpl in Hm.
  - by exists a, w'.
  - by apply Hh.
Qed.

Ltac completes_step :=
  lazymatch goal with
  | |- completes (ret _) => apply completes_ret
  | |- completes get => apply completes_get
  | |- completes get_self => apply completes_get_self
  | |- completes (set_self _) => apply completes_set_self
  | |- completes (emit _) => apply completes_emit
  | |- completes the_zynmixer => apply completes_the_zynmixer
  | |- completes (mixer_set_level _ _) => apply completes_mixer_set_level
  | |- completes (update_button_leds _) => apply completes_update_button_leds
  | |- completes (bind (chain_by_position _) _) =>
      apply completes_checked_lookup; intros ?
  | |- completes (bind _ _) => apply completes_bind; [|intros ?]
  | |- completes (if ?b then _ else _) => destruct b
  | |- completes (match ?x with _ => _ end) => destruct x
  end.

Lemma mk4_control_change_completes now chan ccnum ccval :
  completes (Mk4.control_change now chan ccnum ccval).
Proof.
  unfold Mk4.control_change, Mk4.knob, Mk4.bank_button, Mk4.hold_button,
    Mk4.mixer_knob, Mk4.zynpot_knob.
  cbv zeta. repeat completes_step.
Qed.

Lemma mini_browse_presets_completes ccval :
  completes (Mini.browse_presets ccval).
Proof.
  unfold Mini.browse_presets. cbv zeta.
  destruct (negb (Mini.relative_direction ccval =? 0));
    [|apply completes_ret].
  apply completes_try_except; [|intros _; apply completes_emit].
  intros w Hw. unfold bind at 1, get.
  destruct (get_active_chain (chain_manager w)) as [| |c]; try done.
  destruct (current_processor c) as [| |p]; try done.
  destruct (preset_list p) as [| |[|x l]]; try done.
  unfold bind, emit, modify, raise.
  by destruct (set_preset_raises p).
Qed.

Lemma mini_control_change_completes now chan ccnum ccval :
  completes (Mini.control_change now chan ccnum ccval).
Proof.
  unfold Mini.control_change, Mini.knob, Mini.bank_button, Mini.hold_button,
    Mini.mixer_knob, Mini.zynpot_knob, Mini.select_back_knob, Mini.arrow_knob.
  cbv zeta.
  repeat first [apply mini_browse_presets_completes | completes_step].
Qed.

(** ** The shape of [midi_event] by status nibble *)

Lemma mk4_midi_event_note now ev0 ev1 ev2 rest (w : world Mk4.driver) :
  is_note ev0 = true →
  Mk4.midi_event now (ev0 :: ev1 :: ev2 :: rest) w
  = if is_pad (data7 ev1) then
      (run pad_note 5 10 (evtype ev0) (data7 ev1) (data7 ev2); ret true) w
    else (Ok true, with_out (out w ++ [write_zynmidi (ev0 :: ev1 :: ev2 :: rest)]) w).
Proof.
  unfold is_note, is_pad, evtype, data7. intros Hty.
  unfold Mk4.midi_event, getitem, bind at 1 2 3, ret at 1 2 3. simpl.
  rewrite Hty. by destruct ((96 <=? Z.land ev1 127) && (Z.land ev1 127 <=? 119)).
Qed.

Lemma mini_midi_event_note now ev0 ev1 ev2 rest (w : world Mini.driver) :
  is_note ev0 = true →
  Mini.midi_event now (ev0 :: ev1 :: ev2 :: rest) w
  = if is_pad (data7 ev1) then
      (run pad_note 14 118 (evtype ev0) (data7 ev1) (data7 ev2); ret true) w
    else (Ok true, with_out (out w ++ [write_zynmidi (ev0 :: ev1 :: ev2 :: rest)]) w).
Proof.
  unfold is_note, is_pad, evtype, data7. intros Hty.
  unfold Mini.midi_event, getitem, bind at 1 2 3, ret at 1 2 3. simpl.
  rewrite Hty. by destruct ((96 <=? Z.land ev1 127) && (Z.land ev1 127 <=? 119)).
Qed.

Lemma mk4_midi_event_other now ev0 rest (w : world Mk4.driver) :
  is_note ev0 = false → evtype ev0 ≠ 0xB →
  Mk4.midi_event now (ev0 :: rest) w
  = if evtype ev0 =? 0xC then
      match rest with
      | ev1 :: _ =>
          (Ok true, with_out (out w ++ [select_bank (data7 ev1 + 1)]) w)
      | [] => (Raise IndexError, w)
      end
    else (Ok false, w).
Proof.
  unfold is_note, evtype, data7. intros Hty HB. apply Z.eqb_neq in HB.
  unfold Mk4.midi_event, getitem, bind at 1, ret at 1. simpl.
  rewrite Hty, HB. destruct (_ =? 12); [|done]. by destruct rest.
Qed.

Lemma mini_midi_event_other now ev0 rest (w : world Mini.driver) :
  is_note ev0 = false → evtype ev0 ≠ 0xB →
  Mini.midi_event now (ev0 :: rest) w
  = if evtype ev0 =? 0xC then
      match rest with
      | ev1 :: _ =>
          (Ok true, with_out (out w ++ [select_bank (data7 ev1 + 1)]) w)
      | [] => (Raise IndexError, w)
      end
    else (Ok false, w).
Proof.
  unfold is_note, evtype, data7. intros Hty HB. apply Z.eqb_neq in HB.
  unfold Mini.midi_event, getitem, bind at 1, ret at 1. simpl.
  rewrite Hty, HB. destruct (_ =? 12); [|done]. by destruct rest.
Qed.

(** With fewer bytes than it indexes, [midi_event] raises [IndexError]
    before it does anything. *)
Lemma mk4_midi_event_short now ev (w : world Mk4.driver) :
  match ev with
  | [] => True
  | ev0 :: _ => (length ev < bytes_read ev0)%nat
  end →
  Mk4.midi_event now ev w = (Raise IndexError, w).
Proof.
  destruct ev as [|ev0 rest]; [done|]. unfold bytes_read, is_note, evtype.
  unfold Mk4.midi_event, getitem, bind at 1, ret at 1. simpl.
  set (ty := Z.land (ev0 ≫ 4) 15).
  destruct ((ty =? 9) || (ty =? 8)); simpl.
  - destruct rest as [|ev1 [|ev2 rest]]; simpl; [done|done|lia].
  - destruct (ty =? 11); simpl.
    + destruct rest as [|ev1 [|ev2 rest]]; simpl; [done|done|lia].
    + destruct (ty =? 12); simpl; [|lia].
      destruct rest as [|ev1 rest]; simpl; [done|lia].
Qed.

Lemma mini_midi_event_short now ev (w : world Mini.driver) :
  match ev with
  | [] => True
  | ev0 :: _ => (length ev < bytes_read ev0)%nat
  end →
  Mini.midi_event now ev w = (Raise IndexError, w).
Proof.
  destruct ev as [|ev0 rest]; [done|]. unfold bytes_read, is_note, evtype.
  unfold Mini.midi_event, getitem, bind at 1, ret at 1. simpl.
  set (ty := Z.land (ev0 ≫ 4) 15).
  destruct ((ty =? 9) || (ty =? 8)); simpl.
  - destruct rest as [|ev1 [|ev2 rest]]; simpl; [done|done|lia].
  - destruct (ty =? 11); simpl.
    + destruct rest as [|ev1 [|ev2 rest]]; simpl; [done|done|lia].
    + destruct (ty =? 12); simpl; [|lia].
      destruct rest as [|ev1 rest]; simpl; [done|lia].
Qed.

(** ** Malformed input *)

Lemma not_enough_bytes ev :
  ¬ enough_bytes ev →
  match ev with
  | [] => True
  | ev0 :: _ => (length ev < bytes_read ev0)%nat
  end.
Proof. destruct ev as [|ev0 rest]; [done|]. unfold enough_bytes. lia. Qed.

Lemma enough_bytes_inv ev :
  enough_bytes ev →
  ∃ ev0 rest, ev = ev0 :: rest ∧
    if is_note ev0 || (evtype ev0 =? 0xB) then
      ∃ ev1 ev2 rest', rest = ev1 :: ev2 :: rest'
    else if evtype ev0 =? 0xC then ∃ ev1 rest', rest = ev1 :: rest'
    else True.
Proof.
  destruct ev as [|ev0 rest]; [done|]. unfold enough_bytes, bytes_read.
  intros H. exists ev0, rest. split; [done|].
  destruct (is_note ev0 || (evtype ev0 =? 11)).
  - destruct rest as [|ev1 [|ev2 rest']]; simpl in H; try lia. by eauto.
  - destruct (evtype ev0 =? 12); [|done].
    destruct rest as [|ev1 rest']; simpl in H; try lia. by eauto.
Qed.

Lemma mk4_midi_event_completes now ev :
  enough_bytes ev → completes (Mk4.midi_event now ev).
Proof.
  intros (ev0 & rest & -> & Hrest)%enough_bytes_inv w Hw.
  destruct (is_note ev0) eqn:Hnote; simpl in Hrest.
  - destruct Hrest as (ev1 & ev2 & rest' & ->).
    rewrite mk4_midi_event_note by done. destruct (is_pad (data7 ev1)).
    + revert w Hw. apply completes_bind; [apply completes_pad_note|].
      intros _. apply completes_ret.
    + by eauto.
  - destruct (Z.eqb_spec (evtype ev0) 11) as [HB|HB].
    + destruct Hrest as (ev1 & ev2 & rest' & ->).
      rewrite mk4_midi_event_cc by done.
      by apply mk4_control_change_completes.
    + rewrite mk4_midi_event_other by done.
      destruct (evtype ev0 =? 12); [|by eauto].
      destruct Hrest as (ev1 & rest' & ->). by eauto.
Qed.

Lemma mini_midi_event_completes now ev :
  enough_bytes ev → completes (Mini.midi_event now ev).
Proof.
  intros (ev0 & rest & -> & Hrest)%enough_bytes_inv w Hw.
  destruct (is_note ev0) eqn:Hnote; simpl in Hrest.
  - destruct Hrest as (ev1 & ev2 & rest' & ->).
    rewrite mini_midi_event_note by done. destruct (is_pad (data7 ev1)).
    + revert w Hw. apply completes_bind; [apply completes_pad_note|].
      intros _. apply completes_ret.
    + by eauto.
  - destruct (Z.eqb_spec (evtype ev0) 11) as [HB|HB].
    + destruct Hrest as (ev1 & ev2 & rest' & ->).
      rewrite mini_midi_event_cc by done.
      by apply mini_control_change_completes.
    + rewrite mini_midi_event_other by done.
      destruct (evtype ev0 =? 12); [|by eauto].
      destruct Hrest as (ev1 & rest' & ->). by eauto.
Qed.

(** C7, as stated, fails on a truncated message: a note-on of two bytes makes
    both drivers raise [IndexError] at [ev[2]], on a host that answers every
    lookup. *)
Lemma truncated_note_on_raises :
  host_answers (example_world Mini.init)
  ∧ Mini.midi_event 0 [0x90; 60] (example_world Mini.init)
    = (Raise IndexError, example_world Mini.init)
  ∧ Mk4.midi_event 0 [0x90; 60] (example_world Mk4.init)
    = (Raise IndexError, example_world Mk4.init)
  ∧ Mini.midi_event 0 [] (example_world Mini.init)
    = (Raise IndexError, example_world Mini.init).
Proof.
  split; [|by repeat split].
  split; [done|]. split; [done|]. intros i. simpl.
  by destruct (i =? 0).
Qed.

(** C7 (amended).  On a host that answers its lookups, [midi_event] returns
    without an exception on every message that has the bytes it indexes:
    three for note-on, note-off and control change, two for program change,
    one for any other status byte, whatever the values of those bytes.  On a
    shorter message, the empty one included, it raises [IndexError] and does
    nothing else.  A message whose status nibble is none of 8, 9, 0xB, 0xC,
    and a control change that no branch takes with controller number and
    value both nonzero, are reported not handled and change nothing. *)
Theorem midi_event_raises_only_when_truncated now (ev : list Z) :
  (∀ w : world Mk4.driver,
      (enough_bytes ev → host_answers w →
       ∃ handled w', Mk4.midi_event now ev w = (Ok handled, w'))
      ∧ (¬ enough_bytes ev → Mk4.midi_event now ev w = (Raise IndexError, w))
      ∧ (∀ ev0 rest, ev = ev0 :: rest →
         is_note ev0 = false → evtype ev0 ≠ 0xB → evtype ev0 ≠ 0xC →
         Mk4.midi_event now ev w = (Ok false, w))
      ∧ (∀ ev0 ev1 ev2 rest, ev = ev0 :: ev1 :: ev2 :: rest →
         evtype ev0 = 0xB →
         mk4_earlier_handler (data7 ev1) (data7 ev2) = false →
         data7 ev1 ≠ 0 → data7 ev2 ≠ 0 →
         Mk4.midi_event now ev w = (Ok false, w)))
  ∧ (∀ w : world Mini.driver,
      (enough_bytes ev → host_answers w →
       ∃ handled w', Mini.midi_event now ev w = (Ok handled, w'))
      ∧ (¬ enough_bytes ev → Mini.midi_event now ev w = (Raise IndexError, w))
      ∧ (∀ ev0 rest, ev = ev0 :: rest →
         is_note ev0 = false → evtype ev0 ≠ 0xB → evtype ev0 ≠ 0xC →
         Mini.midi_event now ev w = (Ok false, w))
      ∧ (∀ ev0 ev1 ev2 rest, ev = ev0 :: ev1 :: ev2 :: rest →
         evtype ev0 = 0xB →
         mini_earlier_handler (data7 ev1) (data7 ev2) = false →
         data7 ev1 ≠ 0 → data7 ev2 ≠ 0 →
         Mini.midi_event now ev w = (Ok false, w))).
Proof.
  split; intros w; (split; [|split; [|split]]).
  - intros Hev Hw.
    destruct (mk4_midi_event_completes now ev Hev w Hw) as (b & w' & -> & _).
    by eauto.
  - intros Hev. by apply mk4_midi_event_short, not_enough_bytes.
  - intros ev0 rest -> Hnote HB HC. rewrite mk4_midi_event_other by done.
    apply Z.eqb_neq in HC. by rewrite HC.
  - intros ev0 ev1 ev2 rest -> HB Hno H1 H2. rewrite mk4_midi_event_cc by done.
    rewrite mk4_control_change_unmatched by done.
    apply Z.eqb_neq in H1, H2. by rewrite H1, H2.
  - intros Hev Hw.
    destruct (mini_midi_event_completes now ev Hev w Hw) as (b & w' & -> & _).
    by eauto.
  - intros Hev. by apply mini_midi_event_short, not_enough_bytes.
  - intros ev0 rest -> Hnote HB HC. rewrite mini_midi_event_other by done.
    apply Z.eqb_neq in HC. by rewrite HC.
  - intros ev0 ev1 ev2 rest -> HB Hno H1 H2. rewrite mini_midi_event_cc by done.
    rewrite mini_control_change_unmatched by done.
    apply Z.eqb_neq in H1, H2. by rewrite H1, H2.
Qed.

Lemma midi_event_raises_only_when_truncated_witness :
  enough_bytes [0xE0; 0; 64]
  ∧ host_answers (example_world Mk4.init)
  ∧ (∃ handled w',
        Mk4.midi_event 0 [0xE0; 0; 64] (example_world Mk4.init)
        = (Ok handled, w'))
  ∧ Mk4.midi_event 0 [0xE0; 0; 64] (example_world Mk4.init)
    = (Ok false, example_world Mk4.init).
Proof.
  assert (Hev : enough_bytes [0xE0; 0; 64]) by (vm_compute; lia).
  assert (Hw : host_answers (example_world Mk4.init)).
  { split; [done|]. split; [done|]. intros i. simpl. by destruct (i =? 0). }
  split; [exact Hev|]. split; [exact Hw|].
  pose proof (proj1 (midi_event_raises_only_when_truncated 0 [0xE0; 0; 64])
                (example_world Mk4.init)) as (Hok & _ & Hother & _).
  split; [exact (Hok Hev Hw)|].
  apply (Hother 0xE0 [0; 64]); [reflexivity | reflexivity | done | done].
Defined.

(** ** Note events *)

Section NoForward.
Context {D : Type}.
Implicit Types w : world D.

Lemma no_forward_silent {A} (m : M (world D) A) :
  (∀ w, out (snd (m w)) = out w) → no_forward (D:=D) m.
Proof. intros H w. exists []. by rewrite H, app_nil_r. Qed.

Lemma no_forward_bind {A B} (m : M (world D) A) (k : A → M (world D) B) :
  no_forward (D:=D) m → (∀ a, no_forward (D:=D) (k a)) → no_forward (D:=D) (bind m k).
Proof.
  intros Hm Hk w. destruct (Hm w) as (es1 & Hout1 & Hes1). unfold bind.
  destruct (m w) as [[a|e] w1]; simpl in Hout1.
  - destruct (Hk a w1) as (es2 & Hout2 & Hes2). exists (es1 ++ es2).
    rewrite Hout2, Hout1, app_assoc. split; [done|]. by apply Forall_app.
  - by exists es1.
Qed.

Lemma no_forward_emit e :
  is_forward e = false → no_forward (D:=D) (emit e).
Proof. intros He w. exists [e]. split; [done|]. by apply Forall_singleton. Qed.

Lemma no_forward_if {A} (b : bool) (m1 m2 : M (world D) A) :
  no_forward (D:=D) m1 → no_forward (D:=D) m2 → no_forward (D:=D) (if b then m1 else m2).
Proof. by destruct b. Qed.

Lemma no_forward_chain_by_position i :
  no_forward (D:=D) (chain_by_position i).
Proof.
  apply no_forward_silent. intros w. unfold chain_by_position, bind, get.
  destruct (has_chain_manager w); [|done].
  by destruct (get_chain_by_position (chain_manager w) i).
Qed.

Lemma no_forward_checked_mixer_chan c :
  no_forward (D:=D) (checked_mixer_chan c).
Proof.
  apply no_forward_silent. intros w. destruct c as [c|]; [|done].
  unfold checked_mixer_chan. by destruct (mixer_chan c).
Qed.

Lemma no_forward_the_zynmixer : no_forward (D:=D) the_zynmixer.
Proof.
  apply no_forward_silent. intros w. unfold the_zynmixer, bind, get.
  by destruct (has_zynmixer w).
Qed.

Lemma no_forward_with_zynmixer m :
  no_forward (D:=D) (modify (with_zynmixer m)).
Proof. by apply no_forward_silent. Qed.

Lemma no_forward_pad_led_writes on off w :
  Forall (λ e, is_forward e = false) (pad_led_writes on off w).
Proof.
  unfold pad_led_writes. destruct (idev_out w); [|done].
  destruct (_ || _); [done|].
  apply Forall_app; split; by apply Forall_fmap, Forall_true.
Qed.

Lemma no_forward_update_pad_leds on off :
  no_forward (D:=D) (update_pad_leds on off).
Proof.
  intros w. rewrite update_pad_leds_run. eexists. split; [done|].
  apply no_forward_pad_led_writes.
Qed.

Lemma no_forward_pad_note on off ty note vel :
  no_forward (D:=D) (pad_note on off ty note vel).
Proof.
  unfold pad_note, mixer_set_solo, mixer_set_mute.
  repeat first
    [ apply no_forward_if
    | apply no_forward_chain_by_position
    | apply no_forward_checked_mixer_chan
    | apply no_forward_the_zynmixer
    | apply no_forward_with_zynmixer
    | apply no_forward_update_pad_leds
    | by apply no_forward_emit
    | by apply no_forward_silent
    | apply no_forward_bind; [|intros ?]
    | match goal with
      | |- no_forward (match ?x with _ => _ end) => destruct x
      end ].
Qed.
End NoForward.

Lemma pad_note_event {D} on off ty note vel (w : world D) :
  let r := (run pad_note on off ty note vel; ret true) w in
  (∃ es, out (snd r) = out w ++ es ∧ Forall (λ e, is_forward e = false) es)
  ∧ fst r ≠ Ok false
  ∧ (host_answers w → fst r = Ok true).
Proof.
  intros r. subst r. split; [|split].
  - apply no_forward_bind; [apply no_forward_pad_note|].
    intros _. by apply no_forward_silent.
  - unfold bind. by destruct (pad_note on off ty note vel w) as [[[]|e] w1].
  - intros Hw.
    destruct (completes_pad_note on off ty note vel w Hw) as ([] & w1 & Hrun & _).
    unfold bind. by rewrite Hrun.
Qed.

Lemma is_pad_true note : 96 ≤ note ≤ 119 → is_pad note = true.
Proof. unfold is_pad. intros [??]. apply andb_true_intro. split; lia. Qed.

Lemma is_pad_false note : note < 96 ∨ 119 < note → is_pad note = false.
Proof. unfold is_pad. intros [?|?]; apply andb_false_iff; [left|right]; lia. Qed.

(** C8, as stated, fails on its second half for keyboard notes: note-on 60 is
    forwarded unmodified, and [midi_event] reports it handled. *)
Lemma keyboard_note_is_reported_handled :
  Mini.midi_event 0 [0x90; 60; 100] (example_world Mini.init)
  = (Ok true,
     with_out [write_zynmidi [0x90; 60; 100]] (example_world Mini.init))
  ∧ Mk4.midi_event 0 [0x90; 60; 100] (example_world Mk4.init)
    = (Ok true,
       with_out [write_zynmidi [0x90; 60; 100]] (example_world Mk4.init))
  ∧ fst (Mini.midi_event 0 [0x90; 60; 100] (example_world Mini.init))
    ≠ Ok false.
Proof. by repeat split. Qed.

(** C8 (amended).  A note-on or note-off whose note number is outside
    [96,119] is forwarded as received, by one [write_zynmidi] call on the
    event itself, and is reported handled; nothing else changes.  A note
    event with note number in [96,119] is never forwarded: no call the
    driver makes while handling it is [write_zynmidi]; it is never reported
    not handled, and on a host that answers its lookups it is reported
    handled. *)
Theorem note_events now ev0 ev1 ev2 rest :
  is_note ev0 = true →
  let ev := ev0 :: ev1 :: ev2 :: rest in
  (data7 ev1 < 96 ∨ 119 < data7 ev1 →
   (∀ w : world Mk4.driver,
       Mk4.midi_event now ev w
       = (Ok true, with_out (out w ++ [write_zynmidi ev]) w))
   ∧ (∀ w : world Mini.driver,
       Mini.midi_event now ev w
       = (Ok true, with_out (out w ++ [write_zynmidi ev]) w)))
  ∧ (96 ≤ data7 ev1 ≤ 119 →
     (∀ w : world Mk4.driver,
         (∃ es, out (snd (Mk4.midi_event now ev w)) = out w ++ es
                ∧ Forall (λ e, is_forward e = false) es)
         ∧ fst (Mk4.midi_event now ev w) ≠ Ok false
         ∧ (host_answers w → fst (Mk4.midi_event now ev w) = Ok true))
     ∧ (∀ w : world Mini.driver,
         (∃ es, out (snd (Mini.midi_event now ev w)) = out w ++ es
                ∧ Forall (λ e, is_forward e = false) es)
         ∧ fst (Mini.midi_event now ev w) ≠ Ok false
         ∧ (host_answers w → fst (Mini.midi_event now ev w) = Ok true))).
Proof.
  intros Hnote ev. subst ev. split.
  - intros Hout%is_pad_false. split; intros w.
    + by rewrite mk4_midi_event_note, Hout.
    + by rewrite mini_midi_event_note, Hout.
  - intros Hin%is_pad_true. split; intros w.
    + rewrite mk4_midi_event_note, Hin by done. apply pad_note_event.
    + rewrite mini_midi_event_note, Hin by done. apply pad_note_event.
Qed.

Lemma note_events_witness :
  is_note 0x80 = true
  ∧ (data7 200 < 96 ∨ 119 < data7 200)
  ∧ ∀ w : world Mk4.driver,
      Mk4.midi_event 0 [0x80; 200; 0] w
      = (Ok true, with_out (out w ++ [write_zynmidi [0x80; 200; 0]]) w).
Proof.
  assert (Hout : data7 200 < 96 ∨ 119 < data7 200) by (left; reflexivity).
  split; [reflexivity|]. split; [exact Hout|].
  exact (proj1 (proj1 (note_events 0 0x80 200 0 [] eq_refl) Hout)).
Defined.

(** ** Relative (transport-mode) decoding *)

Lemma data7_range (b : Z) : 0 ≤ data7 b < 128.
Proof.
  unfold data7. change 127 with (Z.ones 7). rewrite Z.land_ones by lia.
  apply Z.mod_pos_bound. lia.
Qed.

Lemma relative_delta_cases (v : Z) :
  (2 ≤ v ≤ 63 → Mini.relative_delta v = - (64 - v))
  ∧ (v = 1 → Mini.relative_delta v = -1)
  ∧ (65 ≤ v ≤ 126 → Mini.relative_delta v = v - 64)
  ∧ (v = 127 → Mini.relative_delta v = 1)
  ∧ (v = 64 → Mini.relative_delta v = 0).
Proof.
  unfold Mini.relative_delta.
  repeat split; intros H;
    repeat match goal with
      | |- context [?a =? ?b] => destruct (Z.eqb_spec a b)
      | |- context [?a <? ?b] => destruct (Z.ltb_spec a b)
      end; simpl; lia.
Qed.

Lemma the_zynmixer_run {D} (w : world D) :
  has_zynmixer w = true → the_zynmixer w = (Ok (zynmixer w), w).
Proof. unfold the_zynmixer, bind, get. by intros ->. Qed.

Lemma mixer_set_level_run {D} ch level (w : world D) :
  has_zynmixer w = true →
  mixer_set_level ch level w
  = (Ok tt,
     with_out (out w ++ [set_level ch level])
       (with_zynmixer (set_level_in ch level (zynmixer w)) w)).
Proof.
  intros Hzm. unfold mixer_set_level, bind. by rewrite the_zynmixer_run.
Qed.

Lemma checked_lookup_run {D A} i c ch (k : option Z → M (world D) A)
    (w : world D) :
  has_chain_manager w = true →
  get_chain_by_position (chain_manager w) i = Found c →
  mixer_chan c = Val ch → ch < 17 →
  (do chain <- chain_by_position i;
   do mc <- checked_mixer_chan chain; k mc) w
  = k (Some ch) w.
Proof.
  intros Hcm Hchain Hchan Hch%Z.ltb_lt.
  unfold bind at 1, chain_by_position, bind at 1, get. rewrite Hcm, Hchain.
  unfold ret at 1, bind at 1, checked_mixer_chan. by rewrite Hchan, Hch.
Qed.

Lemma mini_knob_event now ev0 ev1 ev2 rest (w : world Mini.driver) :
  evtype ev0 = 0xB → 85 ≤ data7 ev1 ≤ 92 →
  Mini.midi_event now (ev0 :: ev1 :: ev2 :: rest) w
  = Mini.knob now (ev_chan ev0) (data7 ev1) (data7 ev2) w.
Proof.
  intros Hty Hcc. rewrite mini_midi_event_cc by done.
  unfold Mini.control_change.
  repeat match goal with
    | |- context [?a =? ?b] => destruct (Z.eqb_spec a b); [lia|]
    end.
  simpl.
  destruct (Z.ltb_spec 84 (data7 ev1)); [|lia].
  destruct (Z.ltb_spec (data7 ev1) 93); [|lia]. done.
Qed.

Lemma mini_zynpot_event now ev0 ev1 ev2 rest (w : world Mini.driver) :
  evtype ev0 = 0xB → Mini.knob_bank (self w) = 1 → 85 ≤ data7 ev1 ≤ 88 →
  Mini.midi_event now (ev0 :: ev1 :: ev2 :: rest) w
  = (Ok true,
     with_out (out w ++ mini_zynpot_calls (data7 ev1) (data7 ev2)) w).
Proof.
  intros Hty Hbank Hcc. rewrite mini_knob_event by (done || lia).
  unfold Mini.knob, bind at 1, get_self, bind at 1, get, ret at 1.
  rewrite Hbank. simpl.
  destruct (Z.ltb_spec 84 (data7 ev1)); [|lia].
  destruct (Z.ltb_spec (data7 ev1) 89); [|lia]. simpl.
  unfold Mini.zynpot_knob, mini_zynpot_calls, bind.
  destruct (Mini.relative_delta (data7 ev2) =? 0); simpl; [|done].
  by rewrite with_out_nil.
Qed.

Lemma mini_mixer_event now ev0 ev1 ev2 rest (w : world Mini.driver) c ch :
  evtype ev0 = 0xB → Mini.knob_bank (self w) = 0 → 85 ≤ data7 ev1 ≤ 92 →
  has_chain_manager w = true → has_zynmixer w = true →
  get_chain_by_position (chain_manager w) (data7 ev1 - 84 - 1) = Found c →
  mixer_chan c = Val ch → ch < 17 →
  Mini.midi_event now (ev0 :: ev1 :: ev2 :: rest) w
  = (Ok true,
     if Mini.relative_delta (data7 ev2) =? 0 then w
     else
       let level := mini_nudged_level (get_level (zynmixer w) ch) (data7 ev2) in
       with_out (out w ++ [set_level ch level])
         (with_zynmixer (set_level_in ch level (zynmixer w)) w)).
Proof.
  intros Hty Hbank Hcc Hcm Hzm Hchain Hchan Hch.
  rewrite mini_knob_event by done.
  unfold Mini.knob, bind at 1, get_self, bind at 1, get, ret at 1.
  rewrite Hbank. simpl.
  unfold Mini.mixer_knob, bind at 1 2, chain_by_position, bind at 1, get.
  rewrite Hcm, Hchain. unfold ret at 1. unfold bind at 1, checked_mixer_chan.
  rewrite Hchan. apply Z.ltb_lt in Hch. rewrite Hch. unfold ret at 1.
  destruct (Mini.relative_delta (data7 ev2) =? 0); simpl; [reflexivity|].
  unfold bind. rewrite the_zynmixer_run, mixer_set_level_run by done.
  reflexivity.
Qed.

(** C1, as stated, fails at the two ends of the range: raw value 1 decodes
    to delta -1, not -(64 - 1), and raw value 127 to +1, not 127 - 64; a
    bank-1 ZYNPOT knob turned with value 1 sends [ZYNPOT [0, -1]]. *)
Lemma end_values_are_unit_steps :
  Mini.midi_event 0 [0xB0; 85; 1] (example_world Mini.init)
  = (Ok true,
     with_out [send_cuia "ZYNPOT" (Some [PInt 0; PInt (-1)])]
       (example_world Mini.init))
  ∧ Mini.relative_delta 1 ≠ - (64 - 1)
  ∧ Mini.midi_event 0 [0xB0; 85; 127] (example_world Mini.init)
    = (Ok true,
       with_out [send_cuia "ZYNPOT" (Some [PInt 0; PInt 1])]
         (example_world Mini.init))
  ∧ Mini.relative_delta 127 ≠ 127 - 64.
Proof. by repeat split. Qed.

(** C1 (amended).  In the transport driver a raw value [v] in [2,63]
    decodes to the negative delta [-(64 - v)], a value in [65,126] to the
    positive delta [v - 64], the end values 1 and 127 to the unit steps -1
    and +1, and 64 to zero.  A bank-1 ZYNPOT knob (CC 85..88) sends
    [ZYNPOT [ccnum - 85, delta]] when the delta is nonzero and nothing
    otherwise; a bank-0 mixer knob (CC 85..92) on a valid chain sets the level
    to [current + delta * 0.01] clamped to [0.0, 1.0] when the delta is
    nonzero and does nothing otherwise.  Either way the event is handled. *)
Theorem relative_decode now ev0 ev1 ev2 rest (w : world Mini.driver) :
  evtype ev0 = 0xB →
  let ccnum := data7 ev1 in
  let v := data7 ev2 in
  ((2 ≤ v ≤ 63 → Mini.relative_delta v = - (64 - v))
   ∧ (v = 1 → Mini.relative_delta v = -1)
   ∧ (65 ≤ v ≤ 126 → Mini.relative_delta v = v - 64)
   ∧ (v = 127 → Mini.relative_delta v = 1)
   ∧ (v = 64 → Mini.relative_delta v = 0))
  ∧ (Mini.knob_bank (self w) = 1 → 85 ≤ ccnum ≤ 88 →
     Mini.midi_event now (ev0 :: ev1 :: ev2 :: rest) w
     = (Ok true,
        with_out
          (out w ++
           if Mini.relative_delta v =? 0 then []
           else [send_cuia "ZYNPOT"
                   (Some [PInt (ccnum - 85); PInt (Mini.relative_delta v)])])
          w))
  ∧ (∀ c ch,
      Mini.knob_bank (self w) = 0 → 85 ≤ ccnum ≤ 92 →
      has_chain_manager w = true → has_zynmixer w = true →
      get_chain_by_position (chain_manager w) (ccnum - 84 - 1) = Found c →
      mixer_chan c = Val ch → ch < 17 →
      Mini.midi_event now (ev0 :: ev1 :: ev2 :: rest) w
      = (Ok true,
         if Mini.relative_delta v =? 0 then w
         else
           let level :=
             py_max 0
               (py_min 1
                  (PrimFloat.add (get_level (zynmixer w) ch)
                     (PrimFloat.mul (float_of_int (Mini.relative_delta v))
                                    0.01))) in
           with_out (out w ++ [set_level ch level])
             (with_zynmixer (set_level_in ch level (zynmixer w)) w))).
Proof.
  intros Hty ccnum v. split; [apply relative_delta_cases|]. split.
  - intros Hbank Hcc. by apply mini_zynpot_event.
  - intros c ch Hbank Hcc Hcm Hzm Hchain Hchan Hch.
    by apply (mini_mixer_event _ _ _ _ _ _ c ch).
Qed.

Lemma relative_decode_witness :
  evtype 0xB0 = 0xB
  ∧ Mini.relative_delta (data7 60) = -4
  ∧ Mini.midi_event 0 [0xB0; 86; 60] (example_world Mini.init)
    = (Ok true,
       with_out [send_cuia "ZYNPOT" (Some [PInt 1; PInt (-4)])]
         (example_world Mini.init))
  ∧ out (snd (Mini.midi_event 0 [0xB0; 85; 66]
                (example_world (Mini.Driver false ∅ 0 0))))
    = [set_level 0 0.52000000000000002].
Proof.
  pose proof (relative_decode 0 0xB0 86 60 [] (example_world Mini.init)
                eq_refl) as (Hdecode & Hzynpot & _).
  pose proof (relative_decode 0 0xB0 85 66 []
                (example_world (Mini.Driver false ∅ 0 0)) eq_refl)
    as (_ & _ & Hmixer).
  split; [reflexivity|]. split; [|split].
  - apply (proj1 Hdecode). vm_compute. split; discriminate.
  - rewrite Hzynpot; [reflexivity | reflexivity | vm_compute; split; discriminate].
  - rewrite (Hmixer (Chain (Val 0) PyNone) 0);
      [vm_compute; reflexivity | reflexivity
      | vm_compute; split; discriminate | reflexivity..].
Defined.

(** ** Relative-by-difference decoding *)

Lemma wrap_delta_formula (a b : Z) :
  0 ≤ a < 128 → 0 ≤ b < 128 → b - a ≠ 64 →
  Mk4.wrap_delta (b - a) = (b - a + 64) `mod` 128 - 64.
Proof.
  intros Ha Hb Hne. unfold Mk4.wrap_delta.
  destruct (Z.ltb_spec 64 (b - a)); [|destruct (Z.ltb_spec (b - a) (-64))].
  - replace (b - a + 64) with (b - a - 64 + 1 * 128) by lia.
    rewrite Z.mod_add, Z.mod_small by lia. lia.
  - replace (b - a + 64) with (b - a + 192 + (-1) * 128) by lia.
    rewrite Z.mod_add, Z.mod_small by lia. lia.
  - rewrite Z.mod_small by lia. lia.
Qed.

Lemma wrap_delta_zero (a b : Z) :
  0 ≤ a < 128 → 0 ≤ b < 128 → Mk4.wrap_delta (b - a) = 0 → b = a.
Proof.
  intros Ha Hb. unfold Mk4.wrap_delta.
  destruct (Z.ltb_spec 64 (b - a)); [|destruct (Z.ltb_spec (b - a) (-64))];
    lia.
Qed.

Lemma mk4_knob_event now ev0 ev1 ev2 rest (w : world Mk4.driver) :
  evtype ev0 = 0xB → 21 ≤ data7 ev1 ≤ 28 →
  Mk4.midi_event now (ev0 :: ev1 :: ev2 :: rest) w
  = Mk4.knob (ev_chan ev0) (data7 ev1) (data7 ev2) w.
Proof.
  intros Hty Hcc. rewrite mk4_midi_event_cc by done.
  unfold Mk4.control_change.
  repeat match goal with
    | |- context [?a =? ?b] => destruct (Z.eqb_spec a b); [lia|]
    end.
  simpl.
  destruct (Z.ltb_spec 20 (data7 ev1)); [|lia].
  destruct (Z.ltb_spec (data7 ev1) 29); [|lia]. done.
Qed.

Lemma mk4_zynpot_event now ev0 ev1 ev2 rest (w : world Mk4.driver) :
  evtype ev0 = 0xB → Mk4.knob_bank (self w) = 1 → 21 ≤ data7 ev1 ≤ 24 →
  Mk4.midi_event now (ev0 :: ev1 :: ev2 :: rest) w
  = (Ok true, snd (Mk4.zynpot_knob (data7 ev1) (data7 ev2) w)).
Proof.
  intros Hty Hbank Hcc. rewrite mk4_knob_event by (done || lia).
  unfold Mk4.knob, bind at 1, get_self, bind at 1, get, ret at 1.
  rewrite Hbank. simpl.
  destruct (Z.ltb_spec 20 (data7 ev1)); [|lia].
  destruct (Z.ltb_spec (data7 ev1) 25); [|lia]. simpl.
  unfold bind, Mk4.zynpot_knob, get_self, bind, get, ret.
  destruct (Mk4.last_zynpot_values (self w) !! data7 ev1) as [a|]; [|done].
  by destruct (negb (Mk4.wrap_delta (data7 ev2 - a) =? 0)).
Qed.

(** C2, as stated, fails when the raw value rises by exactly 64: with 0
    recorded for knob CC 21, value 64 sends [ZYNPOT [0, 64]], where
    [((b - a + 64) mod 128) - 64] is -64. *)
Lemma rise_of_64_is_positive :
  Mk4.midi_event 0 [0xB0; 21; 64]
    (example_world (Mk4.Driver false ∅ 1 ∅ {[21 := 0]}))
  = (Ok true,
     with_out [send_cuia "ZYNPOT" (Some [PInt 0; PInt 64])]
       (example_world (Mk4.Driver false ∅ 1 ∅ {[21 := 64]})))
  ∧ (64 - 0 + 64) `mod` 128 - 64 = -64.
Proof. split; [vm_compute; reflexivity | reflexivity]. Qed.

(** C2 (amended).  In the pickup driver, in bank 1, a ZYNPOT knob (CC 21..24)
    whose last raw value [a] is recorded and that now reports [b] has delta
    [((b - a + 64) mod 128) - 64] when [b - a] is not 64, and +64 when it is;
    so 0 then 127 gives -1 and 127 then 0 gives +1.  A nonzero delta is sent
    as [ZYNPOT [ccnum - 21, delta]] and [b] is recorded; a zero delta, which
    means [b = a], sends and changes nothing.  A knob with no recorded value
    only records [b] and sends nothing.  Either way the event is handled. *)
Theorem difference_decode now ev0 ev1 ev2 rest (w : world Mk4.driver) :
  evtype ev0 = 0xB → Mk4.knob_bank (self w) = 1 → 21 ≤ data7 ev1 ≤ 24 →
  let ccnum := data7 ev1 in
  let b := data7 ev2 in
  let recorded :=
    with_self (Mk4.set_last_zynpot_values
                 (<[ccnum := b]> (Mk4.last_zynpot_values (self w))) (self w)) in
  (Mk4.last_zynpot_values (self w) !! ccnum = None →
   Mk4.midi_event now (ev0 :: ev1 :: ev2 :: rest) w = (Ok true, recorded w))
  ∧ (∀ a, Mk4.last_zynpot_values (self w) !! ccnum = Some a → 0 ≤ a < 128 →
          ∃ delta,
            (b - a ≠ 64 → delta = (b - a + 64) `mod` 128 - 64)
            ∧ (b - a = 64 → delta = 64)
            ∧ (delta = 0 → b = a)
            ∧ Mk4.midi_event now (ev0 :: ev1 :: ev2 :: rest) w
              = (Ok true,
                 if delta =? 0 then w
                 else
                   recorded
                     (with_out
                        (out w ++ [send_cuia "ZYNPOT"
                                     (Some [PInt (ccnum - 21); PInt delta])])
                        w)))
  ∧ Mk4.wrap_delta (127 - 0) = -1
  ∧ Mk4.wrap_delta (0 - 127) = 1.
Proof.
  intros Hty Hbank Hcc ccnum b recorded. subst ccnum b recorded.
  split; [|split; [|done]].
  - intros Hnone. rewrite mk4_zynpot_event by done.
    unfold Mk4.zynpot_knob, get_self, bind, get, ret. by rewrite Hnone.
  - intros a Hsome Ha. exists (Mk4.wrap_delta (data7 ev2 - a)).
    pose proof (data7_range ev2) as Hb.
    split; [by apply wrap_delta_formula|].
    split; [by intros ->|].
    split; [by apply wrap_delta_zero|].
    rewrite mk4_zynpot_event by done.
    unfold Mk4.zynpot_knob, get_self, bind, get, ret. rewrite Hsome.
    by destruct (Mk4.wrap_delta (data7 ev2 - a) =? 0).
Qed.

Lemma difference_decode_witness :
  let w := example_world (Mk4.Driver false ∅ 1 ∅ {[22 := 0]}) in
  evtype 0xB0 = 0xB ∧ Mk4.knob_bank (self w) = 1 ∧ 21 ≤ data7 22 ≤ 24
  ∧ ∃ delta,
      delta = -1
      ∧ Mk4.midi_event 0 [0xB0; 22; 127] w
        = (Ok true,
           if delta =? 0 then w
           else
             with_self (Mk4.Driver false ∅ 1 ∅ (<[22 := 127]> {[22 := 0]}))
               (with_out
                  [send_cuia "ZYNPOT" (Some [PInt 1; PInt delta])] w)).
Proof.
  intros w.
  assert (Hcc : 21 ≤ data7 22 ≤ 24) by (vm_compute; split; discriminate).
  split; [reflexivity|]. split; [reflexivity|]. split; [exact Hcc|].
  destruct (proj1 (proj2 (difference_decode 0 0xB0 22 127 [] w
                            eq_refl eq_refl Hcc)) 0)
    as (delta & Hformula & _ & _ & Hrun);
    [vm_compute; reflexivity | lia |].
  exists delta. split; [|exact Hrun].
  apply Hformula. discriminate.
Defined.

(** ** Soft takeover *)

Lemma mk4_mixer_event now ev0 ev1 ev2 rest (w : world Mk4.driver) c ch :
  evtype ev0 = 0xB → Mk4.knob_bank (self w) = 0 → 21 ≤ data7 ev1 ≤ 26 →
  has_chain_manager w = true → has_zynmixer w = true →
  get_chain_by_position (chain_manager w) (data7 ev1 - 20 - 1) = Found c →
  mixer_chan c = Val ch → ch < 17 →
  let ccnum := data7 ev1 in
  let new_level := knob_level (data7 ev2) in
  let applied w :=
    with_out (out w ++ [set_level ch new_level])
      (with_zynmixer (set_level_in ch new_level (zynmixer w)) w) in
  Mk4.midi_event now (ev0 :: ev1 :: ev2 :: rest) w
  = (Ok true,
     match Mk4.mixer_synced (self w) !! ccnum with
     | None =>
         if PrimFloat.ltb
              (takeover_gap (data7 ev2) (get_level (zynmixer w) ch)) 0.02
         then
           applied
             (with_self
                (Mk4.set_mixer_synced
                   (<[ccnum := true]> (Mk4.mixer_synced (self w))) (self w)) w)
         else w
     | Some _ => applied w
     end).
Proof.
  intros Hty Hbank Hcc Hcm Hzm Hchain Hchan Hch ccnum new_level applied.
  subst ccnum new_level applied.
  rewrite mk4_knob_event by (done || lia).
  unfold Mk4.knob, bind at 1, get_self, bind at 1, get, ret at 1.
  rewrite Hbank. simpl.
  destruct (Z.ltb_spec 20 (data7 ev1)); [|lia].
  destruct (Z.ltb_spec (data7 ev1) 27); [|lia]. simpl.
  unfold bind at 1, Mk4.mixer_knob.
  rewrite (checked_lookup_run _ c ch) by done.
  unfold bind at 1. rewrite the_zynmixer_run by done.
  unfold bind at 1, get_self, bind at 1, get, ret at 1.
  unfold takeover_gap, knob_level.
  destruct (Mk4.mixer_synced (self w) !! data7 ev1) as [b|].
  - by rewrite mixer_set_level_run.
  - destruct (PrimFloat.ltb _ _); [|reflexivity].
    unfold bind, set_self, modify. by rewrite mixer_set_level_run.
Qed.

(** Once a mixer knob is synced, any run of its values is applied value by
    value. *)
Lemma synced_knob_follows ev0 ev1 (moves : list (float * Z))
    (w : world Mk4.driver) c ch :
  evtype ev0 = 0xB → Mk4.knob_bank (self w) = 0 → 21 ≤ data7 ev1 ≤ 26 →
  has_chain_manager w = true → has_zynmixer w = true →
  get_chain_by_position (chain_manager w) (data7 ev1 - 20 - 1) = Found c →
  mixer_chan c = Val ch → ch < 17 →
  is_Some (Mk4.mixer_synced (self w) !! data7 ev1) →
  out (mk4_events ((λ '(now, ev2), (now, [ev0; ev1; ev2])) <$> moves) w)
  = out w ++ ((λ '(_, ev2), set_level ch (knob_level (data7 ev2))) <$> moves).
Proof.
  intros Hty Hbank Hcc Hcm Hzm Hchain Hchan Hch. revert w Hbank Hcm Hzm Hchain.
  induction moves as [|[now ev2] moves IH]; intros w Hbank Hcm Hzm Hchain Hsync.
  - simpl. by rewrite app_nil_r.
  - simpl.
    rewrite (mk4_mixer_event now ev0 ev1 ev2 [] w c ch) by done.
    destruct Hsync as [b Hb]. rewrite Hb. simpl.
    rewrite IH; simpl; [|done..|by rewrite Hb].
    by rewrite <- app_assoc.
Qed.

(** C3.  In the pickup driver, in bank 0, for a mixer knob (CC 21..26) whose
    position holds a chain with a mixer channel below 17: while the knob is
    not in [mixer_synced], a value whose level [v / 127.0] is 0.02 or more
    away from the current level changes nothing, and the knob stays out of
    [mixer_synced]; a value less than 0.02 away enters the knob in
    [mixer_synced] and sets the level to [v / 127.0]; once the knob is in
    [mixer_synced] every value sets the level to [v / 127.0], the knob stays
    synced, and so does every value of any later run of moves. *)
Theorem soft_takeover now ev0 ev1 ev2 rest (w : world Mk4.driver) c ch :
  evtype ev0 = 0xB → Mk4.knob_bank (self w) = 0 → 21 ≤ data7 ev1 ≤ 26 →
  has_chain_manager w = true → has_zynmixer w = true →
  get_chain_by_position (chain_manager w) (data7 ev1 - 20 - 1) = Found c →
  mixer_chan c = Val ch → ch < 17 →
  let ccnum := data7 ev1 in
  let v := data7 ev2 in
  let ev := ev0 :: ev1 :: ev2 :: rest in
  let gap := takeover_gap v (get_level (zynmixer w) ch) in
  (Mk4.mixer_synced (self w) !! ccnum = None →
   PrimFloat.leb 0.02 gap = true →
   Mk4.midi_event now ev w = (Ok true, w))
  ∧ (Mk4.mixer_synced (self w) !! ccnum = None →
     PrimFloat.ltb gap 0.02 = true →
     ∃ w', Mk4.midi_event now ev w = (Ok true, w')
           ∧ is_Some (Mk4.mixer_synced (self w') !! ccnum)
           ∧ get_level (zynmixer w') ch = knob_level v
           ∧ out w' = out w ++ [set_level ch (knob_level v)])
  ∧ (is_Some (Mk4.mixer_synced (self w) !! ccnum) →
     (∃ w', Mk4.midi_event now ev w = (Ok true, w')
            ∧ self w' = self w
            ∧ get_level (zynmixer w') ch = knob_level v
            ∧ out w' = out w ++ [set_level ch (knob_level v)])
     ∧ ∀ moves : list (float * Z),
         out (mk4_events ((λ '(now, ev2), (now, [ev0; ev1; ev2])) <$> moves) w)
         = out w
           ++ ((λ '(_, ev2), set_level ch (knob_level (data7 ev2))) <$> moves)).
Proof.
  intros Hty Hbank Hcc Hcm Hzm Hchain Hchan Hch ccnum v ev gap.
  subst ccnum v ev gap.
  pose proof (mk4_mixer_event now ev0 ev1 ev2 rest w c ch
                Hty Hbank Hcc Hcm Hzm Hchain Hchan Hch) as Hrun.
  simpl in Hrun. split; [|split].
  - intros Hnone Hfar%leb_not_ltb. by rewrite Hrun, Hnone, Hfar.
  - intros Hnone Hnear. rewrite Hrun, Hnone, Hnear. eexists. split; [done|].
    simpl. split; [|split; [|done]].
    + rewrite lookup_insert_eq. by eexists.
    + apply fn_lookup_insert.
  - intros Hsync. split.
    + destruct Hsync as [b Hb]. rewrite Hrun, Hb. eexists. split; [done|].
      simpl. split; [done|]. split; [|done]. apply fn_lookup_insert.
    + intros moves. by apply (synced_knob_follows _ _ _ _ c).
Qed.

Lemma soft_takeover_witness :
  let w := example_world Mk4.init in
  evtype 0xB0 = 0xB ∧ Mk4.knob_bank (self w) = 0 ∧ 21 ≤ data7 21 ≤ 26
  ∧ Mk4.mixer_synced (self w) !! data7 21 = None
  ∧ PrimFloat.leb 0.02 (takeover_gap (data7 100) (get_level (zynmixer w) 0))
    = true
  ∧ Mk4.midi_event 0 [0xB0; 21; 100] w = (Ok true, w)
  ∧ PrimFloat.ltb (takeover_gap (data7 64) (get_level (zynmixer w) 0)) 0.02
    = true
  ∧ ∃ w', Mk4.midi_event 0 [0xB0; 21; 64] w = (Ok true, w')
          ∧ is_Some (Mk4.mixer_synced (self w') !! data7 21)
          ∧ get_level (zynmixer w') 0 = knob_level (data7 64)
          ∧ out w' = out w ++ [set_level 0 (knob_level (data7 64))].
Proof.
  intros w.
  assert (Hcc : 21 ≤ data7 21 ≤ 26) by (vm_compute; split; discriminate).
  assert (Hnone : Mk4.mixer_synced (self w) !! data7 21 = None)
    by (vm_compute; reflexivity).
  assert (Hfar : PrimFloat.leb 0.02
                   (takeover_gap (data7 100) (get_level (zynmixer w) 0)) = true)
    by (vm_compute; reflexivity).
  assert (Hnear : PrimFloat.ltb
                    (takeover_gap (data7 64) (get_level (zynmixer w) 0)) 0.02
                  = true)
    by (vm_compute; reflexivity).
  split; [reflexivity|]. split; [reflexivity|]. split; [exact Hcc|].
  split; [exact Hnone|]. split; [exact Hfar|]. split.
  - exact (proj1 (soft_takeover 0 0xB0 21 100 [] w (Chain (Val 0) PyNone) 0
                    eq_refl eq_refl Hcc eq_refl eq_refl eq_refl eq_refl
                    eq_refl) Hnone Hfar).
  - split; [exact Hnear|].
    exact (proj1 (proj2 (soft_takeover 0 0xB0 21 64 [] w (Chain (Val 0) PyNone) 0
                           eq_refl eq_refl Hcc eq_refl eq_refl eq_refl eq_refl
                           eq_refl)) Hnone Hnear).
Defined.

(** ** Hold classification *)

Lemma hold_kind_cases (duration : float) :
  (PrimFloat.ltb duration 0.5 = true → hold_kind duration = "S")
  ∧ (PrimFloat.leb 0.5 duration = true → PrimFloat.ltb duration 1.5 = true →
     hold_kind duration = "B")
  ∧ (PrimFloat.leb 1.5 duration = true → hold_kind duration = "L").
Proof.
  unfold hold_kind. split; [|split].
  - by intros ->.
  - by intros ->%leb_not_ltb ->.
  - intros Hlong.
    rewrite (ltb_leb_not_ltb 0.5 1.5 duration) by done.
    by rewrite (leb_not_ltb 1.5 duration).
Qed.

Lemma mk4_hold_button_handled now ccnum ccval idx led (w : world Mk4.driver) :
  (run Mk4.hold_button now ccnum ccval idx led; ret true) w
  = (Ok true, snd (Mk4.hold_button now ccnum ccval idx led w)).
Proof.
  unfold bind at 1, Mk4.hold_button, get_self, bind, get, ret.
  destruct (0 <? ccval); [by destruct led|].
  by destruct (Mk4.press_times (self w) !! ccnum).
Qed.

Lemma mk4_hold_event now ev0 ev1 ev2 rest (w : world Mk4.driver) :
  evtype ev0 = 0xB →
  data7 ev1 = 105
  ∨ 74 ≤ data7 ev1 ≤ 77 ∧ (Mk4.shift (self w) = false ∨ data7 ev1 ≠ 76) →
  Mk4.midi_event now (ev0 :: ev1 :: ev2 :: rest) w
  = (Ok true,
     snd (Mk4.hold_button now (data7 ev1) (data7 ev2)
            (if data7 ev1 =? 105 then 3 else Mk4.zynswitch_index (data7 ev1))
            (data7 ev1 =? 105) w)).
Proof.
  intros Hty Hcc. rewrite mk4_midi_event_cc by done.
  pose proof (mk4_hold_button_handled now) as Hdone.
  unfold Mk4.control_change. destruct Hcc as [->|[Hcc Hshift]]; [apply Hdone|].
  repeat match goal with
    | |- context [?a =? 51] => destruct (Z.eqb_spec a 51); [lia|]
    | |- context [?a =? 52] => destruct (Z.eqb_spec a 52); [lia|]
    | |- context [?a =? 63] => destruct (Z.eqb_spec a 63); [lia|]
    | |- context [?a =? 105] => destruct (Z.eqb_spec a 105); [lia|]
    end.
  simpl.
  destruct (Z.ltb_spec 20 (data7 ev1)); [|lia].
  destruct (Z.ltb_spec (data7 ev1) 29); [lia|]. simpl.
  rewrite in_74_77.
  destruct (Z.leb_spec 74 (data7 ev1)); [|lia].
  destruct (Z.leb_spec (data7 ev1) 77); [|lia]. simpl.
  unfold bind at 1, get_self, bind at 1, get, ret at 1.
  destruct Hshift as [->|Hne]; [apply Hdone|].
  apply Z.eqb_neq in Hne. rewrite Hne, andb_false_r. apply Hdone.
Qed.

Lemma mini_hold_button_handled now ccnum ccval idx led (w : world Mini.driver) :
  (run Mini.hold_button now ccnum ccval idx led; ret true) w
  = (Ok true, snd (Mini.hold_button now ccnum ccval idx led w)).
Proof.
  unfold bind at 1, Mini.hold_button, get_self, bind, get, ret.
  destruct (0 <? ccval); [by destruct led|].
  by destruct (Mini.press_times (self w) !! ccnum).
Qed.

Lemma mini_hold_event now ev0 ev1 ev2 rest (w : world Mini.driver) :
  evtype ev0 = 0xB →
  data7 ev1 = 104
  ∨ 74 ≤ data7 ev1 ≤ 77 ∧ (Mini.shift (self w) = false ∨ data7 ev1 ≠ 76) →
  Mini.midi_event now (ev0 :: ev1 :: ev2 :: rest) w
  = (Ok true,
     snd (Mini.hold_button now (data7 ev1) (data7 ev2)
            (if data7 ev1 =? 104 then 3 else Mini.zynswitch_index (data7 ev1))
            (data7 ev1 =? 104) w)).
Proof.
  intros Hty Hcc. rewrite mini_midi_event_cc by done.
  pose proof (mini_hold_button_handled now) as Hdone.
  unfold Mini.control_change. destruct Hcc as [->|[Hcc Hshift]]; [apply Hdone|].
  repeat match goal with
    | |- context [?a =? 51] => destruct (Z.eqb_spec a 51); [lia|]
    | |- context [?a =? 52] => destruct (Z.eqb_spec a 52); [lia|]
    | |- context [?a =? 63] => destruct (Z.eqb_spec a 63); [lia|]
    | |- context [?a =? 104] => destruct (Z.eqb_spec a 104); [lia|]
    end.
  simpl.
  destruct (Z.ltb_spec 84 (data7 ev1)); [lia|]. simpl.
  rewrite in_74_77.
  destruct (Z.leb_spec 74 (data7 ev1)); [|lia].
  destruct (Z.leb_spec (data7 ev1) 77); [|lia]. simpl.
  unfold bind at 1, get_self, bind at 1, get, ret at 1.
  destruct Hshift as [->|Hne]; [apply Hdone|].
  apply Z.eqb_neq in Hne. rewrite Hne, andb_false_r. apply Hdone.
Qed.

Lemma mk4_tempo_event now ev0 ev1 ev2 rest (w : world Mk4.driver) :
  evtype ev0 = 0xB → data7 ev1 = 76 → Mk4.shift (self w) = true →
  Mk4.midi_event now (ev0 :: ev1 :: ev2 :: rest) w
  = (Ok true,
     if 0 <? data7 ev2 then with_out (out w ++ [send_cuia "TEMPO" None]) w
     else w).
Proof.
  intros Hty Hcc Hshift. rewrite mk4_midi_event_cc by done.
  unfold Mk4.control_change. rewrite Hcc. simpl.
  unfold bind at 1, get_self, bind at 1, get, ret at 1. rewrite Hshift. simpl.
  unfold bind. by destruct (0 <? data7 ev2).
Qed.

Lemma mini_tempo_event now ev0 ev1 ev2 rest (w : world Mini.driver) :
  evtype ev0 = 0xB → data7 ev1 = 76 → Mini.shift (self w) = true →
  Mini.midi_event now (ev0 :: ev1 :: ev2 :: rest) w
  = (Ok true,
     if 0 <? data7 ev2 then with_out (out w ++ [send_cuia "TEMPO" None]) w
     else w).
Proof.
  intros Hty Hcc Hshift. rewrite mini_midi_event_cc by done.
  unfold Mini.control_change. rewrite Hcc. simpl.
  unfold bind at 1, get_self, bind at 1, get, ret at 1. rewrite Hshift. simpl.
  unfold bind. by destruct (0 <? data7 ev2).
Qed.

(** C4, as stated, fails for CC 76 while shift is held: the button is then
    the TEMPO button.  A press sends TEMPO and records no time; a release
    with a recorded press sends nothing and leaves the entry in place. *)
Lemma shifted_metronome_is_not_timed :
  Mk4.midi_event 1000 [0xB0; 76; 127]
    (example_world (Mk4.Driver true ∅ 0 ∅ ∅))
  = (Ok true,
     with_out [send_cuia "TEMPO" None] (example_world (Mk4.Driver true ∅ 0 ∅ ∅)))
  ∧ Mk4.midi_event 1000.25 [0xB0; 76; 0]
      (example_world (Mk4.Driver true {[76 := 1000%float]} 0 ∅ ∅))
    = (Ok true, example_world (Mk4.Driver true {[76 := 1000%float]} 0 ∅ ∅))
  ∧ Mini.midi_event 1000 [0xB0; 76; 127]
      (example_world (Mini.Driver true ∅ 1 0))
    = (Ok true,
       with_out [send_cuia "TEMPO" None] (example_world (Mini.Driver true ∅ 1 0))).
Proof. repeat split; vm_compute; reflexivity. Qed.

(** C4 (amended).  For the hold buttons, CC 74, 75 and 77, CC 76 while shift
    is not held, and CC 104 in the transport driver or CC 105 in the pickup
    driver: a press (value > 0) records the current time under the controller
    number (CC 104 and 105 also echo the press to the button's LED); a release
    (value 0) with a recorded press sends exactly one ZYNSWITCH action, for
    switch 0, 1, 3, 2 (CC 74..77) or 3 (CC 104, 105), classified by
    [duration = now - start] as short when [duration < 0.5], bold when
    [0.5 <= duration < 1.5] and long when [1.5 <= duration], so 0.49 is short,
    0.50 and 1.49 are bold and 1.50 is long, and then removes the entry; a
    release with no recorded press does nothing.  While shift is held CC 76
    is the TEMPO button: a press sends TEMPO, a release sends nothing, and
    neither touches the recorded times.  Every such event is handled. *)
Theorem hold_classification now ev0 ev1 ev2 rest :
  evtype ev0 = 0xB →
  let ccnum := data7 ev1 in
  let v := data7 ev2 in
  let ev := ev0 :: ev1 :: ev2 :: rest in
  (∀ w : world Mk4.driver,
      ccnum = 105
      ∨ 74 ≤ ccnum ≤ 77 ∧ (Mk4.shift (self w) = false ∨ ccnum ≠ 76) →
      let index := if ccnum =? 105 then 3 else Mk4.zynswitch_index ccnum in
      let times := Mk4.press_times (self w) in
      (0 < v →
       Mk4.midi_event now ev w
       = (Ok true,
          with_out
            (out w ++ if ccnum =? 105
                      then [dev_send_ccontrol_change (idev_out w) 0 ccnum 127]
                      else [])
            (with_self (Mk4.set_press_times (<[ccnum := now]> times) (self w))
               w)))
      ∧ (v = 0 → ∀ start, times !! ccnum = Some start →
         Mk4.midi_event now ev w
         = (Ok true,
            with_out
              (out w ++ [send_cuia "ZYNSWITCH"
                           (Some [PInt index;
                                  PStr (hold_kind (PrimFloat.sub now start))])])
              (with_self (Mk4.set_press_times (delete ccnum times) (self w))
                 w)))
      ∧ (v = 0 → times !! ccnum = None →
         Mk4.midi_event now ev w = (Ok true, w)))
  ∧ (∀ w : world Mini.driver,
      ccnum = 104
      ∨ 74 ≤ ccnum ≤ 77 ∧ (Mini.shift (self w) = false ∨ ccnum ≠ 76) →
      let index := if ccnum =? 104 then 3 else Mini.zynswitch_index ccnum in
      let times := Mini.press_times (self w) in
      (0 < v →
       Mini.midi_event now ev w
       = (Ok true,
          with_out
            (out w ++ if ccnum =? 104
                      then [dev_send_ccontrol_change (idev_out w) 0 ccnum 127]
                      else [])
            (with_self (Mini.set_press_times (<[ccnum := now]> times) (self w))
               w)))
      ∧ (v = 0 → ∀ start, times !! ccnum = Some start →
         Mini.midi_event now ev w
         = (Ok true,
            with_out
              (out w ++ [send_cuia "ZYNSWITCH"
                           (Some [PInt index;
                                  PStr (hold_kind (PrimFloat.sub now start))])])
              (with_self (Mini.set_press_times (delete ccnum times) (self w))
                 w)))
      ∧ (v = 0 → times !! ccnum = None →
         Mini.midi_event now ev w = (Ok true, w)))
  ∧ (ccnum = 76 →
     (∀ w : world Mk4.driver,
         Mk4.shift (self w) = true →
         Mk4.midi_event now ev w
         = (Ok true,
            if 0 <? v then with_out (out w ++ [send_cuia "TEMPO" None]) w
            else w))
     ∧ (∀ w : world Mini.driver,
         Mini.shift (self w) = true →
         Mini.midi_event now ev w
         = (Ok true,
            if 0 <? v then with_out (out w ++ [send_cuia "TEMPO" None]) w
            else w)))
  ∧ (∀ duration,
      (PrimFloat.ltb duration 0.5 = true → hold_kind duration = "S")
      ∧ (PrimFloat.leb 0.5 duration = true →
         PrimFloat.ltb duration 1.5 = true → hold_kind duration = "B")
      ∧ (PrimFloat.leb 1.5 duration = true → hold_kind duration = "L"))
  ∧ hold_kind 0.49 = "S" ∧ hold_kind 0.5 = "B"
  ∧ hold_kind 1.49 = "B" ∧ hold_kind 1.5 = "L"
  ∧ Mk4.zynswitch_index <$> [74; 75; 76; 77] = [0; 1; 3; 2]
  ∧ Mini.zynswitch_index <$> [74; 75; 76; 77] = [0; 1; 3; 2].
Proof.
  intros Hty ccnum v ev. subst ccnum v ev.
  split; [|split; [|split; [|split; [apply hold_kind_cases | by repeat split]]]];
    [| |intros Hcc; split; intros w Hshift;
        [by apply mk4_tempo_event | by apply mini_tempo_event]].
  - intros w Hcc index times. subst index times.
    rewrite mk4_hold_event by done.
    unfold Mk4.hold_button, get_self, bind, get, ret. split; [|split].
    + intros Hv%Z.ltb_lt. rewrite Hv. simpl.
      destruct (data7 ev1 =? 105); simpl; [done|]. by rewrite app_nil_r.
    + intros Hv start Hstart. rewrite Hv, Hstart. done.
    + intros Hv Hnone. rewrite Hv, Hnone. done.
  - intros w Hcc index times. subst index times.
    rewrite mini_hold_event by done.
    unfold Mini.hold_button, get_self, bind, get, ret. split; [|split].
    + intros Hv%Z.ltb_lt. rewrite Hv. simpl.
      destruct (data7 ev1 =? 104); simpl; [done|]. by rewrite app_nil_r.
    + intros Hv start Hstart. rewrite Hv, Hstart. done.
    + intros Hv Hnone. rewrite Hv, Hnone. done.
Qed.

Lemma hold_classification_witness :
  let w := example_world (Mini.Driver false {[104 := 1000%float]} 1 0) in
  evtype 0xB0 = 0xB
  ∧ (data7 104 = 104
     ∨ 74 ≤ data7 104 ≤ 77 ∧ (Mini.shift (self w) = false ∨ data7 104 ≠ 76))
  ∧ data7 0 = 0
  ∧ Mini.press_times (self w) !! data7 104 = Some 1000%float
  ∧ Mini.midi_event 1000.5 [0xB0; 104; 0] w
    = (Ok true,
       with_out [send_cuia "ZYNSWITCH" (Some [PInt 3; PStr "B"])]
         (example_world (Mini.Driver false ∅ 1 0))).
Proof.
  intros w.
  assert (Hcc : data7 104 = 104
                ∨ 74 ≤ data7 104 ≤ 77
                  ∧ (Mini.shift (self w) = false ∨ data7 104 ≠ 76))
    by (left; reflexivity).
  assert (Hstart : Mini.press_times (self w) !! data7 104 = Some 1000%float)
    by (vm_compute; reflexivity).
  split; [reflexivity|]. split; [exact Hcc|]. split; [reflexivity|].
  split; [exact Hstart|].
  rewrite (proj1 (proj2 (proj1 (proj2 (hold_classification 1000.5 0xB0 104 0 []
                                         eq_refl)) w Hcc))
             eq_refl 1000%float Hstart).
  vm_compute. reflexivity.
Defined.

(** ** Debounce of the SELECT/BACK knob *)

Lemma select_back_calls_nonempty (v : Z) : v ≠ 64 → select_back_calls v ≠ [].
Proof.
  unfold select_back_calls. intros Hv.
  destruct (Z.eqb_spec v 1), (Z.ltb_spec v 64), (Z.eqb_spec v 127),
    (Z.ltb_spec 64 v); simpl; try done; lia.
Qed.

Lemma mini_select_back_event now ev0 ev1 ev2 rest (w : world Mini.driver) :
  evtype ev0 = 0xB → Mini.knob_bank (self w) = 1 → data7 ev1 = 90 →
  Mini.midi_event now (ev0 :: ev1 :: ev2 :: rest) w
  = (Ok true,
     if PrimFloat.ltb
          (PrimFloat.sub now (Mini.last_select_back_time (self w))) 0.6
     then w
     else
       with_out (out w ++ select_back_calls (data7 ev2))
         (with_self (Mini.set_last_select_back_time now (self w)) w)).
Proof.
  intros Hty Hbank Hcc. rewrite mini_knob_event by (done || lia).
  unfold Mini.knob, bind at 1, get_self, bind at 1, get, ret at 1.
  rewrite Hbank, Hcc. simpl.
  unfold bind at 1, Mini.select_back_knob, get_self, bind at 1 2, get, ret at 1.
  destruct (PrimFloat.ltb _ _); [reflexivity|].
  unfold bind, set_self, modify, select_back_calls.
  destruct ((data7 ev2 =? 1) || (data7 ev2 <? 64)); [reflexivity|].
  destruct ((data7 ev2 =? 127) || (64 <? data7 ev2)); [reflexivity|].
  simpl. by rewrite app_nil_r.
Qed.

(** C6, as stated, fails for a message with the neutral value 64: 700 ms
    after an accepted turn it passes the guard and stamps the clock, and it
    produces no action.  Only the first of the two messages below sends
    something. *)
Lemma neutral_value_sends_nothing :
  PrimFloat.leb 0.7 (PrimFloat.sub 1000.7 1000) = true
  ∧ mini_events [(1000%float, [0xB0; 90; 127]); (1000.7%float, [0xB0; 90; 64])]
      (example_world Mini.init)
    = with_out [send_cuia "ZYNSWITCH" (Some [PInt 3; PStr "S"])]
        (example_world (Mini.Driver false ∅ 1 1000.7)).
Proof. split; vm_compute; reflexivity. Qed.

(** C6 (amended).  In the transport driver, in bank 1, a CC 90 message that
    arrives less than 0.6 s after the last accepted one is handled and
    changes nothing: no action, and the time stamp stays.  Any other CC 90
    message is accepted: the stamp becomes its arrival time and it sends BACK
    for a value below 64, ZYNSWITCH [3, 'S'] for a value above 64, and nothing
    for the value 64.  So of two turns (values other than 64) of which the
    first is accepted, both send an action when they are 0.7 s or more apart,
    and only the first does when they are less than 0.6 s apart. *)
Theorem select_back_debounce ev0 ev1 ev2 ev2' rest rest'
    (w : world Mini.driver) (t1 t2 : float) :
  evtype ev0 = 0xB → Mini.knob_bank (self w) = 1 → data7 ev1 = 90 →
  let last := Mini.last_select_back_time (self w) in
  let first := ev0 :: ev1 :: ev2 :: rest in
  let second := ev0 :: ev1 :: ev2' :: rest' in
  let accepted t v :=
    with_out (out w ++ select_back_calls v)
      (with_self (Mini.set_last_select_back_time t (self w)) w) in
  (PrimFloat.ltb (PrimFloat.sub t1 last) 0.6 = true →
   Mini.midi_event t1 first w = (Ok true, w))
  ∧ (PrimFloat.ltb (PrimFloat.sub t1 last) 0.6 = false →
     Mini.midi_event t1 first w = (Ok true, accepted t1 (data7 ev2))
     ∧ (∀ v, v ≠ 64 → select_back_calls v ≠ [])
     ∧ select_back_calls 64 = []
     ∧ (PrimFloat.leb 0.7 (PrimFloat.sub t2 t1) = true →
        mini_events [(t1, first); (t2, second)] w
        = with_out (out w ++ select_back_calls (data7 ev2)
                          ++ select_back_calls (data7 ev2'))
            (with_self (Mini.set_last_select_back_time t2 (self w)) w))
     ∧ (PrimFloat.ltb (PrimFloat.sub t2 t1) 0.6 = true →
        mini_events [(t1, first); (t2, second)] w = accepted t1 (data7 ev2))).
Proof.
  intros Hty Hbank Hcc last first second accepted.
  subst last first second accepted. split.
  - intros Hsoon. by rewrite mini_select_back_event, Hsoon.
  - intros Hlate.
    pose proof (mini_select_back_event t1 ev0 ev1 ev2 rest w Hty Hbank Hcc)
      as Hfirst.
    rewrite Hlate in Hfirst. split; [exact Hfirst|].
    split; [apply select_back_calls_nonempty|]. split; [done|].
    split.
    + intros Hapart. simpl. rewrite Hfirst. simpl.
      rewrite mini_select_back_event by done. simpl.
      rewrite (ltb_leb_not_ltb 0.6 0.7) by done. simpl.
      by rewrite <- app_assoc.
    + intros Hsoon. simpl. rewrite Hfirst. simpl.
      rewrite mini_select_back_event by done. simpl. by rewrite Hsoon.
Qed.

Lemma select_back_debounce_witness :
  let w := example_world Mini.init in
  evtype 0xB0 = 0xB ∧ Mini.knob_bank (self w) = 1 ∧ data7 90 = 90
  ∧ PrimFloat.ltb (PrimFloat.sub 1000 (Mini.last_select_back_time (self w))) 0.6
    = false
  ∧ PrimFloat.leb 0.7 (PrimFloat.sub 1000.7 1000) = true
  ∧ mini_events [(1000%float, [0xB0; 90; 127]); (1000.7%float, [0xB0; 90; 1])] w
    = with_out [send_cuia "ZYNSWITCH" (Some [PInt 3; PStr "S"]);
                send_cuia "BACK" None]
        (example_world (Mini.Driver false ∅ 1 1000.7))
  ∧ PrimFloat.ltb (PrimFloat.sub 1000.4 1000) 0.6 = true
  ∧ mini_events [(1000%float, [0xB0; 90; 127]); (1000.4%float, [0xB0; 90; 1])] w
    = with_out [send_cuia "ZYNSWITCH" (Some [PInt 3; PStr "S"])]
        (example_world (Mini.Driver false ∅ 1 1000)).
Proof.
  intros w.
  assert (Hlate : PrimFloat.ltb
                    (PrimFloat.sub 1000 (Mini.last_select_back_time (self w)))
                    0.6 = false) by (vm_compute; reflexivity).
  assert (Hapart : PrimFloat.leb 0.7 (PrimFloat.sub 1000.7 1000) = true)
    by (vm_compute; reflexivity).
  assert (Hsoon : PrimFloat.ltb (PrimFloat.sub 1000.4 1000) 0.6 = true)
    by (vm_compute; reflexivity).
  split; [reflexivity|]. split; [reflexivity|]. split; [reflexivity|].
  split; [exact Hlate|]. split; [exact Hapart|]. split; [|split; [exact Hsoon|]].
  - destruct (proj2 (select_back_debounce 0xB0 90 127 1 [] [] w 1000 1000.7
                       eq_refl eq_refl eq_refl) Hlate)
      as (_ & _ & _ & Hboth & _).
    rewrite (Hboth Hapart). reflexivity.
  - destruct (proj2 (select_back_debounce 0xB0 90 127 1 [] [] w 1000 1000.4
                       eq_refl eq_refl eq_refl) Hlate)
      as (_ & _ & _ & _ & Honly).
    rewrite (Honly Hsoon). reflexivity.
Defined.

(** * Further properties *)

(** ** Invariants and calls: the rules *)

Section Sound.
Context {D : Type} (I : D → Prop) (ok : effect → Prop).

Lemma sound_silent {A} (m : M (world D) A) (Q : A → Prop) :
  (∀ w, snd (m w) = w) → (∀ w a, fst (m w) = Ok a → Q a) → sound I ok m Q.
Proof.
  intros Hm HQ w Hw. rewrite Hm. split; [done|]. split; [|by apply HQ].
  exists []. by rewrite app_nil_r.
Qed.

Lemma sound_weaken {A} (m : M (world D) A) (Q Q' : A → Prop) :
  sound I ok m Q → (∀ a, Q a → Q' a) → sound I ok m Q'.
Proof.
  intros Hm HQ w Hw. destruct (Hm w Hw) as (HI & Hes & Ha).
  split; [done|]. split; [done|]. intros a Hr. by apply HQ, Ha.
Qed.

Lemma sound_ret {A} (a : A) (Q : A → Prop) : Q a → sound I ok (ret a) Q.
Proof. intros Ha. apply sound_silent; [done|]. by intros w a' [= <-]. Qed.

Lemma sound_raise {A} e (Q : A → Prop) : sound I ok (raise e) Q.
Proof. by apply sound_silent. Qed.

Lemma sound_bind {A B} (m : M (world D) A) (k : A → M (world D) B) Q R :
  sound I ok m Q → (∀ a, Q a → sound I ok (k a) R) → sound I ok (bind m k) R.
Proof.
  intros Hm Hk w Hw. destruct (Hm w Hw) as (HI & (es1 & Hout1 & Hes1) & Ha).
  unfold bind. destruct (m w) as [[a|e] w1]; simpl in *.
  - destruct (Hk a (Ha a eq_refl) w1 HI) as (HI2 & (es2 & Hout2 & Hes2) & Hb).
    split; [done|]. split; [|done]. exists (es1 ++ es2).
    rewrite Hout2, Hout1, app_assoc. split; [done|]. by apply Forall_app.
  - split; [done|]. split; [by exists es1|done].
Qed.

Lemma sound_get : sound I ok (@get (world D)) (λ _, True).
Proof. by apply sound_silent. Qed.

Lemma sound_get_self : sound I ok (@get_self D) I.
Proof.
  intros w Hw. split; [done|]. split; [exists []; by rewrite app_nil_r|].
  by intros a [= <-].
Qed.

Lemma sound_set_self d : I d → sound I ok (set_self d) (λ _, True).
Proof.
  intros Hd w Hw. split; [done|]. split; [|done].
  exists []. simpl. by rewrite app_nil_r.
Qed.

Lemma sound_emit e : ok e → sound I ok (emit e) (λ _, True).
Proof.
  intros He w Hw. split; [done|]. split; [|done].
  exists [e]. split; [done|]. by apply Forall_singleton.
Qed.

Lemma sound_try_except {A} (m : M (world D) A) (h : exn → M (world D) A) Q R :
  sound I ok m Q → (∀ a, Q a → R a) → (∀ e, sound I ok (h e) R) →
  sound I ok (try_except m h) R.
Proof.
  intros Hm HQ Hh w Hw.
  destruct (Hm w Hw) as (HI & (es1 & Hout1 & Hes1) & Ha).
  unfold try_except. destruct (m w) as [[a|e] w1]; simpl in *.
  - split; [done|]. split; [by exists es1|]. intros a' [= <-]. by apply HQ, Ha.
  - destruct (Hh e w1 HI) as (HI2 & (es2 & Hout2 & Hes2) & Hb).
    split; [done|]. split; [|done]. exists (es1 ++ es2).
    rewrite Hout2, Hout1, app_assoc. split; [done|]. by apply Forall_app.
Qed.

Lemma sound_for_each {A} (l : list A) (body : A → M (world D) unit) :
  (∀ i, i ∈ l → sound I ok (body i) (λ _, True)) →
  sound I ok (for_each l body) (λ _, True).
Proof.
  induction l as [|i l IH]; intros Hbody; simpl.
  - by apply sound_ret.
  - eapply sound_bind; [apply Hbody; by left|]. intros _ _.
    apply IH. intros j Hj. apply Hbody. by right.
Qed.

Lemma sound_getitem ev i : sound I ok (getitem ev i) (λ _, True).
Proof. unfold getitem. destruct (ev !! i); by apply sound_silent. Qed.

Lemma sound_chain_by_position i :
  sound I ok (chain_by_position i) (λ _, True).
Proof.
  apply sound_silent; [|done]. intros w. unfold chain_by_position, bind, get.
  destruct (has_chain_manager w); [|done].
  by destruct (get_chain_by_position (chain_manager w) i).
Qed.

(** A channel that passes the test is below 17. *)
Lemma sound_checked_mixer_chan c :
  sound I ok (checked_mixer_chan c)
    (λ mc, ∀ ch, mc = Some ch → ch < 17).
Proof.
  destruct c as [c|]; simpl; [|by apply sound_ret].
  destruct (mixer_chan c) as [| |ch]; [apply sound_raise|by apply sound_ret|].
  apply sound_ret. destruct (Z.ltb_spec ch 17); [|done]. by intros ? [= <-].
Qed.

Lemma sound_the_zynmixer : sound I ok the_zynmixer (λ _, True).
Proof.
  apply sound_silent; [|done]. intros w. unfold the_zynmixer, bind, get.
  by destruct (has_zynmixer w).
Qed.

Lemma sound_with_zynmixer m :
  sound I ok (modify (with_zynmixer m)) (λ _, True).
Proof.
  intros w Hw. split; [done|]. split; [|done].
  exists []. simpl. by rewrite app_nil_r.
Qed.

Lemma sound_mixer_set_level ch level :
  ok (set_level ch level) → sound I ok (mixer_set_level ch level) (λ _, True).
Proof.
  intros He. eapply sound_bind; [apply sound_the_zynmixer|]. intros m _.
  eapply sound_bind; [apply sound_with_zynmixer|]. intros _ _.
  by apply sound_emit.
Qed.

Lemma sound_mixer_set_solo ch v :
  ok (set_solo ch v) → sound I ok (mixer_set_solo ch v) (λ _, True).
Proof.
  intros He. eapply sound_bind; [apply sound_the_zynmixer|]. intros m _.
  eapply sound_bind; [apply sound_with_zynmixer|]. intros _ _.
  by apply sound_emit.
Qed.

Lemma sound_mixer_set_mute ch v :
  ok (set_mute ch v) → sound I ok (mixer_set_mute ch v) (λ _, True).
Proof.
  intros He. eapply sound_bind; [apply sound_the_zynmixer|]. intros m _.
  eapply sound_bind; [apply sound_with_zynmixer|]. intros _ _.
  by apply sound_emit.
Qed.
End Sound.

(** ** The LED methods make well-formed calls *)

Lemma pad_velocity_7bit {D} (w : world D) state on off i :
  0 ≤ on ≤ 127 → 0 ≤ off ≤ 127 → 0 ≤ pad_velocity w state on off i ≤ 127.
Proof.
  intros Hon Hoff. unfold pad_velocity.
  destruct (resolve_pad w i); [|lia].
  destruct (has_zynmixer w); [|lia]. by destruct (truthy _).
Qed.

Lemma pad_led_writes_ok {D} ev on off (w : world D) :
  0 ≤ on ≤ 127 → 0 ≤ off ≤ 127 →
  Forall (call_ok ev) (pad_led_writes on off w).
Proof.
  intros Hon Hoff. unfold pad_led_writes. destruct (idev_out w); [|done].
  destruct (_ || _); [done|].
  apply Forall_app; split; apply Forall_fmap, list.Forall_forall;
    intros i Hi%elem_of_seqZ; simpl;
    (split; [done|]); (split; [lia|]); apply pad_velocity_7bit; lia.
Qed.

Lemma button_led_writes_ok ev idev bank :
  Forall (call_ok ev) (button_led_writes idev bank).
Proof.
  unfold button_led_writes. destruct idev; [|done].
  apply Forall_app; split; simpl.
  - repeat (apply List.Forall_cons; [split; [done|split; [lia|by right]]|]).
    apply List.Forall_nil.
  - repeat (apply List.Forall_cons;
            [split; [done|split; [lia|by destruct (_ =? _); [right|left]]]|]).
    apply List.Forall_nil.
Qed.

Section SoundLeds.
Context {D : Type} (I : D → Prop) (ev : list Z).

Lemma sound_update_pad_leds on off :
  0 ≤ on ≤ 127 → 0 ≤ off ≤ 127 →
  sound I (call_ok ev) (update_pad_leds on off) (λ _, True).
Proof.
  intros Hon Hoff w Hw. rewrite update_pad_leds_run. split; [done|].
  split; [|done]. eexists. split; [done|]. by apply pad_led_writes_ok.
Qed.

Lemma sound_update_button_leds bank :
  sound I (call_ok ev) (update_button_leds bank) (λ _, True).
Proof.
  intros w Hw. rewrite update_button_leds_run. split; [done|].
  split; [|done]. eexists. split; [done|]. apply button_led_writes_ok.
Qed.

Lemma sound_pad_note on off ty note vel :
  0 ≤ on ≤ 127 → 0 ≤ off ≤ 127 →
  sound I (call_ok ev) (pad_note on off ty note vel) (λ _, True).
Proof.
  intros Hon Hoff. unfold pad_note.
  destruct (_ && _).
  { eapply sound_bind; [apply sound_chain_by_position|]. intros c _.
    eapply sound_bind; [apply sound_checked_mixer_chan|]. intros [ch|] Hch.
    - eapply sound_bind; [apply sound_the_zynmixer|]. intros m _.
      eapply sound_bind; [|intros _ _; by apply sound_update_pad_leds].
      apply sound_mixer_set_solo. split; [by apply Hch|].
      by destruct (truthy _); [left|right].
    - by apply sound_ret. }
  destruct (_ && _); [|by apply sound_ret].
  eapply sound_bind; [apply sound_chain_by_position|]. intros c _.
  eapply sound_bind; [apply sound_checked_mixer_chan|]. intros [ch|] Hch.
  - eapply sound_bind; [apply sound_the_zynmixer|]. intros m _.
    eapply sound_bind; [|intros _ _; by apply sound_update_pad_leds].
    apply sound_mixer_set_mute. split; [by apply Hch|].
    by destruct (truthy _); [left|right].
  - by apply sound_ret.
Qed.
End SoundLeds.

(** ** Levels stay within [0.0, 1.0] *)

Lemma SFltb_leb (a b : spec_float) : SFltb a b = true → SFleb a b = true.
Proof. unfold SFltb, SFleb. by destruct (SFcompare a b) as [[]|]. Qed.

Lemma ltb_leb (x y : float) :
  PrimFloat.ltb x y = true → PrimFloat.leb x y = true.
Proof. rewrite ltb_spec, leb_spec. apply SFltb_leb. Qed.

(** [max(0.0, min(1.0, x))] is within [0.0, 1.0] for every [x], infinite
    or not a number included. *)
Lemma clamp_unit_level (x : float) : unit_level (py_max 0 (py_min 1 x)).
Proof.
  unfold unit_level, py_max, py_min.
  destruct (PrimFloat.ltb x 1) eqn:Hx1; [|by vm_compute].
  destruct (PrimFloat.ltb 0 x) eqn:H0x; [|by vm_compute].
  split; by apply ltb_leb.
Qed.

Lemma knob_level_unit (v : Z) : 0 ≤ v ≤ 127 → unit_level (knob_level v).
Proof.
  intros Hv.
  assert (Hall : forallb (λ v, PrimFloat.leb 0 (knob_level v)
                               && PrimFloat.leb (knob_level v) 1)
                   (seqZ 0 128) = true) by (vm_compute; reflexivity).
  rewrite forallb_forall in Hall.
  specialize (Hall v). rewrite <- list_elem_of_In, elem_of_seqZ in Hall.
  apply andb_true_iff. apply Hall. lia.
Qed.

(** ** Every event keeps the invariant and makes well-formed calls *)

Lemma wrap_delta_range (x : Z) :
  -127 ≤ x ≤ 127 → -64 ≤ Mk4.wrap_delta x ≤ 64.
Proof.
  intros Hx. unfold Mk4.wrap_delta.
  destruct (Z.ltb_spec 64 x); [lia|]. destruct (Z.ltb_spec x (-64)); lia.
Qed.

Lemma hold_kind_in (duration : float) : hold_kind duration ∈ ["S"; "B"; "L"].
Proof.
  unfold hold_kind. destruct (PrimFloat.ltb duration 0.5); [by left|].
  destruct (PrimFloat.ltb duration 1.5); [right; by left|].
  right; right; by left.
Qed.

Lemma mk4_button_command_plain ccnum command :
  Mk4.button_commands ccnum = Some command → command ∈ plain_commands.
Proof.
  unfold Mk4.button_commands, plain_commands.
  repeat case_match; intros [= <-]; repeat constructor.
Qed.

Lemma mini_button_command_plain ccnum command :
  Mini.button_commands ccnum = Some command → command ∈ plain_commands.
Proof.
  unfold Mini.button_commands, plain_commands.
  repeat case_match; intros [= <-]; repeat constructor.
Qed.

Lemma mod3_range (x : Z) : 0 ≤ x `mod` 3 ≤ 2.
Proof. pose proof (Z.mod_pos_bound x 3). lia. Qed.

Lemma mk4_inv_turn d bank :
  mk4_inv d → 0 ≤ bank ≤ 2 →
  mk4_inv (Mk4.set_mixer_synced ∅ (Mk4.set_knob_bank bank d)).
Proof.
  intros (Hb & Hs & Hl & Hp) Hbank. unfold mk4_inv. simpl.
  split; [done|]. split; [apply map_Forall_empty|done].
Qed.

Lemma mk4_inv_shift d b : mk4_inv d → mk4_inv (Mk4.set_shift b d).
Proof. by intros (Hb & Hs & Hl & Hp). Qed.

Lemma mk4_inv_press d k t :
  mk4_inv d → 74 ≤ k ≤ 77 ∨ k = 105 →
  mk4_inv (Mk4.set_press_times (<[k := t]> (Mk4.press_times d)) d).
Proof.
  intros (Hb & Hs & Hl & Hp) Hk. unfold mk4_inv. simpl.
  split; [done|]. split; [done|]. split; [done|]. by apply map_Forall_insert_2.
Qed.

Lemma mk4_inv_release d k :
  mk4_inv d → mk4_inv (Mk4.set_press_times (delete k (Mk4.press_times d)) d).
Proof.
  intros (Hb & Hs & Hl & Hp). unfold mk4_inv. simpl.
  split; [done|]. split; [done|]. split; [done|]. by apply map_Forall_delete.
Qed.

Lemma mk4_inv_synced d k :
  mk4_inv d → 21 ≤ k ≤ 26 →
  mk4_inv (Mk4.set_mixer_synced (<[k := true]> (Mk4.mixer_synced d)) d).
Proof.
  intros (Hb & Hs & Hl & Hp) Hk. unfold mk4_inv. simpl.
  split; [done|]. split; [by apply map_Forall_insert_2|done].
Qed.

Lemma mk4_inv_last d k v :
  mk4_inv d → 21 ≤ k ≤ 24 → 0 ≤ v ≤ 127 →
  mk4_inv (Mk4.set_last_zynpot_values
             (<[k := v]> (Mk4.last_zynpot_values d)) d).
Proof.
  intros (Hb & Hs & Hl & Hp) Hk Hv. unfold mk4_inv. simpl.
  split; [done|]. split; [done|]. split; [by apply map_Forall_insert_2|done].
Qed.

Lemma mk4_inv_last_lookup d k v :
  mk4_inv d → Mk4.last_zynpot_values d !! k = Some v → 0 ≤ v ≤ 127.
Proof. intros (Hb & Hs & Hl & Hp) Hkv. by destruct (Hl k v Hkv). Qed.

Lemma zynswitch_index_range ccnum :
  0 ≤ Mk4.zynswitch_index ccnum ≤ 3 ∧ 0 ≤ Mini.zynswitch_index ccnum ≤ 3.
Proof.
  unfold Mk4.zynswitch_index, Mini.zynswitch_index.
  repeat case_match; lia.
Qed.

Lemma mini_inv_bank d bank :
  mini_inv d → 0 ≤ bank ≤ 2 → mini_inv (Mini.set_knob_bank bank d).
Proof. by intros (Hb & Hp) Hbank. Qed.

Lemma mini_inv_shift d b : mini_inv d → mini_inv (Mini.set_shift b d).
Proof. by intros (Hb & Hp). Qed.

Lemma mini_inv_stamp d t :
  mini_inv d → mini_inv (Mini.set_last_select_back_time t d).
Proof. by intros (Hb & Hp). Qed.

Lemma mini_inv_press d k t :
  mini_inv d → 74 ≤ k ≤ 77 ∨ k = 104 →
  mini_inv (Mini.set_press_times (<[k := t]> (Mini.press_times d)) d).
Proof.
  intros (Hb & Hp) Hk. unfold mini_inv. simpl.
  split; [done|]. by apply map_Forall_insert_2.
Qed.

Lemma mini_inv_release d k :
  mini_inv d → mini_inv (Mini.set_press_times (delete k (Mini.press_times d)) d).
Proof.
  intros (Hb & Hp). unfold mini_inv. simpl.
  split; [done|]. by apply map_Forall_delete.
Qed.

Lemma relative_delta_range (v : Z) :
  0 ≤ v ≤ 127 → -64 ≤ Mini.relative_delta v ≤ 63.
Proof.
  intros Hv. unfold Mini.relative_delta.
  repeat match goal with
    | |- context [?a =? ?b] => destruct (Z.eqb_spec a b)
    | |- context [?a <? ?b] => destruct (Z.ltb_spec a b)
    end; simpl; lia.
Qed.

Lemma mini_browse_presets_sound ev ccval :
  sound mini_inv (call_ok ev) (Mini.browse_presets ccval) (λ _, True).
Proof.
  unfold Mini.browse_presets. cbv zeta.
  destruct (negb (Mini.relative_direction ccval =? 0)); [|by apply sound_ret].
  apply (sound_try_except _ _ _ _ (λ _, True));
    [|done|intros _; by apply sound_emit].
  eapply sound_bind; [apply sound_get|]. intros w _.
  destruct (get_active_chain (chain_manager w)) as [| |c];
    [apply sound_raise|by apply sound_ret|].
  destruct (current_processor c) as [| |p];
    [apply sound_raise|by apply sound_ret|].
  destruct (preset_list p) as [| |[|x l]]; try by apply sound_ret.
  eapply (sound_bind _ _ _ _ (λ _, True)).
  - destruct (set_preset_raises p); [apply sound_raise|].
    apply sound_emit. simpl.
    repeat match goal with
      | |- context [?a <? ?b] => destruct (Z.ltb_spec a b)
      | |- context [?a <=? ?b] => destruct (Z.leb_spec a b)
      end; lia.
  - intros _ _. eapply (sound_bind _ _ _ _ (λ _, True)).
    + apply sound_emit. simpl. split; [done|]. by left.
    + intros _ _. apply sound_emit. simpl. split; [done|]. right. by left.
Qed.

Ltac bools :=
  repeat match goal with
    | H : _ && _ = true |- _ => apply andb_true_iff in H; destruct H
    | H : _ || _ = false |- _ => apply orb_false_iff in H; destruct H
    | H : _ && _ = false |- _ => apply andb_false_iff in H
    | H : _ || _ = true |- _ => apply orb_true_iff in H
    | H : negb _ = true |- _ => apply negb_true_iff in H
    | H : negb _ = false |- _ => apply negb_false_iff in H
    | H : (_ =? _) = true |- _ => apply Z.eqb_eq in H
    | H : (_ =? _) = false |- _ => apply Z.eqb_neq in H
    | H : (_ <? _) = true |- _ => apply Z.ltb_lt in H
    | H : (_ <? _) = false |- _ => apply Z.ltb_ge in H
    | H : ∀ ch, Some ?z = Some ch → _ |- _ => specialize (H z eq_refl)
    end.



Ltac sound_step :=
  lazymatch goal with
  | |- sound _ _ (ret _) _ => by apply sound_ret
  | |- sound _ _ (getitem _ _) _ => apply sound_getitem
  | |- sound _ _ (Mini.browse_presets _) _ => apply mini_browse_presets_sound
  | |- sound _ _ (bind get_self _) _ =>
      eapply sound_bind; [apply sound_get_self | intros ? ?]
  | |- sound _ _ (bind get _) _ =>
      eapply sound_bind; [apply sound_get | intros ? _]
  | |- sound _ _ (bind (chain_by_position _) _) _ =>
      eapply sound_bind; [apply sound_chain_by_position | intros ? _]
  | |- sound _ _ (bind (checked_mixer_chan _) _) _ =>
      eapply sound_bind; [apply sound_checked_mixer_chan | intros ? ?]
  | |- sound _ _ (bind the_zynmixer _) _ =>
      eapply sound_bind; [apply sound_the_zynmixer | intros ? _]
  | |- sound _ _ (bind _ _) _ =>
      eapply (sound_bind _ _ _ _ (λ _, True)); [ | intros ? _]
  | |- sound _ _ (if ?b then _ else _) _ => destruct b eqn:?
  | |- sound _ _ (match ?x with _ => _ end) _ => destruct x eqn:?
  | |- sound _ _ (set_self _) _ => apply sound_set_self
  | |- sound _ _ (emit _) _ => apply sound_emit
  | |- sound _ _ (mixer_set_level _ _) _ => apply sound_mixer_set_level
  | |- sound _ _ (update_button_leds _) _ => apply sound_update_button_leds
  end.

Lemma mk4_control_change_sound ev now chan ccnum ccval :
  0 ≤ chan ≤ 15 → 0 ≤ ccnum ≤ 127 → 0 ≤ ccval ≤ 127 →
  sound mk4_inv (call_ok ev) (Mk4.control_change now chan ccnum ccval) (λ _, True).
Proof.
  intros Hchan Hcc Hval.
  unfold Mk4.control_change, Mk4.knob, Mk4.bank_button, Mk4.hold_button,
    Mk4.mixer_knob, Mk4.zynpot_knob.
  cbv zeta. repeat sound_step.
  all: lazymatch goal with
       | |- mk4_inv (Mk4.set_mixer_synced ∅ _) =>
           apply mk4_inv_turn; [done | apply mod3_range]
       | |- mk4_inv (Mk4.set_shift _ _) => by apply mk4_inv_shift
       | |- mk4_inv (Mk4.set_press_times (<[_ := _]> _) _) =>
           apply mk4_inv_press; [done | bools; lia]
       | |- mk4_inv (Mk4.set_press_times (delete _ _) _) =>
           by apply mk4_inv_release
       | |- mk4_inv (Mk4.set_mixer_synced (<[_ := _]> _) _) =>
           apply mk4_inv_synced; [done | bools; lia]
       | |- mk4_inv (Mk4.set_last_zynpot_values _ _) =>
           apply mk4_inv_last; [done | bools; lia | lia]
       | |- _ => idtac
       end.
  all: lazymatch goal with
       | |- call_ok _ (send_cuia (if ?b then _ else _) None) =>
           destruct b; simpl; unfold plain_commands; by repeat constructor
       | |- call_ok _ (send_cuia "ZYNSWITCH" _) =>
           simpl; split; [done|]; split;
           [first [lia | apply zynswitch_index_range] | apply hold_kind_in]
       | |- call_ok _ (send_cuia "ZYNPOT" (Some [_; PInt (Mk4.wrap_delta (_ - ?z))])) =>
           assert (0 ≤ z ≤ 127) by (by eapply mk4_inv_last_lookup);
           simpl; bools; split; [done|]; split; [lia|]; split;
           [apply wrap_delta_range; lia | done]
       | |- call_ok _ (send_cuia ?s None) =>
           first [ is_var s; simpl;
                   match goal with
                   | H : (if ?b then _ else _) = Some s |- _ =>
                       destruct b; [|done];
                       by eapply mk4_button_command_plain
                   end
                 | simpl; unfold plain_commands; by repeat constructor ]
       | |- call_ok _ (dev_send_ccontrol_change _ _ _ _) =>
           simpl; split; [done|]; split; [lia | by right]
       | |- call_ok _ (set_level _ _) =>
           split; [by bools | apply knob_level_unit; lia]
       | |- call_ok _ (write_zynmidi _) =>
           right; eexists _, _, _; split; [done|]; bools; lia
       end.
Qed.

Lemma mini_control_change_sound ev now chan ccnum ccval :
  0 ≤ chan ≤ 15 → 0 ≤ ccnum ≤ 127 → 0 ≤ ccval ≤ 127 →
  sound mini_inv (call_ok ev) (Mini.control_change now chan ccnum ccval)
    (λ _, True).
Proof.
  intros Hchan Hcc Hval.
  unfold Mini.control_change, Mini.knob, Mini.bank_button, Mini.hold_button,
    Mini.mixer_knob, Mini.zynpot_knob, Mini.select_back_knob, Mini.arrow_knob.
  cbv zeta. repeat sound_step.
  all: lazymatch goal with
       | |- mini_inv (Mini.set_knob_bank _ _) =>
           apply mini_inv_bank; [done | apply mod3_range]
       | |- mini_inv (Mini.set_shift _ _) => by apply mini_inv_shift
       | |- mini_inv (Mini.set_last_select_back_time _ _) =>
           by apply mini_inv_stamp
       | |- mini_inv (Mini.set_press_times (<[_ := _]> _) _) =>
           apply mini_inv_press; [done | bools; lia]
       | |- mini_inv (Mini.set_press_times (delete _ _) _) =>
           by apply mini_inv_release
       | |- _ => idtac
       end.
  all: lazymatch goal with
       | |- call_ok _ (send_cuia (if ?b then _ else _) None) =>
           destruct b; simpl; unfold plain_commands; by repeat constructor
       | |- call_ok _ (send_cuia "ZYNSWITCH" _) =>
           simpl; split; [done|]; split;
           [first [lia | apply zynswitch_index_range]
           |first [apply hold_kind_in | by repeat constructor]]
       | |- call_ok _ (send_cuia "ZYNPOT" _) =>
           pose proof (relative_delta_range ccval Hval);
           simpl; bools; split; [done|]; split; [lia|]; split; [lia|done]
       | |- call_ok _ (send_cuia ?s None) =>
           first [ is_var s; simpl;
                   match goal with
                   | H : (if ?b then _ else _) = Some s |- _ =>
                       destruct b; [|done];
                       by eapply mini_button_command_plain
                   end
                 | simpl; unfold plain_commands; by repeat constructor ]
       | |- call_ok _ (dev_send_ccontrol_change _ _ _ _) =>
           simpl; split; [done|]; split; [lia | by right]
       | |- call_ok _ (set_level _ _) =>
           split; [by bools | apply clamp_unit_level]
       | |- call_ok _ (write_zynmidi _) =>
           right; eexists _, _, _; split; [done|]; bools; lia
       end.
Qed.

Lemma nibble_range (b : Z) : 0 ≤ Z.land b 0x0F ≤ 15.
Proof.
  replace (Z.land b 15) with (b `mod` 16)
    by (symmetry; apply (Z.land_ones b 4); lia).
  pose proof (Z.mod_pos_bound b 16). lia.
Qed.

Lemma data7_bounds (b : Z) : 0 ≤ Z.land b 0x7F ≤ 127.
Proof. pose proof (data7_range b). unfold data7 in *. lia. Qed.

Lemma mk4_midi_event_sound now ev :
  sound mk4_inv (call_ok ev) (Mk4.midi_event now ev) (λ _, True).
Proof.
  unfold Mk4.midi_event. cbv zeta.
  repeat first
    [ apply mk4_control_change_sound;
      [apply nibble_range | apply data7_bounds | apply data7_bounds]
    | apply sound_pad_note; lia
    | sound_step ].
  - simpl. by left.
  - simpl. pose proof (data7_bounds a0). lia.
Qed.

Lemma mini_midi_event_sound now ev :
  sound mini_inv (call_ok ev) (Mini.midi_event now ev) (λ _, True).
Proof.
  unfold Mini.midi_event. cbv zeta.
  repeat first
    [ apply mini_control_change_sound;
      [apply nibble_range | apply data7_bounds | apply data7_bounds]
    | apply sound_pad_note; lia
    | sound_step ].
  - simpl. by left.
  - simpl. pose proof (data7_bounds a0). lia.
Qed.

Lemma mk4_inv_init : mk4_inv Mk4.init.
Proof.
  unfold mk4_inv, Mk4.init. simpl.
  split; [lia|]. split_and!; apply map_Forall_empty.
Qed.

Lemma mini_inv_init : mini_inv Mini.init.
Proof.
  unfold mini_inv, Mini.init. simpl. split; [lia|]. apply map_Forall_empty.
Qed.

Lemma mk4_refresh_sound ev :
  sound mk4_inv (call_ok ev) Mk4.refresh (λ _, True).
Proof.
  unfold Mk4.refresh.
  eapply sound_bind; [apply sound_get_self|]. intros d (Hb & Hs & Hl & Hp).
  eapply (sound_bind _ _ _ _ (λ _, True)).
  - apply sound_set_self. unfold mk4_inv. simpl.
    split; [done|]. split; [apply map_Forall_empty|done].
  - intros _ _. apply sound_update_pad_leds; lia.
Qed.

(** X1.  The pickup driver keeps its fields in shape.  [__init__] sets them
    so that the bank is 0, 1 or 2, only mixer knobs (CC 21..26) are marked
    synced, recorded raw values belong to ZYNPOT knobs (CC 21..24) and are
    within 0..127, and press times belong to hold buttons; every
    [midi_event], whatever the message and whatever the host answers or
    raises, and every [refresh] keep it so, and so does any run of events. *)
Theorem mk4_fields_stay_in_shape :
  mk4_inv Mk4.init
  ∧ (∀ now ev (w : world Mk4.driver),
        mk4_inv (self w) → mk4_inv (self (snd (Mk4.midi_event now ev w))))
  ∧ (∀ w : world Mk4.driver,
        mk4_inv (self w) → mk4_inv (self (snd (Mk4.refresh w))))
  ∧ (∀ evs (w : world Mk4.driver),
        mk4_inv (self w) → mk4_inv (self (mk4_events evs w))).
Proof.
  split; [apply mk4_inv_init|]. split; [|split].
  - intros now ev w Hw. by apply (mk4_midi_event_sound now ev w).
  - intros w Hw. by apply (mk4_refresh_sound [] w).
  - induction evs as [|[now ev] evs IH]; intros w Hw; simpl; [done|].
    apply IH. by apply (mk4_midi_event_sound now ev w).
Qed.

Lemma mk4_fields_stay_in_shape_witness :
  let w := mk4_events [(0%float, [0xB0; 51; 127]); (0%float, [0xB0; 51; 127]);
                       (0%float, [0xB0; 22; 300]); (0%float, [0x90])]
             (example_world Mk4.init) in
  mk4_inv (self (example_world Mk4.init))
  ∧ mk4_inv (self w)
  ∧ Mk4.knob_bank (self w) = 1
  ∧ Mk4.last_zynpot_values (self w) !! 22 = Some 44.
Proof.
  intros w.
  destruct mk4_fields_stay_in_shape as (Hinit & _ & _ & Hruns).
  split; [exact Hinit|]. split; [apply Hruns; exact Hinit|].
  split; vm_compute; reflexivity.
Defined.

(** X2.  The transport driver keeps its fields in shape: from [__init__]
    on, through every [midi_event], whatever the message and the host, and
    through the notification callbacks, the bank is 0, 1 or 2 and press times
    belong to hold buttons (CC 74..77, 104). *)
Theorem mini_fields_stay_in_shape :
  mini_inv Mini.init
  ∧ (∀ now ev (w : world Mini.driver),
        mini_inv (self w) → mini_inv (self (snd (Mini.midi_event now ev w))))
  ∧ (∀ (w : world Mini.driver) chan symbol value screen,
        self (snd (Mini.refresh w)) = self w
        ∧ self (snd (Mini.update_mixer_strip chan symbol value w)) = self w
        ∧ self (snd (Mini.on_screen_change screen w)) = self w)
  ∧ (∀ evs (w : world Mini.driver),
        mini_inv (self w) → mini_inv (self (mini_events evs w))).
Proof.
  split; [apply mini_inv_init|]. split; [|split].
  - intros now ev w Hw. by apply (mini_midi_event_sound now ev w).
  - intros w chan symbol value screen.
    unfold Mini.refresh, Mini.on_screen_change, Mini.update_mixer_strip,
      Mini.update_pad_leds.
    destruct (bool_decide _); by rewrite ?update_pad_leds_run.
  - induction evs as [|[now ev] evs IH]; intros w Hw; simpl; [done|].
    apply IH. by apply (mini_midi_event_sound now ev w).
Qed.

Lemma mini_fields_stay_in_shape_witness :
  let w := mini_events [(0%float, [0xB0; 52; 127]); (0%float, [0xB0; 52; 1]);
                        (5%float, [0xB0; 74; 127]); (0%float, [0xB0; 85])]
             (example_world Mini.init) in
  mini_inv (self (example_world Mini.init))
  ∧ mini_inv (self w)
  ∧ Mini.knob_bank (self w) = 0
  ∧ Mini.press_times (self w) !! 74 = Some 5%float.
Proof.
  intros w.
  destruct mini_fields_stay_in_shape as (Hinit & _ & _ & Hruns).
  split; [exact Hinit|]. split; [apply Hruns; exact Hinit|].
  split; vm_compute; reflexivity.
Defined.

(** X3.  Whatever message the pickup driver handles and whatever the host
    does, the calls it makes are well formed: an action without arguments is
    one of the twelve plain commands; ZYNSWITCH goes to switch 0..3 with kind
    S, B or L; ZYNPOT goes to pot 0..3 with a nonzero delta within -64..64;
    LED messages are on channel 0 with 7-bit data; mixer levels are within
    [0.0, 1.0] and solo and mute flags are 0 or 1, on a channel below 17; a
    selected bank is within 1..128; forwarded MIDI is the message itself or a
    three-byte control change on CC 20..31 with a 7-bit value and a channel
    0..15.  Calls are only ever appended. *)
Theorem mk4_calls_are_well_formed now ev (w : world Mk4.driver) :
  mk4_inv (self w) →
  ∃ es, out (snd (Mk4.midi_event now ev w)) = out w ++ es
        ∧ Forall (call_ok ev) es.
Proof. intros Hw. by apply (mk4_midi_event_sound now ev w). Qed.

Lemma mk4_calls_are_well_formed_witness :
  mk4_inv (self (example_world (Mk4.Driver false ∅ 1 ∅ {[21 := 120]})))
  ∧ ∃ es, out (snd (Mk4.midi_event 0 [0xB0; 21; 3]
                      (example_world (Mk4.Driver false ∅ 1 ∅ {[21 := 120]}))))
          = [] ++ es
          ∧ Forall (call_ok [0xB0; 21; 3]) es.
Proof.
  assert (Hinv : mk4_inv (Mk4.Driver false ∅ 1 ∅ {[21 := 120]})).
  { unfold mk4_inv. simpl. split; [lia|].
    split; [apply map_Forall_empty|].
    split; [apply map_Forall_singleton; lia | apply map_Forall_empty]. }
  split; [exact Hinv|].
  exact (mk4_calls_are_well_formed 0 [0xB0; 21; 3]
           (example_world (Mk4.Driver false ∅ 1 ∅ {[21 := 120]})) Hinv).
Defined.



(** ** Pad presses *)

Lemma mixer_set_solo_run {D} ch v (w : world D) :
  has_zynmixer w = true →
  mixer_set_solo ch v w
  = (Ok tt,
     with_out (out w ++ [set_solo ch v])
       (with_zynmixer (set_solo_in ch v (zynmixer w)) w)).
Proof.
  intros Hzm. unfold mixer_set_solo, bind. by rewrite the_zynmixer_run.
Qed.

Lemma mixer_set_mute_run {D} ch v (w : world D) :
  has_zynmixer w = true →
  mixer_set_mute ch v w
  = (Ok tt,
     with_out (out w ++ [set_mute ch v])
       (with_zynmixer (set_mute_in ch v (zynmixer w)) w)).
Proof.
  intros Hzm. unfold mixer_set_mute, bind. by rewrite the_zynmixer_run.
Qed.

Lemma resolve_pad_inv {D} (w : world D) i ch :
  resolve_pad w i = Some ch →
  has_chain_manager w = true
  ∧ ∃ c, get_chain_by_position (chain_manager w) i = Found c
         ∧ mixer_chan c = Val ch ∧ ch < 17.
Proof.
  unfold resolve_pad. destruct (has_chain_manager w); [|done].
  destruct (get_chain_by_position (chain_manager w) i) as [| |c]; try done.
  destruct (mixer_chan c) as [| |ch'] eqn:Hc; try done.
  destruct (Z.ltb_spec ch' 17); [|done]. intros [= ->].
  split; [done|]. by exists c.
Qed.

Lemma pad_note_solo_run {D} on off note vel ch (w : world D) :
  96 ≤ note ≤ 103 → 0 < vel →
  resolve_pad w (note - 96) = Some ch → has_zynmixer w = true →
  pad_note on off 0x9 note vel w
  = (Ok tt,
     with_out (out w ++ set_solo ch (toggled (get_solo (zynmixer w) ch))
                     :: pad_led_writes on off (press_solo ch w))
       (press_solo ch w)).
Proof.
  intros [H1%Z.leb_le H2%Z.leb_le] Hv%Z.ltb_lt
    (Hcm & c & Hchain & Hchan & Hch)%resolve_pad_inv Hzm.
  unfold pad_note. rewrite H1, H2, Hv. simpl.
  rewrite (checked_lookup_run _ c ch) by done.
  unfold bind at 1. rewrite the_zynmixer_run by done.
  unfold bind at 1. rewrite mixer_set_solo_run by done.
  rewrite update_pad_leds_run. simpl. by rewrite <- app_assoc.
Qed.

Lemma pad_note_mute_run {D} on off note vel ch (w : world D) :
  112 ≤ note ≤ 119 → 0 < vel →
  resolve_pad w (note - 112) = Some ch → has_zynmixer w = true →
  pad_note on off 0x9 note vel w
  = (Ok tt,
     with_out (out w ++ set_mute ch (toggled (get_mute (zynmixer w) ch))
                     :: pad_led_writes on off (press_mute ch w))
       (press_mute ch w)).
Proof.
  intros [H1 H2] Hv%Z.ltb_lt
    (Hcm & c & Hchain & Hchan & Hch)%resolve_pad_inv Hzm.
  unfold pad_note.
  replace (note <=? 103) with false by (symmetry; apply Z.leb_gt; lia).
  apply Z.leb_le in H1, H2. rewrite H1, H2, Hv, andb_false_r. simpl.
  rewrite (checked_lookup_run _ c ch) by done.
  unfold bind at 1. rewrite the_zynmixer_run by done.
  unfold bind at 1. rewrite mixer_set_mute_run by done.
  rewrite update_pad_leds_run. simpl. by rewrite <- app_assoc.
Qed.

Lemma truthy_toggled v : truthy (toggled v) = negb (truthy v).
Proof. unfold toggled. by destruct (truthy v). Qed.

Lemma pressed_solo_velocity {D} on off i ch (w : world D) :
  resolve_pad w i = Some ch → has_zynmixer w = true →
  pad_velocity (press_solo ch w) get_solo on off i
  = if truthy (get_solo (zynmixer w) ch) then off else on.
Proof.
  intros Hres Hzm. unfold pad_velocity, press_solo, resolve_pad in *. simpl.
  rewrite Hres, Hzm. rewrite fn_lookup_insert, truthy_toggled.
  by destruct (truthy _).
Qed.

Lemma pressed_mute_velocity {D} i ch (w : world D) :
  resolve_pad w i = Some ch → has_zynmixer w = true →
  pad_velocity (press_mute ch w) get_mute 5 64 i
  = if truthy (get_mute (zynmixer w) ch) then 64 else 5.
Proof.
  intros Hres Hzm. unfold pad_velocity, press_mute, resolve_pad in *. simpl.
  rewrite Hres, Hzm. rewrite fn_lookup_insert, truthy_toggled.
  by destruct (truthy _).
Qed.

(** X5.  A press of a solo pad (note-on with velocity above 0 on notes
    96..103) whose position resolves to a mixer channel toggles that
    channel's solo flag with one [set_solo] call, 0 over a true value and 1
    over a false one, then rewrites all pad LEDs from the mixer as it is
    after the toggle, so the pressed pad shows the new state; the event is
    handled and the driver's fields are untouched. *)
Theorem solo_pad_press now ev0 ev1 ev2 rest ch :
  evtype ev0 = 0x9 → 96 ≤ data7 ev1 ≤ 103 → 0 < data7 ev2 →
  let ev := ev0 :: ev1 :: ev2 :: rest in
  let i := data7 ev1 - 96 in
  (∀ w : world Mk4.driver,
      resolve_pad w i = Some ch → has_zynmixer w = true →
      let flag := get_solo (zynmixer w) ch in
      Mk4.midi_event now ev w
      = (Ok true,
         with_out (out w ++ set_solo ch (if truthy flag then 0 else 1)
                         :: pad_led_writes 5 10 (press_solo ch w))
           (press_solo ch w))
      ∧ get_solo (zynmixer (press_solo ch w)) ch = (if truthy flag then 0 else 1)
      ∧ pad_velocity (press_solo ch w) get_solo 5 10 i
        = (if truthy flag then 10 else 5))
  ∧ (∀ w : world Mini.driver,
      resolve_pad w i = Some ch → has_zynmixer w = true →
      let flag := get_solo (zynmixer w) ch in
      Mini.midi_event now ev w
      = (Ok true,
         with_out (out w ++ set_solo ch (if truthy flag then 0 else 1)
                         :: pad_led_writes 14 118 (press_solo ch w))
           (press_solo ch w))
      ∧ get_solo (zynmixer (press_solo ch w)) ch = (if truthy flag then 0 else 1)
      ∧ pad_velocity (press_solo ch w) get_solo 14 118 i
        = (if truthy flag then 118 else 14)).
Proof.
  intros Hty Hnote Hvel ev i. subst ev i.
  assert (Hn : is_note ev0 = true) by (unfold is_note; by rewrite Hty).
  assert (Hp : is_pad (data7 ev1) = true) by (apply is_pad_true; lia).
  split; intros w Hres Hzm flag; subst flag; (split; [|split]).
  - rewrite mk4_midi_event_note, Hp, Hty by done.
    unfold bind. by rewrite (pad_note_solo_run _ _ _ _ ch).
  - unfold press_solo, set_solo_in. simpl. by rewrite fn_lookup_insert.
  - by apply pressed_solo_velocity.
  - rewrite mini_midi_event_note, Hp, Hty by done.
    unfold bind. by rewrite (pad_note_solo_run _ _ _ _ ch).
  - unfold press_solo, set_solo_in. simpl. by rewrite fn_lookup_insert.
  - by apply pressed_solo_velocity.
Qed.

Lemma solo_pad_press_witness :
  evtype 0x90 = 0x9 ∧ 96 ≤ data7 96 ≤ 103 ∧ 0 < data7 100
  ∧ resolve_pad (example_world Mk4.init) (data7 96 - 96) = Some 0
  ∧ drop 1 (out (snd (Mk4.midi_event 0 [0x90; 96; 100] (example_world Mk4.init))))
    = pad_led_writes 5 10 (press_solo 0 (example_world Mk4.init))
  ∧ pad_velocity (press_solo 0 (example_world Mk4.init)) get_solo 5 10 0 = 5.
Proof.
  assert (H1 : evtype 0x90 = 0x9) by reflexivity.
  assert (H2 : 96 ≤ data7 96 ≤ 103) by (vm_compute; split; discriminate).
  assert (H3 : 0 < data7 100) by reflexivity.
  assert (H4 : resolve_pad (example_world Mk4.init) (data7 96 - 96) = Some 0)
    by reflexivity.
  destruct (proj1 (solo_pad_press 0 0x90 96 100 [] 0 H1 H2 H3)
              (example_world Mk4.init) H4 eq_refl) as (Hrun & _ & Hled).
  split; [exact H1|]. split; [exact H2|]. split; [exact H3|].
  split; [exact H4|]. split; [by rewrite Hrun | exact Hled].
Defined.

(** X6.  A press of a mute pad (note-on with velocity above 0 on notes
    112..119) whose position resolves toggles that channel's mute flag with
    one [set_mute] call and rewrites all pad LEDs from the mixer after the
    toggle: the pressed pad is written 5 when the channel has become muted
    and 64 when it has become unmuted, in both drivers. *)
Theorem mute_pad_press now ev0 ev1 ev2 rest ch :
  evtype ev0 = 0x9 → 112 ≤ data7 ev1 ≤ 119 → 0 < data7 ev2 →
  let ev := ev0 :: ev1 :: ev2 :: rest in
  let i := data7 ev1 - 112 in
  (∀ w : world Mk4.driver,
      resolve_pad w i = Some ch → has_zynmixer w = true →
      let flag := get_mute (zynmixer w) ch in
      Mk4.midi_event now ev w
      = (Ok true,
         with_out (out w ++ set_mute ch (if truthy flag then 0 else 1)
                         :: pad_led_writes 5 10 (press_mute ch w))
           (press_mute ch w))
      ∧ get_mute (zynmixer (press_mute ch w)) ch = (if truthy flag then 0 else 1)
      ∧ pad_velocity (press_mute ch w) get_mute 5 64 i
        = (if truthy flag then 64 else 5))
  ∧ (∀ w : world Mini.driver,
      resolve_pad w i = Some ch → has_zynmixer w = true →
      let flag := get_mute (zynmixer w) ch in
      Mini.midi_event now ev w
      = (Ok true,
         with_out (out w ++ set_mute ch (if truthy flag then 0 else 1)
                         :: pad_led_writes 14 118 (press_mute ch w))
           (press_mute ch w))
      ∧ get_mute (zynmixer (press_mute ch w)) ch = (if truthy flag then 0 else 1)
      ∧ pad_velocity (press_mute ch w) get_mute 5 64 i
        = (if truthy flag then 64 else 5)).
Proof.
  intros Hty Hnote Hvel ev i. subst ev i.
  assert (Hn : is_note ev0 = true) by (unfold is_note; by rewrite Hty).
  assert (Hp : is_pad (data7 ev1) = true) by (apply is_pad_true; lia).
  split; intros w Hres Hzm flag; subst flag; (split; [|split]).
  - rewrite mk4_midi_event_note, Hp, Hty by done.
    unfold bind. by rewrite (pad_note_mute_run _ _ _ _ ch).
  - unfold press_mute, set_mute_in. simpl. by rewrite fn_lookup_insert.
  - by apply pressed_mute_velocity.
  - rewrite mini_midi_event_note, Hp, Hty by done.
    unfold bind. by rewrite (pad_note_mute_run _ _ _ _ ch).
  - unfold press_mute, set_mute_in. simpl. by rewrite fn_lookup_insert.
  - by apply pressed_mute_velocity.
Qed.

Lemma mute_pad_press_witness :
  evtype 0x90 = 0x9 ∧ 112 ≤ data7 112 ≤ 119 ∧ 0 < data7 1
  ∧ resolve_pad (example_world Mini.init) (data7 112 - 112) = Some 0
  ∧ take 1 (out (snd (Mini.midi_event 0 [0x90; 112; 1] (example_world Mini.init))))
    = [set_mute 0 1]
  ∧ pad_velocity (press_mute 0 (example_world Mini.init)) get_mute 5 64 0 = 5.
Proof.
  assert (H1 : evtype 0x90 = 0x9) by reflexivity.
  assert (H2 : 112 ≤ data7 112 ≤ 119) by (vm_compute; split; discriminate).
  assert (H3 : 0 < data7 1) by reflexivity.
  assert (H4 : resolve_pad (example_world Mini.init) (data7 112 - 112) = Some 0)
    by reflexivity.
  destruct (proj2 (mute_pad_press 0 0x90 112 1 [] 0 H1 H2 H3)
              (example_world Mini.init) H4 eq_refl) as (Hrun & _ & Hled).
  split; [exact H1|]. split; [exact H2|]. split; [exact H3|].
  split; [exact H4|]. split; [by rewrite Hrun | exact Hled].
Defined.

Lemma toggled_twice v : toggled (toggled v) = if truthy v then 1 else 0.
Proof. unfold toggled. by destruct (truthy v). Qed.

Lemma press_solo_twice_velocity {D} state on off ch i (w : world D) :
  state = get_solo ∨ state = get_mute →
  pad_velocity (press_solo ch (press_solo ch w)) state on off i
  = pad_velocity w state on off i.
Proof.
  intros Hst. unfold pad_velocity.
  change (resolve_pad (press_solo ch (press_solo ch w)) i)
    with (resolve_pad w i).
  change (has_zynmixer (press_solo ch (press_solo ch w)))
    with (has_zynmixer w).
  destruct (resolve_pad w i) as [c|]; [|done].
  destruct (has_zynmixer w); [|done].
  destruct Hst as [-> | ->]; [|done].
  unfold press_solo, set_solo_in. simpl.
  destruct (decide (c = ch)) as [->|Hne].
  - by rewrite !fn_lookup_insert, !truthy_toggled, negb_involutive.
  - by rewrite !fn_lookup_insert_ne.
Qed.

Lemma press_mute_twice_velocity {D} state on off ch i (w : world D) :
  state = get_solo ∨ state = get_mute →
  pad_velocity (press_mute ch (press_mute ch w)) state on off i
  = pad_velocity w state on off i.
Proof.
  intros Hst. unfold pad_velocity.
  change (resolve_pad (press_mute ch (press_mute ch w)) i)
    with (resolve_pad w i).
  change (has_zynmixer (press_mute ch (press_mute ch w)))
    with (has_zynmixer w).
  destruct (resolve_pad w i) as [c|]; [|done].
  destruct (has_zynmixer w); [|done].
  destruct Hst as [-> | ->]; [done|].
  unfold press_mute, set_mute_in. simpl.
  destruct (decide (c = ch)) as [->|Hne].
  - by rewrite !fn_lookup_insert, !truthy_toggled, negb_involutive.
  - by rewrite !fn_lookup_insert_ne.
Qed.

Lemma press_solo_twice_leds {D} on off ch (w : world D) :
  pad_led_writes on off (press_solo ch (press_solo ch w))
  = pad_led_writes on off w.
Proof.
  unfold pad_led_writes.
  change (idev_out (press_solo ch (press_solo ch w))) with (idev_out w).
  change (has_chain_manager (press_solo ch (press_solo ch w)))
    with (has_chain_manager w).
  change (has_zynmixer (press_solo ch (press_solo ch w)))
    with (has_zynmixer w).
  destruct (idev_out w); [|done]. destruct (_ || _); [done|].
  f_equal; apply list_fmap_ext; intros _ i _;
    rewrite press_solo_twice_velocity; auto.
Qed.

Lemma press_mute_twice_leds {D} on off ch (w : world D) :
  pad_led_writes on off (press_mute ch (press_mute ch w))
  = pad_led_writes on off w.
Proof.
  unfold pad_led_writes.
  change (idev_out (press_mute ch (press_mute ch w))) with (idev_out w).
  change (has_chain_manager (press_mute ch (press_mute ch w)))
    with (has_chain_manager w).
  change (has_zynmixer (press_mute ch (press_mute ch w)))
    with (has_zynmixer w).
  destruct (idev_out w); [|done]. destruct (_ || _); [done|].
  f_equal; apply list_fmap_ext; intros _ i _;
    rewrite press_mute_twice_velocity; auto.
Qed.

Lemma press_solo_twice_flags {D} ch (w : world D) :
  flags_restored (get_solo (zynmixer w))
    (get_solo (zynmixer (press_solo ch (press_solo ch w)))) ch.
Proof.
  unfold flags_restored, press_solo, set_solo_in. simpl. split.
  - by rewrite !fn_lookup_insert, toggled_twice.
  - intros ch' Hne. by rewrite !fn_lookup_insert_ne.
Qed.

Lemma press_mute_twice_flags {D} ch (w : world D) :
  flags_restored (get_mute (zynmixer w))
    (get_mute (zynmixer (press_mute ch (press_mute ch w)))) ch.
Proof.
  unfold flags_restored, press_mute, set_mute_in. simpl. split.
  - by rewrite !fn_lookup_insert, toggled_twice.
  - intros ch' Hne. by rewrite !fn_lookup_insert_ne.
Qed.

Lemma pad_note_solo_twice {D} on off note vel ch (w : world D) :
  96 ≤ note ≤ 103 → 0 < vel →
  resolve_pad w (note - 96) = Some ch → has_zynmixer w = true →
  let flag := get_solo (zynmixer w) ch in
  let w1 := snd ((run pad_note on off 0x9 note vel; ret true) w) in
  (run pad_note on off 0x9 note vel; ret true) w1
  = (Ok true,
     with_out (out w ++ (set_solo ch (toggled flag)
                           :: pad_led_writes on off (press_solo ch w))
                     ++ set_solo ch (toggled (toggled flag))
                           :: pad_led_writes on off w)
       (press_solo ch (press_solo ch w))).
Proof.
  intros Hnote Hvel Hres Hzm flag w1. subst flag w1.
  unfold bind at 2. rewrite (pad_note_solo_run _ _ _ _ ch) by done. simpl.
  unfold bind. rewrite (pad_note_solo_run _ _ _ _ ch) by done. simpl.
  rewrite <- (press_solo_twice_leds on off ch w).
  rewrite fn_lookup_insert, <- app_assoc. reflexivity.
Qed.

Lemma pad_note_mute_twice {D} on off note vel ch (w : world D) :
  112 ≤ note ≤ 119 → 0 < vel →
  resolve_pad w (note - 112) = Some ch → has_zynmixer w = true →
  let flag := get_mute (zynmixer w) ch in
  let w1 := snd ((run pad_note on off 0x9 note vel; ret true) w) in
  (run pad_note on off 0x9 note vel; ret true) w1
  = (Ok true,
     with_out (out w ++ (set_mute ch (toggled flag)
                           :: pad_led_writes on off (press_mute ch w))
                     ++ set_mute ch (toggled (toggled flag))
                           :: pad_led_writes on off w)
       (press_mute ch (press_mute ch w))).
Proof.
  intros Hnote Hvel Hres Hzm flag w1. subst flag w1.
  unfold bind at 2. rewrite (pad_note_mute_run _ _ _ _ ch) by done. simpl.
  unfold bind. rewrite (pad_note_mute_run _ _ _ _ ch) by done. simpl.
  rewrite <- (press_mute_twice_leds on off ch w).
  rewrite fn_lookup_insert, <- app_assoc. reflexivity.
Qed.

(** X7.  Two presses of the same resolving pad undo each other.  The flag
    of the pad's channel ends with its old truth value (as 0 or 1), every
    other channel, the levels and the driver's fields are as before, and the
    LED refresh after the second press writes exactly what a refresh would
    have written before the first; in between, the two toggles and the two
    refreshes are the only calls. *)
Theorem pad_pressed_twice t1 t2 ev0 ev1 ev2 rest ch :
  evtype ev0 = 0x9 → 0 < data7 ev2 →
  let ev := ev0 :: ev1 :: ev2 :: rest in
  let note := data7 ev1 in
  (96 ≤ note ≤ 103 →
   (∀ w : world Mk4.driver,
       resolve_pad w (note - 96) = Some ch → has_zynmixer w = true →
       let flag := get_solo (zynmixer w) ch in
       mk4_events [(t1, ev); (t2, ev)] w
       = with_out (out w ++ (set_solo ch (toggled flag)
                               :: pad_led_writes 5 10 (press_solo ch w))
                         ++ set_solo ch (toggled (toggled flag))
                               :: pad_led_writes 5 10 w)
           (press_solo ch (press_solo ch w)))
   ∧ (∀ w : world Mini.driver,
       resolve_pad w (note - 96) = Some ch → has_zynmixer w = true →
       let flag := get_solo (zynmixer w) ch in
       mini_events [(t1, ev); (t2, ev)] w
       = with_out (out w ++ (set_solo ch (toggled flag)
                               :: pad_led_writes 14 118 (press_solo ch w))
                         ++ set_solo ch (toggled (toggled flag))
                               :: pad_led_writes 14 118 w)
           (press_solo ch (press_solo ch w))))
  ∧ (112 ≤ note ≤ 119 →
     (∀ w : world Mk4.driver,
         resolve_pad w (note - 112) = Some ch → has_zynmixer w = true →
         let flag := get_mute (zynmixer w) ch in
         mk4_events [(t1, ev); (t2, ev)] w
         = with_out (out w ++ (set_mute ch (toggled flag)
                                 :: pad_led_writes 5 10 (press_mute ch w))
                           ++ set_mute ch (toggled (toggled flag))
                                 :: pad_led_writes 5 10 w)
             (press_mute ch (press_mute ch w)))
     ∧ (∀ w : world Mini.driver,
         resolve_pad w (note - 112) = Some ch → has_zynmixer w = true →
         let flag := get_mute (zynmixer w) ch in
         mini_events [(t1, ev); (t2, ev)] w
         = with_out (out w ++ (set_mute ch (toggled flag)
                                 :: pad_led_writes 14 118 (press_mute ch w))
                           ++ set_mute ch (toggled (toggled flag))
                                 :: pad_led_writes 14 118 w)
             (press_mute ch (press_mute ch w))))
  ∧ (∀ D (w : world D),
        flags_restored (get_solo (zynmixer w))
          (get_solo (zynmixer (press_solo ch (press_solo ch w)))) ch
        ∧ get_mute (zynmixer (press_solo ch (press_solo ch w)))
          = get_mute (zynmixer w)
        ∧ flags_restored (get_mute (zynmixer w))
            (get_mute (zynmixer (press_mute ch (press_mute ch w)))) ch
        ∧ get_solo (zynmixer (press_mute ch (press_mute ch w)))
          = get_solo (zynmixer w)
        ∧ self (press_solo ch (press_solo ch w)) = self w
        ∧ self (press_mute ch (press_mute ch w)) = self w).
Proof.
  intros Hty Hvel ev note. subst ev note.
  assert (Hn : is_note ev0 = true) by (unfold is_note; by rewrite Hty).
  split; [|split].
  - intros Hnote.
    assert (Hp : is_pad (data7 ev1) = true) by (apply is_pad_true; lia).
    split; intros w Hres Hzm flag; subst flag; simpl.
    + rewrite !mk4_midi_event_note, Hp, Hty by done.
      by rewrite (pad_note_solo_twice _ _ _ _ ch).
    + rewrite !mini_midi_event_note, Hp, Hty by done.
      by rewrite (pad_note_solo_twice _ _ _ _ ch).
  - intros Hnote.
    assert (Hp : is_pad (data7 ev1) = true) by (apply is_pad_true; lia).
    split; intros w Hres Hzm flag; subst flag; simpl.
    + rewrite !mk4_midi_event_note, Hp, Hty by done.
      by rewrite (pad_note_mute_twice _ _ _ _ ch).
    + rewrite !mini_midi_event_note, Hp, Hty by done.
      by rewrite (pad_note_mute_twice _ _ _ _ ch).
  - intros D w.
    split; [apply press_solo_twice_flags|]. split; [done|].
    split; [apply press_mute_twice_flags|]. done.
Qed.

Lemma pad_pressed_twice_witness :
  evtype 0x90 = 0x9 ∧ 0 < data7 100 ∧ 96 ≤ data7 96 ≤ 103
  ∧ zynmixer (mk4_events [(0%float, [0x90; 96; 100]); (1%float, [0x90; 96; 100])]
                (example_world Mk4.init))
    = zynmixer (press_solo 0 (press_solo 0 (example_world Mk4.init)))
  ∧ get_solo (zynmixer (press_solo 0 (press_solo 0 (example_world Mk4.init)))) 0
    = 0.
Proof.
  assert (H1 : evtype 0x90 = 0x9) by reflexivity.
  assert (H2 : 0 < data7 100) by reflexivity.
  assert (H3 : 96 ≤ data7 96 ≤ 103) by (vm_compute; split; discriminate).
  destruct (pad_pressed_twice 0 1 0x90 96 100 [] 0 H1 H2) as (Hsolo & _ & Hflags).
  split; [exact H1|]. split; [exact H2|]. split; [exact H3|]. split.
  - by rewrite (proj1 (Hsolo H3) (example_world Mk4.init) eq_refl eq_refl).
  - exact (proj1 (proj1 (Hflags _ (example_world Mk4.init)))).
Defined.

(** ** Pad events that do nothing, and presses that fail *)

Lemma pad_note_inert {D} on off ty note vel (w : world D) :
  ty ≠ 0x9 ∨ vel ≤ 0 ∨ 104 ≤ note ≤ 111 →
  pad_note on off ty note vel w = (Ok tt, w).
Proof.
  intros H. unfold pad_note.
  assert ((96 <=? note) && (note <=? 103) && (ty =? 9) && (0 <? vel) = false)
    as ->.
  { destruct H as [H|[H|H]].
    - apply Z.eqb_neq in H. rewrite H. by rewrite andb_false_r.
    - apply Z.ltb_ge in H. rewrite H. by rewrite andb_false_r.
    - replace (note <=? 103) with false by (symmetry; apply Z.leb_gt; lia).
      by rewrite andb_false_r. }
  assert ((112 <=? note) && (note <=? 119) && (ty =? 9) && (0 <? vel) = false)
    as ->.
  { destruct H as [H|[H|H]].
    - apply Z.eqb_neq in H. rewrite H. by rewrite andb_false_r.
    - apply Z.ltb_ge in H. rewrite H. by rewrite andb_false_r.
    - replace (112 <=? note) with false by (symmetry; apply Z.leb_gt; lia).
      done. }
  done.
Qed.

(** X8.  Pad events that are no press do nothing at all: a note-off on a
    pad note, a note-on with velocity 0, and any note event on notes
    104..111 (between the two rows) are reported handled and leave the
    driver, the mixer and the call trace as they were, without a single host
    lookup, so also on a host whose lookups raise. *)
Theorem inert_pad_events now ev0 ev1 ev2 rest :
  is_note ev0 = true → 96 ≤ data7 ev1 ≤ 119 →
  evtype ev0 = 0x8 ∨ data7 ev2 = 0 ∨ 104 ≤ data7 ev1 ≤ 111 →
  let ev := ev0 :: ev1 :: ev2 :: rest in
  (∀ w : world Mk4.driver, Mk4.midi_event now ev w = (Ok true, w))
  ∧ (∀ w : world Mini.driver, Mini.midi_event now ev w = (Ok true, w)).
Proof.
  intros Hn Hnote Hinert ev. subst ev.
  assert (Hp : is_pad (data7 ev1) = true) by (apply is_pad_true; lia).
  assert (Hi : evtype ev0 ≠ 0x9 ∨ data7 ev2 ≤ 0 ∨ 104 ≤ data7 ev1 ≤ 111).
  { destruct Hinert as [H|[H|H]]; [left; lia | right; left; lia | by do 2 right]. }
  split; intros w.
  - rewrite mk4_midi_event_note, Hp by done.
    unfold bind. by rewrite pad_note_inert.
  - rewrite mini_midi_event_note, Hp by done.
    unfold bind. by rewrite pad_note_inert.
Qed.

Lemma inert_pad_events_witness :
  is_note 0x80 = true ∧ 96 ≤ data7 96 ≤ 119
  ∧ Mk4.midi_event 0 [0x80; 96; 100]
      (World Mk4.init (Some 1) true true faulty_chains example_mixer [])
    = (Ok true, World Mk4.init (Some 1) true true faulty_chains example_mixer []).
Proof.
  assert (H1 : is_note 0x80 = true) by reflexivity.
  assert (H2 : 96 ≤ data7 96 ≤ 119) by (vm_compute; split; discriminate).
  split; [exact H1|]. split; [exact H2|].
  exact (proj1 (inert_pad_events 0 0x80 96 100 [] H1 H2 (or_introl eq_refl)) _).
Defined.

Lemma pad_note_press_lookup {D} on off note vel (w : world D) :
  96 ≤ note ≤ 103 ∨ 112 ≤ note ≤ 119 → 0 < vel →
  pad_note on off 0x9 note vel w
  = (do chain <- chain_by_position (pad_position note);
     do mc <- checked_mixer_chan chain;
     match mc with
     | Some mixer_chan =>
         if note <=? 103 then
           do m <- the_zynmixer;
           run mixer_set_solo mixer_chan
                 (if truthy (get_solo m mixer_chan) then 0 else 1);
           update_pad_leds on off
         else
           do m <- the_zynmixer;
           run mixer_set_mute mixer_chan
                 (if truthy (get_mute m mixer_chan) then 0 else 1);
           update_pad_leds on off
     | None => ret tt
     end) w.
Proof.
  intros Hnote Hv%Z.ltb_lt. unfold pad_note, pad_position. rewrite Hv.
  destruct Hnote as [[H1 H2]|[H1 H2]].
  - apply Z.leb_le in H1, H2. rewrite H1, H2. simpl.
    unfold bind. repeat case_match; done.
  - replace (note <=? 103) with false by (symmetry; apply Z.leb_gt; lia).
    apply Z.leb_le in H1, H2. rewrite H1, H2, andb_false_r. simpl.
    unfold bind. repeat case_match; done.
Qed.

Lemma pad_note_press_fails {D} on off note vel (w : world D) :
  96 ≤ note ≤ 103 ∨ 112 ≤ note ≤ 119 → 0 < vel →
  (has_chain_manager w = false →
   pad_note on off 0x9 note vel w = (Raise AttributeError, w))
  ∧ (has_chain_manager w = true →
     match get_chain_by_position (chain_manager w) (pad_position note) with
     | LookupRaises => pad_note on off 0x9 note vel w = (Raise HostError, w)
     | NoChain => pad_note on off 0x9 note vel w = (Ok tt, w)
     | Found c =>
         match mixer_chan c with
         | Missing =>
             pad_note on off 0x9 note vel w = (Raise AttributeError, w)
         | PyNone => pad_note on off 0x9 note vel w = (Ok tt, w)
         | Val ch =>
             if ch <? 17 then
               has_zynmixer w = false →
               pad_note on off 0x9 note vel w = (Raise AttributeError, w)
             else pad_note on off 0x9 note vel w = (Ok tt, w)
         end
     end).
Proof.
  intros Hnote Hvel. rewrite pad_note_press_lookup by done.
  unfold chain_by_position, checked_mixer_chan, the_zynmixer, bind, get, ret,
    raise.
  split; [by intros ->|]. intros ->.
  destruct (get_chain_by_position _ _) as [| |c]; try done.
  destruct (mixer_chan c) as [| |ch]; try done.
  destruct (ch <? 17); [|done]. intros Hzm.
  by destruct (note <=? 103); simpl; rewrite Hzm.
Qed.

(** X9.  A pad press is not shielded the way the LED refresh is.  When the
    chain lookup finds no chain, or the chain's [mixer_chan] is [None] or 17
    or more, the press is reported handled and nothing changes; when the
    driver has no chain manager, the lookup raises, the chain has no
    [mixer_chan] attribute, or the position resolves but the driver has no
    mixer, the exception leaves [midi_event], again with nothing changed and
    no call made. *)
Theorem pad_press_failures now ev0 ev1 ev2 rest :
  evtype ev0 = 0x9 → 0 < data7 ev2 →
  96 ≤ data7 ev1 ≤ 103 ∨ 112 ≤ data7 ev1 ≤ 119 →
  let ev := ev0 :: ev1 :: ev2 :: rest in
  let i := pad_position (data7 ev1) in
  (∀ w : world Mk4.driver,
      (has_chain_manager w = false →
       Mk4.midi_event now ev w = (Raise AttributeError, w))
      ∧ (has_chain_manager w = true →
         match get_chain_by_position (chain_manager w) i with
         | LookupRaises => Mk4.midi_event now ev w = (Raise HostError, w)
         | NoChain => Mk4.midi_event now ev w = (Ok true, w)
         | Found c =>
             match mixer_chan c with
             | Missing => Mk4.midi_event now ev w = (Raise AttributeError, w)
             | PyNone => Mk4.midi_event now ev w = (Ok true, w)
             | Val ch =>
                 if ch <? 17 then
                   has_zynmixer w = false →
                   Mk4.midi_event now ev w = (Raise AttributeError, w)
                 else Mk4.midi_event now ev w = (Ok true, w)
             end
         end))
  ∧ (∀ w : world Mini.driver,
      (has_chain_manager w = false →
       Mini.midi_event now ev w = (Raise AttributeError, w))
      ∧ (has_chain_manager w = true →
         match get_chain_by_position (chain_manager w) i with
         | LookupRaises => Mini.midi_event now ev w = (Raise HostError, w)
         | NoChain => Mini.midi_event now ev w = (Ok true, w)
         | Found c =>
             match mixer_chan c with
             | Missing => Mini.midi_event now ev w = (Raise AttributeError, w)
             | PyNone => Mini.midi_event now ev w = (Ok true, w)
             | Val ch =>
                 if ch <? 17 then
                   has_zynmixer w = false →
                   Mini.midi_event now ev w = (Raise AttributeError, w)
                 else Mini.midi_event now ev w = (Ok true, w)
             end
         end)).
Proof.
  intros Hty Hvel Hnote ev i. subst ev i.
  assert (Hn : is_note ev0 = true) by (unfold is_note; by rewrite Hty).
  assert (Hp : is_pad (data7 ev1) = true) by (apply is_pad_true; lia).
  split; intros w.
  - rewrite mk4_midi_event_note, Hp, Hty by done.
    destruct (pad_note_press_fails 5 10 _ _ w Hnote Hvel) as [H1 H2].
    unfold bind. split.
    + intros Hcm. by rewrite (H1 Hcm).
    + intros Hcm. specialize (H2 Hcm).
      repeat case_match; try (intros Hzm; specialize (H2 Hzm));
        simplify_eq; reflexivity.
  - rewrite mini_midi_event_note, Hp, Hty by done.
    destruct (pad_note_press_fails 14 118 _ _ w Hnote Hvel) as [H1 H2].
    unfold bind. split.
    + intros Hcm. by rewrite (H1 Hcm).
    + intros Hcm. specialize (H2 Hcm).
      repeat case_match; try (intros Hzm; specialize (H2 Hzm));
        simplify_eq; reflexivity.
Qed.

Lemma pad_press_failures_witness :
  evtype 0x90 = 0x9 ∧ 0 < data7 100
  ∧ (96 ≤ data7 97 ≤ 103 ∨ 112 ≤ data7 97 ≤ 119)
  ∧ Mk4.midi_event 0 [0x90; 97; 100]
      (World Mk4.init (Some 1) true true faulty_chains example_mixer [])
    = (Raise HostError,
       World Mk4.init (Some 1) true true faulty_chains example_mixer []).
Proof.
  assert (H1 : evtype 0x90 = 0x9) by reflexivity.
  assert (H2 : 0 < data7 100) by reflexivity.
  assert (H3 : 96 ≤ data7 97 ≤ 103 ∨ 112 ≤ data7 97 ≤ 119)
    by (left; vm_compute; split; discriminate).
  split; [exact H1|]. split; [exact H2|]. split; [exact H3|].
  exact (proj2 (proj1 (pad_press_failures 0 0x90 97 100 [] H1 H2 H3)
                  (World Mk4.init (Some 1) true true faulty_chains
                     example_mixer []))
           eq_refl).
Defined.

(** ** The two decodings as arithmetic *)

Lemma relative_direction_sgn (v : Z) :
  Mini.relative_direction v = Z.sgn (Mini.relative_delta v).
Proof.
  unfold Mini.relative_direction, Mini.relative_delta.
  repeat match goal with
    | |- context [?a =? ?b] => destruct (Z.eqb_spec a b)
    | |- context [?a <? ?b] => destruct (Z.ltb_spec a b)
    end; simpl; lia.
Qed.

Lemma relative_delta_mirror (v : Z) :
  1 ≤ v ≤ 127 → Mini.relative_delta (128 - v) = - Mini.relative_delta v.
Proof.
  intros Hv. unfold Mini.relative_delta.
  repeat match goal with
    | |- context [?a =? ?b] => destruct (Z.eqb_spec a b)
    | |- context [?a <? ?b] => destruct (Z.ltb_spec a b)
    end; simpl; lia.
Qed.

Lemma relative_delta_zero (v : Z) : Mini.relative_delta v = 0 ↔ v = 64.
Proof.
  unfold Mini.relative_delta.
  repeat match goal with
    | |- context [?a =? ?b] => destruct (Z.eqb_spec a b)
    | |- context [?a <? ?b] => destruct (Z.ltb_spec a b)
    end; simpl; lia.
Qed.

(** X10.  The transport driver's two relative decodings agree: the direction
    used by the preset, SELECT/BACK and arrow knobs is the sign of the delta
    used by the mixer and ZYNPOT knobs, for every value.  The delta is 0
    exactly at 64, lies within -64..62 on 7-bit values, and is mirrored around
    64: value [128 - v] gives the opposite delta of [v], for [v] in 1..127. *)
Theorem relative_decodings_agree (v : Z) :
  Mini.relative_direction v = Z.sgn (Mini.relative_delta v)
  ∧ (Mini.relative_delta v = 0 ↔ v = 64)
  ∧ (0 ≤ v ≤ 127 → -64 ≤ Mini.relative_delta v ≤ 62)
  ∧ (1 ≤ v ≤ 127 → Mini.relative_delta (128 - v) = - Mini.relative_delta v).
Proof.
  split; [apply relative_direction_sgn|].
  split; [apply relative_delta_zero|].
  split; [|apply relative_delta_mirror].
  intros Hv. unfold Mini.relative_delta.
  repeat match goal with
    | |- context [?a =? ?b] => destruct (Z.eqb_spec a b)
    | |- context [?a <? ?b] => destruct (Z.ltb_spec a b)
    end; simpl; lia.
Qed.

Lemma relative_decodings_agree_witness :
  (0 ≤ 0 ≤ 127 ∧ -64 ≤ Mini.relative_delta 0 ≤ 62)
  ∧ (1 ≤ 3 ≤ 127 ∧ Mini.relative_delta (128 - 3) = - Mini.relative_delta 3).
Proof.
  assert (H0 : 0 ≤ 0 ≤ 127) by lia.
  assert (H3 : 1 ≤ 3 ≤ 127) by lia.
  split.
  - split; [exact H0|].
    exact (proj1 (proj2 (proj2 (relative_decodings_agree 0))) H0).
  - split; [exact H3|].
    exact (proj2 (proj2 (proj2 (relative_decodings_agree 3))) H3).
Defined.

Lemma wrap_delta_congruent (a b : Z) :
  0 ≤ a ≤ 127 → 0 ≤ b ≤ 127 → (a + Mk4.wrap_delta (b - a)) `mod` 128 = b.
Proof.
  intros Ha Hb. unfold Mk4.wrap_delta.
  destruct (Z.ltb_spec 64 (b - a)); [|destruct (Z.ltb_spec (b - a) (-64))].
  - replace (a + (b - a - 128)) with (b + (-1) * 128) by lia.
    rewrite Z.mod_add by lia. apply Z.mod_small. lia.
  - replace (a + (b - a + 128)) with (b + 1 * 128) by lia.
    rewrite Z.mod_add by lia. apply Z.mod_small. lia.
  - replace (a + (b - a)) with b by lia. apply Z.mod_small. lia.
Qed.

Lemma wrap_delta_odd (x : Z) : Mk4.wrap_delta (- x) = - Mk4.wrap_delta x.
Proof.
  unfold Mk4.wrap_delta.
  repeat match goal with
    | |- context [?a <? ?b] => destruct (Z.ltb_spec a b)
    end; lia.
Qed.

(** X11.  The pickup driver's wrap-around correction recovers the knob
    position: for 7-bit values [a] and [b] the corrected delta [d] of [b - a]
    satisfies [(a + d) mod 128 = b], lies within -64..64 and is 0 only when
    [b = a]; the correction is odd, so the way back has the opposite delta. *)
Theorem wrap_delta_recovers_position (a b : Z) :
  0 ≤ a ≤ 127 → 0 ≤ b ≤ 127 →
  let d := Mk4.wrap_delta (b - a) in
  (a + d) `mod` 128 = b
  ∧ -64 ≤ d ≤ 64
  ∧ (d = 0 ↔ b = a)
  ∧ Mk4.wrap_delta (a - b) = - d.
Proof.
  intros Ha Hb d. subst d.
  split; [by apply wrap_delta_congruent|].
  split; [apply wrap_delta_range; lia|].
  split.
  - split; [intros Hd; apply (wrap_delta_zero a b); [lia | lia | done]|].
    intros ->. by rewrite Z.sub_diag.
  - rewrite <- wrap_delta_odd. f_equal. lia.
Qed.

Lemma wrap_delta_recovers_position_witness :
  0 ≤ 120 ≤ 127 ∧ 0 ≤ 5 ≤ 127
  ∧ (120 + Mk4.wrap_delta (5 - 120)) `mod` 128 = 5
  ∧ Mk4.wrap_delta (120 - 5) = - Mk4.wrap_delta (5 - 120).
Proof.
  assert (Ha : 0 ≤ 120 ≤ 127) by lia.
  assert (Hb : 0 ≤ 5 ≤ 127) by lia.
  destruct (wrap_delta_recovers_position 120 5 Ha Hb) as (H1 & _ & _ & H4).
  split; [exact Ha|]. split; [exact Hb|]. split; [exact H1 | exact H4].
Defined.

Lemma last_cons_default {A} (l : list A) (x d : A) :
  List.last (x :: l) d = List.last l x.
Proof.
  revert x d. induction l as [|a l IH]; intros x d; [done|].
  change (List.last (a :: l) d = List.last (a :: l) x). by rewrite !IH.
Qed.

Lemma data7_7bit (b : Z) : 0 ≤ data7 b ≤ 127.
Proof. pose proof (data7_range b). lia. Qed.

Lemma mk4_zynpot_knob_run ccnum b a (w : world Mk4.driver) :
  Mk4.last_zynpot_values (self w) !! ccnum = Some a →
  snd (Mk4.zynpot_knob ccnum b w)
  = if Mk4.wrap_delta (b - a) =? 0 then w
    else with_self (Mk4.set_last_zynpot_values
                      (<[ccnum := b]> (Mk4.last_zynpot_values (self w)))
                      (self w))
           (with_out (out w ++ [zynpot_call (ccnum - 21) (Mk4.wrap_delta (b - a))])
              w).
Proof.
  intros Hlast. unfold Mk4.zynpot_knob, get_self, bind, get, ret.
  rewrite Hlast. by destruct (Mk4.wrap_delta (b - a) =? 0).
Qed.

Lemma mk4_zynpot_moves ev0 ev1 (moves : list (float * Z)) :
  evtype ev0 = 0xB → 21 ≤ data7 ev1 ≤ 24 →
  ∀ (w : world Mk4.driver) a,
    Mk4.knob_bank (self w) = 1 →
    Mk4.last_zynpot_values (self w) !! data7 ev1 = Some a → 0 ≤ a ≤ 127 →
    let w' := mk4_events ((λ '(now, ev2), (now, [ev0; ev1; ev2])) <$> moves) w in
    ∃ deltas,
      out w' = out w ++ (zynpot_call (data7 ev1 - 21) <$> deltas)
      ∧ Forall (λ d, d ≠ 0 ∧ -64 ≤ d ≤ 64) deltas
      ∧ Mk4.last_zynpot_values (self w') !! data7 ev1
        = Some (List.last ((λ m, data7 (snd m)) <$> moves) a)
      ∧ (a + sum_deltas deltas) `mod` 128
        = List.last ((λ m, data7 (snd m)) <$> moves) a.
Proof.
  intros Hty Hcc. induction moves as [|[now ev2] moves IH];
    intros w a Hbank Hlast Ha w'; subst w'.
  - exists []. simpl. rewrite app_nil_r, Z.add_0_r.
    split; [done|]. split; [done|]. split; [done|]. apply Z.mod_small. lia.
  - cbn [fmap list_fmap mk4_events].
    rewrite mk4_zynpot_event by done. cbn [snd].
    rewrite (mk4_zynpot_knob_run _ _ a) by done.
    pose proof (data7_7bit ev2) as Hb.
    assert (Hl : ∀ x, List.last ((λ m, data7 (snd m)) <$> (now, ev2) :: moves) x
                      = List.last ((λ m, data7 (snd m)) <$> moves) (data7 ev2)).
    { intros x. apply last_cons_default. }
    destruct (Z.eqb_spec (Mk4.wrap_delta (data7 ev2 - a)) 0) as [Hz|Hnz].
    + apply wrap_delta_zero in Hz; [|lia..].
      destruct (IH w a Hbank Hlast Ha) as (deltas & Hout & Hok & Hmem & Hsum).
      exists deltas. by rewrite Hl, Hz.
    + set (w1 := with_self _ _).
      destruct (IH w1 (data7 ev2)) as (deltas & Hout & Hok & Hmem & Hsum);
        [done | subst w1; simpl; apply lookup_insert_eq | done |].
      exists (Mk4.wrap_delta (data7 ev2 - a) :: deltas).
      split; [|split; [|split]].
      * rewrite Hout. simpl. by rewrite <- app_assoc.
      * constructor; [|done]. split; [done|]. apply wrap_delta_range. lia.
      * by rewrite Hl.
      * rewrite Hl, <- Hsum. simpl.
        rewrite Z.add_assoc, Z.add_mod by lia.
        rewrite (Z.add_mod (data7 ev2)) by lia.
        by rewrite wrap_delta_congruent, (Z.mod_small (data7 ev2)) by lia.
Qed.


(** X12.  A ZYNPOT knob of the pickup driver tracks the knob's position.
    In bank 1, with raw value [a] recorded for the knob (CC 21..24), any run
    of values sends only ZYNPOT calls for pot [ccnum - 21], each with a
    nonzero delta within -64..64; afterwards the recorded value is the last
    value of the run, and [a] plus the sum of the deltas sent is that value
    modulo 128.  When nothing is recorded yet the first value is recorded
    without a call and the rest of the run is tracked from it. *)
Theorem zynpot_knob_tracks_position ev0 ev1 (w : world Mk4.driver) :
  evtype ev0 = 0xB → 21 ≤ data7 ev1 ≤ 24 → Mk4.knob_bank (self w) = 1 →
  let ccnum := data7 ev1 in
  let played (moves : list (float * Z)) :=
    mk4_events ((λ '(now, ev2), (now, [ev0; ev1; ev2])) <$> moves) w in
  let values (moves : list (float * Z)) := (λ m, data7 (snd m)) <$> moves in
  (∀ a moves,
      Mk4.last_zynpot_values (self w) !! ccnum = Some a → 0 ≤ a ≤ 127 →
      ∃ deltas,
        out (played moves) = out w ++ (zynpot_call (ccnum - 21) <$> deltas)
        ∧ Forall (λ d, d ≠ 0 ∧ -64 ≤ d ≤ 64) deltas
        ∧ Mk4.last_zynpot_values (self (played moves)) !! ccnum
          = Some (List.last (values moves) a)
        ∧ (a + sum_deltas deltas) `mod` 128 = List.last (values moves) a)
  ∧ (∀ now ev2 moves,
        Mk4.last_zynpot_values (self w) !! ccnum = None →
        ∃ deltas,
          out (played ((now, ev2) :: moves))
          = out w ++ (zynpot_call (ccnum - 21) <$> deltas)
          ∧ Forall (λ d, d ≠ 0 ∧ -64 ≤ d ≤ 64) deltas
          ∧ Mk4.last_zynpot_values (self (played ((now, ev2) :: moves))) !! ccnum
            = Some (List.last (values moves) (data7 ev2))
          ∧ (data7 ev2 + sum_deltas deltas) `mod` 128
            = List.last (values moves) (data7 ev2)).
Proof.
  intros Hty Hcc Hbank ccnum played values. subst ccnum played values. split.
  - intros a moves Hlast Ha. by apply mk4_zynpot_moves.
  - intros now ev2 moves Hnone. cbn [fmap list_fmap mk4_events].
    rewrite mk4_zynpot_event by done. cbn [snd].
    unfold Mk4.zynpot_knob at 1 2, get_self, bind, get, ret.
    rewrite Hnone. unfold set_self, modify. cbn [snd].
    set (w1 := with_self _ _).
    apply (mk4_zynpot_moves ev0 ev1 moves Hty Hcc w1 (data7 ev2));
      [done | subst w1; simpl; apply lookup_insert_eq | apply data7_7bit].
Qed.

Lemma zynpot_knob_tracks_position_witness :
  let w := example_world (Mk4.Driver false ∅ 1 ∅ {[21 := 120]}) in
  let w' := mk4_events [(0%float, [0xB0; 21; 125]); (0%float, [0xB0; 21; 3]);
                        (0%float, [0xB0; 21; 3]); (0%float, [0xB0; 21; 60])] w in
  evtype 0xB0 = 0xB ∧ 21 ≤ data7 21 ≤ 24 ∧ Mk4.knob_bank (self w) = 1
  ∧ Mk4.last_zynpot_values (self w) !! data7 21 = Some 120
  ∧ ∃ deltas,
      out w' = out w ++ (zynpot_call (data7 21 - 21) <$> deltas)
      ∧ (120 + sum_deltas deltas) `mod` 128 = 60.
Proof.
  intros w w'.
  assert (H1 : evtype 0xB0 = 0xB) by reflexivity.
  assert (H2 : 21 ≤ data7 21 ≤ 24) by (vm_compute; split; discriminate).
  assert (H3 : Mk4.knob_bank (self w) = 1) by reflexivity.
  assert (H4 : Mk4.last_zynpot_values (self w) !! data7 21 = Some 120)
    by (vm_compute; reflexivity).
  assert (H5 : 0 ≤ 120 ≤ 127) by lia.
  destruct (proj1 (zynpot_knob_tracks_position 0xB0 21 w H1 H2 H3) 120
              [(0%float, 125); (0%float, 3); (0%float, 3); (0%float, 60)] H4 H5)
    as (deltas & Hout & _ & _ & Hsum).
  split; [exact H1|]. split; [exact H2|]. split; [exact H3|].
  split; [exact H4|]. exists deltas. split; [exact Hout | exact Hsum].
Defined.

(** ** Knobs that forward, knobs that do nothing *)

Lemma status_byte (c : Z) :
  0 ≤ c ≤ 15 →
  Z.lor 0xB0 c = 0xB0 + c ∧ evtype (Z.lor 0xB0 c) = 0xB
  ∧ ev_chan (Z.lor 0xB0 c) = c.
Proof.
  intros Hc.
  assert (Hall : forallb (λ c, (Z.lor 0xB0 c =? 0xB0 + c)
                               && (evtype (Z.lor 0xB0 c) =? 0xB)
                               && (ev_chan (Z.lor 0xB0 c) =? c))
                   (seqZ 0 16) = true) by (vm_compute; reflexivity).
  rewrite forallb_forall in Hall.
  specialize (Hall c). rewrite <- list_elem_of_In, elem_of_seqZ in Hall.
  assert (Hc' : 0 ≤ c < 0 + 16) by lia. specialize (Hall Hc').
  apply andb_true_iff in Hall as [Hall H3].
  apply andb_true_iff in Hall as [H1 H2].
  apply Z.eqb_eq in H1, H2, H3. done.
Qed.

Lemma ev_chan_range (b : Z) : 0 ≤ ev_chan b ≤ 15.
Proof. apply nibble_range. Qed.

(** X13.  In bank 2 the transport driver turns every knob message into a
    plain control change: CC 85..92 is forwarded as one three-byte message
    with controller [ccnum - 61], that is 24..31 in knob order, with the
    7-bit value as received and a status byte that is a control change on
    the channel the message came in on; the event is handled and nothing
    else changes. *)
Theorem bank2_knobs_forward now ev0 ev1 ev2 rest (w : world Mini.driver) :
  evtype ev0 = 0xB → 85 ≤ data7 ev1 ≤ 92 → Mini.knob_bank (self w) = 2 →
  let status := Z.lor 0xB0 (ev_chan ev0) in
  Mini.midi_event now (ev0 :: ev1 :: ev2 :: rest) w
  = (Ok true,
     with_out (out w ++ [write_zynmidi [status; data7 ev1 - 61; data7 ev2]]) w)
  ∧ 24 ≤ data7 ev1 - 61 ≤ 31
  ∧ evtype status = 0xB ∧ ev_chan status = ev_chan ev0
  ∧ status = 0xB0 + ev_chan ev0.
Proof.
  intros Hty Hcc Hbank status. subst status.
  destruct (status_byte (ev_chan ev0) (ev_chan_range ev0)) as (H1 & H2 & H3).
  split; [|split; [lia|done]].
  rewrite mini_knob_event by done.
  unfold Mini.knob, bind, get_self, bind, get, ret, emit, modify.
  rewrite Hbank. simpl.
  by replace (data7 ev1 - 85 + 24) with (data7 ev1 - 61) by lia.
Qed.

Lemma bank2_knobs_forward_witness :
  let w := example_world (Mini.Driver false ∅ 2 0) in
  evtype 0xB3 = 0xB ∧ 85 ≤ data7 85 ≤ 92 ∧ Mini.knob_bank (self w) = 2
  ∧ Mini.midi_event 0 [0xB3; 85; 1] w
    = (Ok true, with_out [write_zynmidi [0xB3; 24; 1]] w).
Proof.
  intros w.
  assert (H1 : evtype 0xB3 = 0xB) by reflexivity.
  assert (H2 : 85 ≤ data7 85 ≤ 92) by (vm_compute; split; discriminate).
  assert (H3 : Mini.knob_bank (self w) = 2) by reflexivity.
  split; [exact H1|]. split; [exact H2|]. split; [exact H3|].
  exact (proj1 (bank2_knobs_forward 0 0xB3 85 1 [] w H1 H2 H3)).
Defined.

(** X14.  What the pickup driver's knobs do outside the mixer and ZYNPOT
    ranges.  In bank 1, knobs 5 to 8 (CC 25..28) are forwarded as one control
    change with controller [ccnum - 5], that is 20..23, on the incoming
    channel.  In bank 0, knobs 7 and 8 (CC 27, 28) are handled and do
    nothing.  In bank 2 no knob is handled: [midi_event] returns [False] for
    CC 21..28 and nothing changes. *)
Theorem pickup_knobs_outside_ranges now ev0 ev1 ev2 rest (w : world Mk4.driver) :
  evtype ev0 = 0xB → 21 ≤ data7 ev1 ≤ 28 →
  let ev := ev0 :: ev1 :: ev2 :: rest in
  let status := Z.lor 0xB0 (ev_chan ev0) in
  (Mk4.knob_bank (self w) = 1 → 25 ≤ data7 ev1 →
   Mk4.midi_event now ev w
   = (Ok true,
      with_out (out w ++ [write_zynmidi [status; data7 ev1 - 5; data7 ev2]]) w)
   ∧ 20 ≤ data7 ev1 - 5 ≤ 23
   ∧ evtype status = 0xB ∧ ev_chan status = ev_chan ev0)
  ∧ (Mk4.knob_bank (self w) = 0 → 27 ≤ data7 ev1 →
     Mk4.midi_event now ev w = (Ok true, w))
  ∧ (Mk4.knob_bank (self w) = 2 → Mk4.midi_event now ev w = (Ok false, w)).
Proof.
  intros Hty Hcc ev status. subst ev status.
  destruct (status_byte (ev_chan ev0) (ev_chan_range ev0)) as (H1 & H2 & H3).
  rewrite mk4_knob_event by done.
  unfold Mk4.knob, bind, get_self, bind, get, ret, emit, modify.
  split; [|split].
  - intros Hbank Hhi. rewrite Hbank. simpl.
    destruct (Z.ltb_spec (data7 ev1) 25); [lia|]. rewrite andb_false_r.
    split; [|split; [lia|done]].
    by replace (data7 ev1 - 25 + 20) with (data7 ev1 - 5) by lia.
  - intros Hbank Hhi. rewrite Hbank. simpl.
    destruct (Z.ltb_spec (data7 ev1) 27); [lia|]. by rewrite andb_false_r.
  - by intros ->.
Qed.

Lemma pickup_knobs_outside_ranges_witness :
  let w := example_world (Mk4.Driver false ∅ 2 ∅ ∅) in
  evtype 0xB0 = 0xB ∧ 21 ≤ data7 21 ≤ 28 ∧ Mk4.knob_bank (self w) = 2
  ∧ Mk4.midi_event 0 [0xB0; 21; 64] w = (Ok false, w).
Proof.
  intros w.
  assert (H1 : evtype 0xB0 = 0xB) by reflexivity.
  assert (H2 : 21 ≤ data7 21 ≤ 28) by (vm_compute; split; discriminate).
  assert (H3 : Mk4.knob_bank (self w) = 2) by reflexivity.
  split; [exact H1|]. split; [exact H2|]. split; [exact H3|].
  exact (proj2 (proj2 (pickup_knobs_outside_ranges 0 0xB0 21 64 [] w H1 H2)) H3).
Defined.


(** ** Shift, transport and command buttons *)

Lemma mk4_shift_event now ev0 ev1 ev2 rest (w : world Mk4.driver) :
  evtype ev0 = 0xB → data7 ev1 = 0x3F →
  Mk4.midi_event now (ev0 :: ev1 :: ev2 :: rest) w
  = (Ok true, with_self (Mk4.set_shift (negb (data7 ev2 =? 0)) (self w)) w).
Proof.
  intros Hty Hcc. rewrite mk4_midi_event_cc by done.
  unfold Mk4.control_change. rewrite Hcc. reflexivity.
Qed.

Lemma mini_shift_event now ev0 ev1 ev2 rest (w : world Mini.driver) :
  evtype ev0 = 0xB → data7 ev1 = 0x3F →
  Mini.midi_event now (ev0 :: ev1 :: ev2 :: rest) w
  = (Ok true, with_self (Mini.set_shift (negb (data7 ev2 =? 0)) (self w)) w).
Proof.
  intros Hty Hcc. rewrite mini_midi_event_cc by done.
  unfold Mini.control_change. rewrite Hcc. reflexivity.
Qed.

Lemma mk4_transport_event now ev0 ev1 ev2 rest (w : world Mk4.driver) :
  evtype ev0 = 0xB → data7 ev1 = 0x73 ∨ data7 ev1 = 0x75 → 0 < data7 ev2 →
  Mk4.midi_event now (ev0 :: ev1 :: ev2 :: rest) w
  = (Ok true,
     with_out
       (out w ++ [send_cuia
                    (if data7 ev1 =? 0x73
                     then if Mk4.shift (self w)
                          then "TOGGLE_MIDI_PLAY" else "TOGGLE_PLAY"
                     else if Mk4.shift (self w)
                          then "TOGGLE_MIDI_RECORD" else "TOGGLE_RECORD")
                    None]) w).
Proof.
  intros Hty Hcc Hv%Z.ltb_lt. rewrite mk4_midi_event_cc by done.
  unfold Mk4.control_change. rewrite Hv.
  destruct Hcc as [-> | ->]; reflexivity.
Qed.

Lemma mini_transport_event now ev0 ev1 ev2 rest (w : world Mini.driver) :
  evtype ev0 = 0xB → data7 ev1 = 0x73 ∨ data7 ev1 = 0x75 → 0 < data7 ev2 →
  Mini.midi_event now (ev0 :: ev1 :: ev2 :: rest) w
  = (Ok true,
     with_out
       (out w ++ [send_cuia
                    (if data7 ev1 =? 0x73
                     then if Mini.shift (self w)
                          then "TOGGLE_MIDI_PLAY" else "TOGGLE_PLAY"
                     else if Mini.shift (self w)
                          then "TOGGLE_MIDI_RECORD" else "TOGGLE_RECORD")
                    None]) w).
Proof.
  intros Hty Hcc Hv%Z.ltb_lt. rewrite mini_midi_event_cc by done.
  unfold Mini.control_change. rewrite Hv.
  destruct Hcc as [-> | ->]; reflexivity.
Qed.

(** X15.  The shift button (CC 0x3F) only sets the shift flag, to true on
    any nonzero value and to false on 0, and the flag chooses the action of
    PLAY (CC 0x73) and RECORD (CC 0x75): a press sends TOGGLE_PLAY or
    TOGGLE_RECORD without shift and TOGGLE_MIDI_PLAY or TOGGLE_MIDI_RECORD
    with it, as the only call.  So shift down, PLAY, shift up, PLAY sends
    TOGGLE_MIDI_PLAY then TOGGLE_PLAY and leaves the driver as it was with
    shift released. *)
Theorem shift_selects_transport_action t ev0 ev1 ev2 rest :
  evtype ev0 = 0xB →
  let ev := ev0 :: ev1 :: ev2 :: rest in
  (data7 ev1 = 0x3F →
   (∀ w : world Mk4.driver,
       Mk4.midi_event t ev w
       = (Ok true, with_self (Mk4.set_shift (negb (data7 ev2 =? 0)) (self w)) w))
   ∧ (∀ w : world Mini.driver,
       Mini.midi_event t ev w
       = (Ok true,
          with_self (Mini.set_shift (negb (data7 ev2 =? 0)) (self w)) w)))
  ∧ (data7 ev1 = 0x73 ∨ data7 ev1 = 0x75 → 0 < data7 ev2 →
     let action (shift : bool) : string :=
       if data7 ev1 =? 0x73
       then if shift then "TOGGLE_MIDI_PLAY" else "TOGGLE_PLAY"
       else if shift then "TOGGLE_MIDI_RECORD" else "TOGGLE_RECORD" in
     (∀ w : world Mk4.driver,
         Mk4.midi_event t ev w
         = (Ok true,
            with_out (out w ++ [send_cuia (action (Mk4.shift (self w))) None]) w))
     ∧ (∀ w : world Mini.driver,
         Mini.midi_event t ev w
         = (Ok true,
            with_out (out w ++ [send_cuia (action (Mini.shift (self w))) None])
              w))
     ∧ (∀ (w : world Mk4.driver) t1 t2 t3 down,
           0 < data7 down →
           mk4_events [(t1, [ev0; 0x3F; down]); (t, ev); (t2, [ev0; 0x3F; 0]);
                       (t3, ev)] w
           = with_out (out w ++ [send_cuia (action true) None;
                                 send_cuia (action false) None])
               (with_self (Mk4.set_shift false (self w)) w))
     ∧ (∀ (w : world Mini.driver) t1 t2 t3 down,
           0 < data7 down →
           mini_events [(t1, [ev0; 0x3F; down]); (t, ev); (t2, [ev0; 0x3F; 0]);
                        (t3, ev)] w
           = with_out (out w ++ [send_cuia (action true) None;
                                 send_cuia (action false) None])
               (with_self (Mini.set_shift false (self w)) w))).
Proof.
  intros Hty ev. subst ev. split.
  - intros Hcc. split; intros w.
    + by apply mk4_shift_event.
    + by apply mini_shift_event.
  - intros Hcc Hv action. subst action.
    split; [intros w; by apply mk4_transport_event|].
    split; [intros w; by apply mini_transport_event|].
    split; intros w t1 t2 t3 down Hdown; cbn [mk4_events mini_events].
    + rewrite (mk4_shift_event t1) by done. cbn [snd].
      rewrite (mk4_transport_event t) by done. cbn [snd].
      rewrite (mk4_shift_event t2) by done. cbn [snd].
      rewrite (mk4_transport_event t3) by done. cbn [snd].
      assert ((data7 down =? 0) = false) as -> by (apply Z.eqb_neq; lia).
      simpl. by rewrite <- app_assoc.
    + rewrite (mini_shift_event t1) by done. cbn [snd].
      rewrite (mini_transport_event t) by done. cbn [snd].
      rewrite (mini_shift_event t2) by done. cbn [snd].
      rewrite (mini_transport_event t3) by done. cbn [snd].
      assert ((data7 down =? 0) = false) as -> by (apply Z.eqb_neq; lia).
      simpl. by rewrite <- app_assoc.
Qed.

Lemma shift_selects_transport_action_witness :
  evtype 0xB0 = 0xB ∧ (data7 0x75 = 0x73 ∨ data7 0x75 = 0x75) ∧ 0 < data7 127
  ∧ Mini.midi_event 0 [0xB0; 0x75; 127] (example_world (Mini.Driver true ∅ 1 0))
    = (Ok true,
       with_out [send_cuia "TOGGLE_MIDI_RECORD" None]
         (example_world (Mini.Driver true ∅ 1 0))).
Proof.
  assert (H1 : evtype 0xB0 = 0xB) by reflexivity.
  assert (H2 : data7 0x75 = 0x73 ∨ data7 0x75 = 0x75) by (right; reflexivity).
  assert (H3 : 0 < data7 127) by reflexivity.
  split; [exact H1|]. split; [exact H2|]. split; [exact H3|].
  exact (proj1 (proj2 (proj2 (shift_selects_transport_action 0 0xB0 0x75 127 []
                                H1) H2 H3))
           (example_world (Mini.Driver true ∅ 1 0))).
Defined.

Lemma mk4_button_command_cc ccnum command :
  Mk4.button_commands ccnum = Some command →
  ccnum = 106 ∨ ccnum = 107 ∨ ccnum = 0x66 ∨ ccnum = 0x67 ∨ ccnum = 104.
Proof.
  unfold Mk4.button_commands.
  repeat match goal with
    | |- context [?a =? ?b] => destruct (Z.eqb_spec a b); [lia|]
    end. done.
Qed.

Lemma mini_button_command_cc ccnum command :
  Mini.button_commands ccnum = Some command →
  ccnum = 107 ∨ ccnum = 105 ∨ ccnum = 0x66 ∨ ccnum = 0x67 ∨ ccnum = 106.
Proof.
  unfold Mini.button_commands.
  repeat match goal with
    | |- context [?a =? ?b] => destruct (Z.eqb_spec a b); [lia|]
    end. done.
Qed.

(** X16.  A press (value above 0) of a button of the [button_commands]
    table is answered by exactly two calls, in this order: the LED echo
    [dev_send_ccontrol_change(idev_out, 0, ccnum, 127)], sent also when there
    is no output device, and the button's action; the event is handled and
    the driver is untouched.  No earlier branch takes any of the table's
    controllers.  The tables differ: the pickup driver has BACK, PRESET and
    MENU on CC 104, 106, 107, the transport driver has MENU, BACK and PRESET
    on CC 105, 106, 107; both have ARROW_RIGHT and ARROW_LEFT on CC 0x66 and
    0x67. *)
Theorem command_buttons now ev0 ev1 ev2 rest command :
  evtype ev0 = 0xB → 0 < data7 ev2 →
  let ev := ev0 :: ev1 :: ev2 :: rest in
  (Mk4.button_commands (data7 ev1) = Some command →
   ∀ w : world Mk4.driver,
     Mk4.midi_event now ev w
     = (Ok true,
        with_out (out w ++ [dev_send_ccontrol_change (idev_out w) 0 (data7 ev1) 127;
                            send_cuia command None]) w))
  ∧ (Mini.button_commands (data7 ev1) = Some command →
     ∀ w : world Mini.driver,
       Mini.midi_event now ev w
       = (Ok true,
          with_out (out w ++ [dev_send_ccontrol_change (idev_out w) 0 (data7 ev1) 127;
                              send_cuia command None]) w))
  ∧ Mk4.button_commands <$> [0x66; 0x67; 104; 105; 106; 107]
    = [Some "ARROW_RIGHT"; Some "ARROW_LEFT"; Some "BACK"; None;
       Some "PRESET"; Some "MENU"]
  ∧ Mini.button_commands <$> [0x66; 0x67; 104; 105; 106; 107]
    = [Some "ARROW_RIGHT"; Some "ARROW_LEFT"; None; Some "MENU";
       Some "BACK"; Some "PRESET"].
Proof.
  intros Hty Hv%Z.ltb_lt ev. subst ev. split; [|split; [|done]].
  - intros Hcmd w. rewrite mk4_midi_event_cc by done.
    pose proof (mk4_button_command_cc _ _ Hcmd) as Hcc.
    unfold Mk4.control_change. rewrite Hv, Hcmd.
    repeat match goal with
      | |- context [?a =? ?b] => destruct (Z.eqb_spec a b); [lia|]
      end.
    simpl.
    destruct (Z.ltb_spec 20 (data7 ev1)); destruct (Z.ltb_spec (data7 ev1) 29);
      try lia; simpl; unfold bind, get, emit, modify, ret; simpl;
      by rewrite <- app_assoc.
  - intros Hcmd w. rewrite mini_midi_event_cc by done.
    pose proof (mini_button_command_cc _ _ Hcmd) as Hcc.
    unfold Mini.control_change. rewrite Hv, Hcmd.
    repeat match goal with
      | |- context [?a =? ?b] => destruct (Z.eqb_spec a b); [lia|]
      end.
    simpl.
    destruct (Z.ltb_spec 84 (data7 ev1)); destruct (Z.ltb_spec (data7 ev1) 93);
      try lia; simpl; unfold bind, get, emit, modify, ret; simpl;
      by rewrite <- app_assoc.
Qed.

Lemma command_buttons_witness :
  evtype 0xB0 = 0xB ∧ 0 < data7 127
  ∧ Mk4.button_commands (data7 104) = Some "BACK"
  ∧ Mk4.midi_event 0 [0xB0; 104; 127]
      (World Mk4.init None true true example_chains example_mixer [])
    = (Ok true,
       World Mk4.init None true true example_chains example_mixer
         [dev_send_ccontrol_change None 0 104 127; send_cuia "BACK" None]).
Proof.
  assert (H1 : evtype 0xB0 = 0xB) by reflexivity.
  assert (H2 : 0 < data7 127) by reflexivity.
  assert (H3 : Mk4.button_commands (data7 104) = Some "BACK") by reflexivity.
  split; [exact H1|]. split; [exact H2|]. split; [exact H3|].
  exact (proj1 (command_buttons 0 0xB0 104 127 [] "BACK" H1 H2) H3
           (World Mk4.init None true true example_chains example_mixer [])).
Defined.

(** ** Messages that are neither notes nor control changes *)

(** X17.  A program change sets the sequencer bank to the 7-bit program
    number plus one, which is within 1..128, as its only call, and is
    handled.  Every other message that is not a note or a control change
    (aftertouch, pitch bend, system messages, a status byte below 0x80) is
    reported not handled and changes nothing, even when it has one byte
    only. *)
Theorem other_messages now ev0 rest :
  is_note ev0 = false → evtype ev0 ≠ 0xB →
  (evtype ev0 = 0xC → ∀ ev1 rest', rest = ev1 :: rest' →
   (∀ w : world Mk4.driver,
       Mk4.midi_event now (ev0 :: rest) w
       = (Ok true, with_out (out w ++ [select_bank (data7 ev1 + 1)]) w))
   ∧ (∀ w : world Mini.driver,
       Mini.midi_event now (ev0 :: rest) w
       = (Ok true, with_out (out w ++ [select_bank (data7 ev1 + 1)]) w))
   ∧ 1 ≤ data7 ev1 + 1 ≤ 128)
  ∧ (evtype ev0 ≠ 0xC →
     (∀ w : world Mk4.driver, Mk4.midi_event now (ev0 :: rest) w = (Ok false, w))
     ∧ (∀ w : world Mini.driver,
         Mini.midi_event now (ev0 :: rest) w = (Ok false, w))).
Proof.
  intros Hn HB. split.
  - intros HC ev1 rest' ->. apply Z.eqb_eq in HC.
    split; [|split].
    + intros w. by rewrite mk4_midi_event_other, HC.
    + intros w. by rewrite mini_midi_event_other, HC.
    + pose proof (data7_range ev1). lia.
  - intros HC%Z.eqb_neq. split; intros w.
    + by rewrite mk4_midi_event_other, HC.
    + by rewrite mini_midi_event_other, HC.
Qed.

Lemma other_messages_witness :
  is_note 0xE0 = false ∧ evtype 0xE0 ≠ 0xB ∧ evtype 0xE0 ≠ 0xC
  ∧ ∀ w : world Mini.driver, Mini.midi_event 0 [0xE0] w = (Ok false, w).
Proof.
  assert (H1 : is_note 0xE0 = false) by reflexivity.
  assert (H2 : evtype 0xE0 ≠ 0xB) by discriminate.
  assert (H3 : evtype 0xE0 ≠ 0xC) by discriminate.
  split; [exact H1|]. split; [exact H2|]. split; [exact H3|].
  exact (proj2 (proj2 (other_messages 0 0xE0 [] H1 H2) H3)).
Defined.


(** ** Refresh and the notification callbacks *)

Lemma mk4_refresh_run (w : world Mk4.driver) :
  Mk4.refresh w
  = (Ok tt,
     with_out (out w ++ pad_led_writes 5 10 w)
       (with_self (Mk4.set_mixer_synced ∅ (self w)) w)).
Proof.
  unfold Mk4.refresh, get_self, bind, get, ret, set_self, modify,
    Mk4.update_pad_leds.
  by rewrite update_pad_leds_run.
Qed.

(** X18.  [refresh] of the pickup driver never raises; it forgets which
    mixer knobs were synced, keeps every other field, and writes the pad
    LEDs.  So after a refresh soft takeover starts over: a mixer knob that
    was synced before and whose value is 0.02 or more away from the current
    level changes nothing, and the first value less than 0.02 away makes it
    the only synced knob again and sets the level. *)
Theorem refresh_restarts_takeover now ev0 ev1 ev2 rest (w : world Mk4.driver)
    c ch :
  evtype ev0 = 0xB → Mk4.knob_bank (self w) = 0 → 21 ≤ data7 ev1 ≤ 26 →
  has_chain_manager w = true → has_zynmixer w = true →
  get_chain_by_position (chain_manager w) (data7 ev1 - 20 - 1) = Found c →
  mixer_chan c = Val ch → ch < 17 →
  let ev := ev0 :: ev1 :: ev2 :: rest in
  let gap := takeover_gap (data7 ev2) (get_level (zynmixer w) ch) in
  let w1 := with_out (out w ++ pad_led_writes 5 10 w)
              (with_self (Mk4.set_mixer_synced ∅ (self w)) w) in
  Mk4.refresh w = (Ok tt, w1)
  ∧ (PrimFloat.leb 0.02 gap = true → Mk4.midi_event now ev w1 = (Ok true, w1))
  ∧ (PrimFloat.ltb gap 0.02 = true →
     Mk4.midi_event now ev w1
     = (Ok true,
        with_out (out w1 ++ [set_level ch (knob_level (data7 ev2))])
          (with_zynmixer
             (set_level_in ch (knob_level (data7 ev2)) (zynmixer w))
             (with_self (Mk4.set_mixer_synced {[data7 ev1 := true]} (self w))
                w)))).
Proof.
  intros Hty Hbank Hcc Hcm Hzm Hchain Hchan Hch ev gap w1. subst ev gap.
  split; [apply mk4_refresh_run|].
  pose proof (mk4_mixer_event now ev0 ev1 ev2 rest w1 c ch
                Hty Hbank Hcc Hcm Hzm Hchain Hchan Hch) as Hrun.
  simpl in Hrun. rewrite lookup_empty in Hrun.
  split.
  - intros Hfar%leb_not_ltb. rewrite Hrun.
    change (zynmixer w1) with (zynmixer w). by rewrite Hfar.
  - intros Hnear. rewrite Hrun.
    change (zynmixer w1) with (zynmixer w). by rewrite Hnear.
Qed.

Lemma refresh_restarts_takeover_witness :
  let w := example_world (Mk4.Driver false ∅ 0 {[21 := true]} ∅) in
  let w1 := with_out (out w ++ pad_led_writes 5 10 w)
              (with_self (Mk4.set_mixer_synced ∅ (self w)) w) in
  PrimFloat.leb 0.02 (takeover_gap (data7 100) (get_level (zynmixer w) 0)) = true
  ∧ Mk4.refresh w = (Ok tt, w1)
  ∧ Mk4.midi_event 0 [0xB0; 21; 100] w1 = (Ok true, w1)
  ∧ out (snd (Mk4.midi_event 0 [0xB0; 21; 100] w))
    = [set_level 0 (knob_level 100)].
Proof.
  intros w w1.
  assert (Hcc : 21 ≤ data7 21 ≤ 26) by (vm_compute; split; discriminate).
  assert (Hfar : PrimFloat.leb 0.02
                   (takeover_gap (data7 100) (get_level (zynmixer w) 0)) = true)
    by (vm_compute; reflexivity).
  destruct (refresh_restarts_takeover 0 0xB0 21 100 [] w (Chain (Val 0) PyNone) 0
              eq_refl eq_refl Hcc eq_refl eq_refl eq_refl eq_refl eq_refl)
    as (Hrefresh & Hstays & _).
  split; [exact Hfar|]. split; [exact Hrefresh|].
  split; [exact (Hstays Hfar) | vm_compute; reflexivity].
Defined.

Lemma pad_led_writes_out {D} on off o (w : world D) :
  pad_led_writes on off (with_out o w) = pad_led_writes on off w.
Proof. done. Qed.

(** X19.  The transport driver's notification callbacks only refresh the
    pad LEDs.  [update_mixer_strip] does so when the symbol is [mute] or
    [solo] and does nothing at all for any other symbol, whatever channel and
    value it is given; [on_screen_change] and [refresh] do so for every
    argument.  None of them raises, on any host, and what they write depends
    on the host's state only, so a repeated notification writes the same
    messages again. *)
Theorem notification_callbacks (w : world Mini.driver) chan symbol value screen :
  let refreshed := with_out (out w ++ pad_led_writes 14 118 w) w in
  (symbol = "mute" ∨ symbol = "solo" →
   Mini.update_mixer_strip chan symbol value w = (Ok tt, refreshed))
  ∧ (symbol ≠ "mute" → symbol ≠ "solo" →
     Mini.update_mixer_strip chan symbol value w = (Ok tt, w))
  ∧ Mini.on_screen_change screen w = (Ok tt, refreshed)
  ∧ Mini.refresh w = (Ok tt, refreshed)
  ∧ Mini.refresh refreshed
    = (Ok tt, with_out (out refreshed ++ pad_led_writes 14 118 w) refreshed).
Proof.
  intros refreshed. subst refreshed.
  unfold Mini.update_mixer_strip, Mini.on_screen_change, Mini.refresh,
    Mini.update_pad_leds.
  split; [|split; [|split; [|split]]].
  - intros Hs. rewrite bool_decide_eq_true_2; [apply update_pad_leds_run|].
    rewrite !elem_of_cons. tauto.
  - intros H1 H2. rewrite bool_decide_eq_false_2; [done|].
    rewrite !elem_of_cons, elem_of_nil. tauto.
  - apply update_pad_leds_run.
  - apply update_pad_leds_run.
  - by rewrite update_pad_leds_run.
Qed.

Lemma notification_callbacks_witness :
  Mini.update_mixer_strip 3 "level" 1 (example_world Mini.init)
  = (Ok tt, example_world Mini.init)
  ∧ length (out (snd (Mini.update_mixer_strip 3 "solo" 1
                        (example_world Mini.init)))) = 16%nat.
Proof.
  destruct (notification_callbacks (example_world Mini.init) 3 "level" 1 "main")
    as (_ & Hother & _).
  split; [apply Hother; discriminate | vm_compute; reflexivity].
Defined.


(** ** Bank 1 of the transport driver: presets and arrows *)

Lemma mini_browse_event now ev0 ev1 ev2 rest (w : world Mini.driver) :
  evtype ev0 = 0xB → Mini.knob_bank (self w) = 1 → data7 ev1 = 89 →
  Mini.midi_event now (ev0 :: ev1 :: ev2 :: rest) w
  = (run Mini.browse_presets (data7 ev2); ret true) w.
Proof.
  intros Hty Hbank Hcc. rewrite mini_knob_event by (done || lia).
  unfold Mini.knob, bind at 1, get_self, bind at 1, get, ret at 1.
  by rewrite Hbank, Hcc.
Qed.

Lemma mini_arrow_event now ev0 ev1 ev2 rest (w : world Mini.driver) :
  evtype ev0 = 0xB → Mini.knob_bank (self w) = 1 →
  data7 ev1 = 91 ∨ data7 ev1 = 92 →
  Mini.midi_event now (ev0 :: ev1 :: ev2 :: rest) w
  = (run Mini.arrow_knob (if data7 ev1 =? 91 then "ARROW_LEFT" else "ARROW_UP")
           (if data7 ev1 =? 91 then "ARROW_RIGHT" else "ARROW_DOWN")
           (data7 ev2);
     ret true) w.
Proof.
  intros Hty Hbank Hcc. rewrite mini_knob_event by (done || lia).
  unfold Mini.knob, bind at 1, get_self, bind at 1, get, ret at 1.
  rewrite Hbank. by destruct Hcc as [-> | ->].
Qed.

Lemma relative_direction_values (v : Z) :
  (v = 64 ∧ Mini.relative_direction v = 0)
  ∨ (v ≠ 64 ∧ (Mini.relative_direction v = -1 ∨ Mini.relative_direction v = 1)).
Proof.
  unfold Mini.relative_direction.
  repeat match goal with
    | |- context [?a =? ?b] => destruct (Z.eqb_spec a b)
    | |- context [?a <? ?b] => destruct (Z.ltb_spec a b)
    end; simpl; lia.
Qed.

Lemma wrapped_index_mod (len cur dir : Z) :
  0 < len → 0 ≤ cur < len → dir = -1 ∨ dir = 1 →
  (if cur + dir <? 0 then len - 1
   else if len <=? cur + dir then 0 else cur + dir)
  = (cur + dir) `mod` len.
Proof.
  intros Hlen Hcur Hdir.
  destruct (Z.ltb_spec (cur + dir) 0); [|destruct (Z.leb_spec len (cur + dir))].
  - replace (cur + dir) with (len - 1 + (-1) * len) by lia.
    rewrite Z.mod_add by lia. symmetry. apply Z.mod_small. lia.
  - replace (cur + dir) with (0 + 1 * len) by lia.
    rewrite Z.mod_add by lia. symmetry. apply Z.mod_small. lia.
  - symmetry. apply Z.mod_small. lia.
Qed.

(** X20.  Preset browsing (bank 1, knob 5, CC 89 of the transport driver)
    never raises and never touches the driver or the mixer: every host
    failure ends in one logged warning.  A value of 64 does nothing.  Any
    other value, on a processor with a non-empty preset list, selects one
    step down (below 64) or up (above 64) from the current index, taken as 0
    when the processor has none, wrapping below 0 to the last preset and at
    the length to 0: the index passed to [set_preset] is always within the
    list, and is [(index + step) mod length] when the current index is; two
    screen refreshes follow.  When [set_preset] raises, the warning is the
    only call. *)
Theorem preset_browsing now ev0 ev1 ev2 rest (w : world Mini.driver) :
  evtype ev0 = 0xB → Mini.knob_bank (self w) = 1 → data7 ev1 = 89 →
  let ev := ev0 :: ev1 :: ev2 :: rest in
  let step := Mini.relative_direction (data7 ev2) in
  (∃ es, Mini.midi_event now ev w = (Ok true, with_out (out w ++ es) w))
  ∧ (data7 ev2 = 64 → Mini.midi_event now ev w = (Ok true, w))
  ∧ (data7 ev2 ≠ 64 →
     (∀ c p l,
         get_active_chain (chain_manager w) = Found c →
         current_processor c = Val p → preset_list p = Val l → l ≠ [] →
         let len := Z.of_nat (length l) in
         let cur := default 0 (preset_index p) in
         let index := if cur + step <? 0 then len - 1
                      else if len <=? cur + step then 0 else cur + step in
         0 ≤ index < len
         ∧ (0 ≤ cur < len → index = (cur + step) `mod` len)
         ∧ Mini.midi_event now ev w
           = (Ok true,
              with_out
                (out w ++
                 if set_preset_raises p then [logging_warning]
                 else [set_preset index;
                       send_cuia "refresh_screen" (Some [PStr "control"]);
                       send_cuia "refresh_screen" (Some [PStr "audio_mixer"])])
                w))
     ∧ (get_active_chain (chain_manager w) = LookupRaises
        ∨ (∃ c, get_active_chain (chain_manager w) = Found c
                ∧ current_processor c = Missing) →
        Mini.midi_event now ev w
        = (Ok true, with_out (out w ++ [logging_warning]) w))
     ∧ (get_active_chain (chain_manager w) = NoChain
        ∨ (∃ c, get_active_chain (chain_manager w) = Found c
                ∧ (current_processor c = PyNone
                   ∨ ∃ p, current_processor c = Val p
                          ∧ (preset_list p = Missing ∨ preset_list p = PyNone
                             ∨ preset_list p = Val []))) →
        Mini.midi_event now ev w = (Ok true, w))).
Proof.
  intros Hty Hbank Hcc ev step. subst ev step.
  rewrite mini_browse_event by done.
  unfold Mini.browse_presets, try_except, bind, get, ret, raise, emit, modify.
  destruct (relative_direction_values (data7 ev2)) as [[Hv Hd]|[Hv Hd]].
  - rewrite Hd. simpl. split; [|split; [done|by intros ?]].
    exists []. by rewrite with_out_nil.
  - assert ((Mini.relative_direction (data7 ev2) =? 0) = false) as Hnz
      by (apply Z.eqb_neq; lia).
    rewrite Hnz. simpl.
    split; [|split; [by intros ?|intros _; split; [|split]]].
    + destruct (get_active_chain (chain_manager w)) as [| |c]; simpl;
        [by exists [logging_warning] | exists []; by rewrite with_out_nil |].
      destruct (current_processor c) as [| |p]; simpl;
        [by exists [logging_warning] | exists []; by rewrite with_out_nil |].
      destruct (preset_list p) as [| |[|x l]]; simpl;
        try (exists []; by rewrite with_out_nil).
      destruct (set_preset_raises p); simpl; [by exists [logging_warning]|].
      eexists. by rewrite <- !app_assoc.
    + intros c p l Hchain Hproc Hlist Hne.
      rewrite Hchain, Hproc, Hlist. destruct l as [|x l]; [done|].
      assert (Hlen : 0 < Z.of_nat (length (x :: l))) by (simpl; lia).
      split; [|split].
      * repeat case_match; lia.
      * intros Hcur. by apply wrapped_index_mod.
      * simpl. destruct (set_preset_raises p); simpl; [done|].
        by rewrite <- !app_assoc.
    + intros [Hraise|(c & Hchain & Hproc)].
      * by rewrite Hraise.
      * by rewrite Hchain, Hproc.
    + intros [Hnone|(c & Hchain & [Hproc|(p & Hproc & Hlist)])].
      * by rewrite Hnone.
      * by rewrite Hchain, Hproc.
      * rewrite Hchain, Hproc. by destruct Hlist as [-> |[-> | ->]].
Qed.

Lemma preset_browsing_witness :
  let p := Processor (Val ["a"; "b"; "c"]) (Some 2) false in
  let w := World (Mini.Driver false ∅ 1 0) (Some 1) true true
             (ChainManager (λ _, NoChain) (Found (Chain PyNone (Val p))))
             example_mixer [] in
  evtype 0xB0 = 0xB ∧ Mini.knob_bank (self w) = 1 ∧ data7 89 = 89
  ∧ data7 65 ≠ 64
  ∧ Mini.midi_event 0 [0xB0; 89; 65] w
    = (Ok true,
       with_out [set_preset 0;
                 send_cuia "refresh_screen" (Some [PStr "control"]);
                 send_cuia "refresh_screen" (Some [PStr "audio_mixer"])] w).
Proof.
  intros p w.
  assert (H1 : evtype 0xB0 = 0xB) by reflexivity.
  assert (H2 : Mini.knob_bank (self w) = 1) by reflexivity.
  assert (H3 : data7 89 = 89) by reflexivity.
  assert (H4 : data7 65 ≠ 64) by discriminate.
  split; [exact H1|]. split; [exact H2|]. split; [exact H3|]. split; [exact H4|].
  destruct (proj1 (proj2 (proj2 (preset_browsing 0 0xB0 89 65 [] w H1 H2 H3)) H4)
              (Chain PyNone (Val p)) p ["a"; "b"; "c"] eq_refl eq_refl eq_refl)
    as (_ & _ & Hrun); [discriminate|].
  exact Hrun.
Defined.

(** X21.  The arrow knobs of bank 1 (knobs 7 and 8, CC 91 and 92 of the
    transport driver) send one arrow per message, chosen by the sign of the
    relative delta: CC 91 sends ARROW_LEFT for a negative delta and
    ARROW_RIGHT for a positive one, CC 92 sends ARROW_UP for a negative delta
    and ARROW_DOWN for a positive one; value 64 sends nothing.  The size of
    the delta is ignored, the event is handled and the driver is
    untouched. *)
Theorem arrow_knobs now ev0 ev1 ev2 rest (w : world Mini.driver) :
  evtype ev0 = 0xB → Mini.knob_bank (self w) = 1 →
  data7 ev1 = 91 ∨ data7 ev1 = 92 →
  let delta := Mini.relative_delta (data7 ev2) in
  let ccw := if data7 ev1 =? 91 then "ARROW_LEFT" else "ARROW_UP" in
  let cw := if data7 ev1 =? 91 then "ARROW_RIGHT" else "ARROW_DOWN" in
  Mini.midi_event now (ev0 :: ev1 :: ev2 :: rest) w
  = (Ok true,
     if delta <? 0 then with_out (out w ++ [send_cuia ccw None]) w
     else if 0 <? delta then with_out (out w ++ [send_cuia cw None]) w
     else w).
Proof.
  intros Hty Hbank Hcc delta ccw cw. subst delta ccw cw.
  rewrite mini_arrow_event by done.
  unfold Mini.arrow_knob, Mini.relative_delta, bind, emit, modify, ret.
  repeat match goal with
    | |- context [?a =? ?b] => destruct (Z.eqb_spec a b)
    | |- context [?a <? ?b] => destruct (Z.ltb_spec a b)
    end; simpl in *; try reflexivity; lia.
Qed.

Lemma arrow_knobs_witness :
  let w := example_world (Mini.Driver false ∅ 1 0) in
  evtype 0xB0 = 0xB ∧ Mini.knob_bank (self w) = 1
  ∧ (data7 92 = 91 ∨ data7 92 = 92)
  ∧ Mini.midi_event 0 [0xB0; 92; 3] w
    = (Ok true, with_out [send_cuia "ARROW_UP" None] w).
Proof.
  intros w.
  assert (H1 : evtype 0xB0 = 0xB) by reflexivity.
  assert (H2 : Mini.knob_bank (self w) = 1) by reflexivity.
  assert (H3 : data7 92 = 91 ∨ data7 92 = 92) by (right; reflexivity).
  split; [exact H1|]. split; [exact H2|]. split; [exact H3|].
  exact (arrow_knobs 0 0xB0 92 3 [] w H1 H2 H3).
Defined.


(** ** Which events are reported not handled *)

Lemma run_ret_true {D A} (m : M (world D) A) (w : world D) :
  fst ((run m; ret true) w) ≠ Ok false.
Proof. unfold bind. by destruct (m w) as [[a|e] w1]. Qed.

Lemma get_self_run {D A} (k : D → M (world D) A) (w : world D) :
  (do d <- get_self; k d) w = k (self w) w.
Proof. done. Qed.

Lemma mini_knob_handled now chan ccnum ccval (w : world Mini.driver) :
  mini_inv (self w) → fst (Mini.knob now chan ccnum ccval w) ≠ Ok false.
Proof.
  intros [Hbank _]. unfold Mini.knob. rewrite get_self_run.
  destruct (Z.eqb_spec (Mini.knob_bank (self w)) 0); [apply run_ret_true|].
  destruct (Z.eqb_spec (Mini.knob_bank (self w)) 1).
  { repeat (case_match; [apply run_ret_true|]). done. }
  destruct (Z.eqb_spec (Mini.knob_bank (self w)) 2); [apply run_ret_true|].
  lia.
Qed.

Lemma mk4_knob_result chan ccnum ccval (w : world Mk4.driver) :
  mk4_inv (self w) →
  (Mk4.knob_bank (self w) = 2 → Mk4.knob chan ccnum ccval w = (Ok false, w))
  ∧ (Mk4.knob_bank (self w) ≠ 2 →
     fst (Mk4.knob chan ccnum ccval w) ≠ Ok false).
Proof.
  intros [Hbank _]. unfold Mk4.knob. rewrite !get_self_run. split.
  - by intros ->.
  - intros Hne.
    destruct (Z.eqb_spec (Mk4.knob_bank (self w)) 0); [apply run_ret_true|].
    destruct (Z.eqb_spec (Mk4.knob_bank (self w)) 1); [|lia].
    case_match; apply run_ret_true.
Qed.

Lemma mini_control_change_handled now chan ccnum ccval (w : world Mini.driver) :
  mini_inv (self w) → mini_earlier_handler ccnum ccval = true →
  fst (Mini.control_change now chan ccnum ccval w) ≠ Ok false.
Proof.
  intros Hinv Hh. unfold Mini.control_change.
  destruct ((ccnum =? 51) && (0 <? ccval)) eqn:E1; [apply run_ret_true|].
  destruct ((ccnum =? 52) && (0 <? ccval)) eqn:E2; [apply run_ret_true|].
  destruct (ccnum =? 63) eqn:E3; [rewrite get_self_run; apply run_ret_true|].
  destruct (ccnum =? 104) eqn:E4; [apply run_ret_true|].
  destruct ((84 <? ccnum) && (ccnum <? 93)) eqn:E5;
    [by apply mini_knob_handled|].
  destruct ((ccnum =? 74) || (ccnum =? 75) || (ccnum =? 76) || (ccnum =? 77))
    eqn:E6.
  { rewrite get_self_run. case_match; apply run_ret_true. }
  destruct ((ccnum =? 115) && (0 <? ccval)) eqn:E7;
    [rewrite get_self_run; apply run_ret_true|].
  destruct ((ccnum =? 117) && (0 <? ccval)) eqn:E8;
    [rewrite get_self_run; apply run_ret_true|].
  unfold mini_earlier_handler in Hh.
  rewrite E1, E2, E3, E4, E5, E6, E7, E8 in Hh. simpl in Hh.
  apply andb_true_iff in Hh as [Hcmd%bool_decide_eq_true Hv]. rewrite Hv.
  destruct Hcmd as [command ->].
  unfold bind, get, emit, modify, ret. done.
Qed.

Lemma mk4_control_change_handled now chan ccnum ccval (w : world Mk4.driver) :
  mk4_inv (self w) → mk4_earlier_handler ccnum ccval = true →
  ((20 <? ccnum) && (ccnum <? 29) = true → Mk4.knob_bank (self w) ≠ 2) →
  fst (Mk4.control_change now chan ccnum ccval w) ≠ Ok false.
Proof.
  intros Hinv Hh Hknob. unfold Mk4.control_change.
  destruct ((ccnum =? 51) && (0 <? ccval)) eqn:E1; [apply run_ret_true|].
  destruct ((ccnum =? 52) && (0 <? ccval)) eqn:E2; [apply run_ret_true|].
  destruct (ccnum =? 63) eqn:E3; [rewrite get_self_run; apply run_ret_true|].
  destruct (ccnum =? 105) eqn:E4; [apply run_ret_true|].
  destruct ((20 <? ccnum) && (ccnum <? 29)) eqn:E5.
  { apply mk4_knob_result; auto. }
  destruct ((ccnum =? 74) || (ccnum =? 75) || (ccnum =? 76) || (ccnum =? 77))
    eqn:E6.
  { rewrite get_self_run. case_match; apply run_ret_true. }
  destruct ((ccnum =? 115) && (0 <? ccval)) eqn:E7;
    [rewrite get_self_run; apply run_ret_true|].
  destruct ((ccnum =? 117) && (0 <? ccval)) eqn:E8;
    [rewrite get_self_run; apply run_ret_true|].
  unfold mk4_earlier_handler in Hh.
  rewrite E1, E2, E3, E4, E5, E6, E7, E8 in Hh. simpl in Hh.
  apply andb_true_iff in Hh as [Hcmd%bool_decide_eq_true Hv]. rewrite Hv.
  destruct Hcmd as [command ->].
  unfold bind, get, emit, modify, ret. done.
Qed.

Lemma mk4_control_change_knob now chan ccnum ccval (w : world Mk4.driver) :
  (20 <? ccnum) && (ccnum <? 29) = true →
  Mk4.control_change now chan ccnum ccval w = Mk4.knob chan ccnum ccval w.
Proof.
  intros [H1%Z.ltb_lt H2%Z.ltb_lt]%andb_true_iff. unfold Mk4.control_change.
  repeat match goal with
    | |- context [?a =? ?b] => destruct (Z.eqb_spec a b); [lia|]
    end.
  simpl.
  destruct (Z.ltb_spec 20 ccnum); [|lia].
  by destruct (Z.ltb_spec ccnum 29); [|lia].
Qed.

(** X22.  Exactly which complete messages [midi_event] reports as not
    handled, and that it changes nothing when it does.  For the transport
    driver: messages that are neither note, control change nor program
    change, and control changes that no branch takes and whose controller
    number and value are both nonzero.  For the pickup driver the same, and
    in addition every knob message (CC 21..28) while bank 2 is selected.
    Every other message is reported handled or raises. *)
Theorem unhandled_events now ev0 ev1 ev2 rest :
  let ev := ev0 :: ev1 :: ev2 :: rest in
  let ccnum := data7 ev1 in
  let ccval := data7 ev2 in
  let foreign := is_note ev0 = false ∧ evtype ev0 ≠ 0xB ∧ evtype ev0 ≠ 0xC in
  (∀ w : world Mini.driver,
      mini_inv (self w) →
      (fst (Mini.midi_event now ev w) = Ok false
       ↔ foreign
         ∨ (evtype ev0 = 0xB ∧ mini_earlier_handler ccnum ccval = false
            ∧ ccnum ≠ 0 ∧ ccval ≠ 0))
      ∧ (fst (Mini.midi_event now ev w) = Ok false →
         snd (Mini.midi_event now ev w) = w))
  ∧ (∀ w : world Mk4.driver,
      mk4_inv (self w) →
      (fst (Mk4.midi_event now ev w) = Ok false
       ↔ foreign
         ∨ (evtype ev0 = 0xB ∧ mk4_earlier_handler ccnum ccval = false
            ∧ ccnum ≠ 0 ∧ ccval ≠ 0)
         ∨ (evtype ev0 = 0xB ∧ 21 ≤ ccnum ≤ 28 ∧ Mk4.knob_bank (self w) = 2))
      ∧ (fst (Mk4.midi_event now ev w) = Ok false →
         snd (Mk4.midi_event now ev w) = w)).
Proof.
  intros ev ccnum ccval foreign. subst ev ccnum ccval foreign.
  split; intros w Hinv.
  - destruct (is_note ev0) eqn:Hn.
    { assert (HB : evtype ev0 ≠ 0xB).
      { unfold is_note in Hn. intros HB. by rewrite HB in Hn. }
      rewrite mini_midi_event_note by done.
      assert (Hnf : ∀ r, fst r ≠ Ok false →
                (fst r = Ok false ↔ False) ∧ (fst r = Ok false → snd r = w))
        by (intros r Hr; split; [split|]; done).
      destruct (is_pad (data7 ev1)).
      - destruct (Hnf _ (run_ret_true (pad_note 14 118 (evtype ev0) (data7 ev1)
                                          (data7 ev2)) w)) as [H1 H2].
        split; [|done]. rewrite H1. split; [done|]. intros [(? & _)|(? & _)]; done.
      - simpl. split; [|done]. split; [done|].
        intros [(? & _)|(? & _)]; done. }
    destruct (Z.eq_dec (evtype ev0) 0xB) as [HB|HB].
    + rewrite mini_midi_event_cc by done.
      destruct (mini_earlier_handler (data7 ev1) (data7 ev2)) eqn:Hh.
      * pose proof (mini_control_change_handled now (ev_chan ev0) _ _ w Hinv Hh).
        split; [|done]. split; [done|].
        intros [(_ & ? & _)|(_ & ? & _)]; done.
      * rewrite mini_control_change_unmatched by done. simpl. split; [|done].
        destruct (Z.eqb_spec (data7 ev1) 0), (Z.eqb_spec (data7 ev2) 0); simpl;
          split; try done; try (intros [(_ & ? & _)|(_ & _ & ? & ?)]; done);
          intros _; by right.
    + rewrite mini_midi_event_other by done.
      destruct (Z.eqb_spec (evtype ev0) 0xC) as [HC|HC]; simpl.
      * split; [|done]. split; [done|].
        intros [(_ & _ & ?)|(? & _)]; done.
      * split; [|done]. split; [by left|done].
  - destruct (is_note ev0) eqn:Hn.
    { assert (HB : evtype ev0 ≠ 0xB).
      { unfold is_note in Hn. intros HB. by rewrite HB in Hn. }
      rewrite mk4_midi_event_note by done.
      destruct (is_pad (data7 ev1)).
      - pose proof (run_ret_true (pad_note 5 10 (evtype ev0) (data7 ev1)
                                    (data7 ev2)) w).
        split; [|done]. split; [done|].
        intros [(? & _)|[(? & _)|(? & _)]]; done.
      - simpl. split; [|done]. split; [done|].
        intros [(? & _)|[(? & _)|(? & _)]]; done. }
    destruct (Z.eq_dec (evtype ev0) 0xB) as [HB|HB].
    + rewrite mk4_midi_event_cc by done.
      destruct (mk4_earlier_handler (data7 ev1) (data7 ev2)) eqn:Hh.
      * destruct ((20 <? data7 ev1) && (data7 ev1 <? 29)) eqn:Hk.
        -- rewrite mk4_control_change_knob by done.
           destruct (mk4_knob_result (ev_chan ev0) (data7 ev1) (data7 ev2) w Hinv)
             as [H2 Hn2].
           apply andb_true_iff in Hk as [Hk1%Z.ltb_lt Hk2%Z.ltb_lt].
           destruct (Z.eq_dec (Mk4.knob_bank (self w)) 2) as [Hb|Hb].
           ++ rewrite (H2 Hb). simpl. split; [|done]. split; [|done].
              intros _. right. right. split; [done|]. split; [lia|done].
           ++ specialize (Hn2 Hb). split; [|done]. split; [done|].
              intros [(_ & ? & _)|[(_ & ? & _)|(_ & _ & ?)]]; done.
        -- assert (Hnk : (20 <? data7 ev1) && (data7 ev1 <? 29) = true →
                         Mk4.knob_bank (self w) ≠ 2) by (by rewrite Hk).
           pose proof (mk4_control_change_handled now (ev_chan ev0) _ _ w
                         Hinv Hh Hnk).
           split; [|done]. split; [done|].
           intros [(_ & ? & _)|[(_ & ? & _)|(_ & Hr & _)]]; try done.
           apply andb_false_iff in Hk as [Hk%Z.ltb_ge|Hk%Z.ltb_ge]; lia.
      * rewrite mk4_control_change_unmatched by done. simpl. split; [|done].
        assert (Hnk : ¬ 21 ≤ data7 ev1 ≤ 28).
        { unfold mk4_earlier_handler in Hh.
          repeat (apply orb_false_elim in Hh; destruct Hh as [Hh ?]).
          intros Hr.
          assert ((20 <? data7 ev1) && (data7 ev1 <? 29) = true); [|congruence].
          apply andb_true_iff. split; apply Z.ltb_lt; lia. }
        destruct (Z.eqb_spec (data7 ev1) 0), (Z.eqb_spec (data7 ev2) 0); simpl;
          split; try done;
          try (intros [(_ & ? & _)|[(_ & _ & ? & ?)|(_ & ? & _)]]; done);
          intros _; right; by left.
    + rewrite mk4_midi_event_other by done.
      destruct (Z.eqb_spec (evtype ev0) 0xC) as [HC|HC]; simpl.
      * split; [|done]. split; [done|].
        intros [(_ & _ & ?)|[(? & _)|(? & _)]]; done.
      * split; [|done]. split; [by left|done].
Qed.

Lemma unhandled_events_witness :
  fst (Mk4.midi_event 0 [0xB0; 21; 64] (example_world (Mk4.Driver false ∅ 2 ∅ ∅)))
  = Ok false
  ∧ fst (Mini.midi_event 0 [0xB0; 9; 1] (example_world Mini.init)) = Ok false.
Proof.
  destruct (unhandled_events 0 0xB0 21 64 []) as [_ Hmk4].
  destruct (unhandled_events 0 0xB0 9 1 []) as [Hmini _].
  split.
  - apply (Hmk4 (example_world (Mk4.Driver false ∅ 2 ∅ ∅))).
    + unfold mk4_inv. simpl. split; [lia|]. split_and!; apply map_Forall_empty.
    + right. right. split; [reflexivity|]. split; [|reflexivity].
      vm_compute. split; discriminate.
  - apply (Hmini (example_world Mini.init)).
    + unfold mini_inv. simpl. split; [lia|]. apply map_Forall_empty.
    + right. split; [reflexivity|]. split; [reflexivity|]. split; discriminate.
Defined.


(** ** What a message is read through *)

Lemma data7_idemp (b : Z) : data7 (data7 b) = data7 b.
Proof. unfold data7. by rewrite <- Z.land_assoc, Z.land_diag. Qed.

Lemma status_plus (c : Z) :
  0 ≤ c ≤ 15 → evtype (0xB0 + c) = 0xB ∧ ev_chan (0xB0 + c) = c.
Proof.
  intros Hc. destruct (status_byte c Hc) as (H1 & H2 & H3).
  by rewrite <- H1.
Qed.

Lemma note_status (ev0 : Z) :
  is_note ev0 = true →
  is_note (16 * evtype ev0) = true ∧ evtype (16 * evtype ev0) = evtype ev0.
Proof.
  unfold is_note. intros [->%Z.eqb_eq | ->%Z.eqb_eq]%orb_true_iff; by split.
Qed.

(** X23.  [midi_event] reads a message through its masks only.  A control
    change is handled by its channel, its 7-bit controller number and its
    7-bit value: bytes after the third and bit 7 of the data bytes make no
    difference.  A note event on a pad note (96..119) is handled by its type,
    note and velocity alone: the MIDI channel, later bytes and the clock make
    no difference, so pad notes are taken on every channel. *)
Theorem messages_are_read_through_masks now now' ev0 ev1 ev2 rest :
  let ev := ev0 :: ev1 :: ev2 :: rest in
  (evtype ev0 = 0xB →
   let short := [0xB0 + ev_chan ev0; data7 ev1; data7 ev2] in
   (∀ w : world Mk4.driver, Mk4.midi_event now ev w = Mk4.midi_event now short w)
   ∧ (∀ w : world Mini.driver,
         Mini.midi_event now ev w = Mini.midi_event now short w))
  ∧ (is_note ev0 = true → 96 ≤ data7 ev1 ≤ 119 →
     let short := [16 * evtype ev0; data7 ev1; data7 ev2] in
     (∀ w : world Mk4.driver,
         Mk4.midi_event now ev w = Mk4.midi_event now' short w)
     ∧ (∀ w : world Mini.driver,
           Mini.midi_event now ev w = Mini.midi_event now' short w)).
Proof.
  intros ev. subst ev. split.
  - intros Hty short. subst short.
    destruct (status_plus (ev_chan ev0) (ev_chan_range ev0)) as [H1 H2].
    split; intros w.
    + rewrite !mk4_midi_event_cc by done. by rewrite H2, !data7_idemp.
    + rewrite !mini_midi_event_cc by done. by rewrite H2, !data7_idemp.
  - intros Hn Hnote short. subst short.
    destruct (note_status ev0 Hn) as [H1 H2].
    split; intros w.
    + rewrite (mk4_midi_event_note now ev0) by done.
      rewrite (mk4_midi_event_note now' (16 * evtype ev0)) by done.
      by rewrite H2, !data7_idemp, is_pad_true by lia.
    + rewrite (mini_midi_event_note now ev0) by done.
      rewrite (mini_midi_event_note now' (16 * evtype ev0)) by done.
      by rewrite H2, !data7_idemp, is_pad_true by lia.
Qed.

Lemma messages_are_read_through_masks_witness :
  evtype 0xB5 = 0xB
  ∧ ∀ w : world Mini.driver,
      Mini.midi_event 0 [0xB5; 85 + 128; 3 + 128; 7; 7] w
      = Mini.midi_event 0 [0xB5; 85; 3] w.
Proof.
  assert (H1 : evtype 0xB5 = 0xB) by reflexivity.
  split; [exact H1|].
  exact (proj2 (proj1 (messages_are_read_through_masks 0 0 0xB5 (85 + 128)
                         (3 + 128) [7; 7]) H1)).
Defined.

(** ** Bank round trips *)

Lemma mod3_round_trips (b : Z) :
  0 ≤ b ≤ 2 →
  ((b + 1) `mod` 3 - 1) `mod` 3 = b
  ∧ ((b - 1) `mod` 3 + 1) `mod` 3 = b
  ∧ (((b + 1) `mod` 3 + 1) `mod` 3 + 1) `mod` 3 = b.
Proof.
  intros Hb. assert (b = 0 ∨ b = 1 ∨ b = 2) as [-> |[-> | ->]] by lia; done.
Qed.

Lemma mk4_bank_step now ev0 ev1 ev2 (w : world Mk4.driver) turn :
  evtype ev0 = 0xB → 0 < data7 ev2 → Mk4.shift (self w) = false →
  (data7 ev1 = 51 ∧ turn = (λ bank, (bank - 1) `mod` 3)) ∨
  (data7 ev1 = 52 ∧ turn = (λ bank, (bank + 1) `mod` 3)) →
  snd (Mk4.midi_event now [ev0; ev1; ev2] w)
  = with_out (out w ++ button_led_writes (idev_out w)
                         (turn (Mk4.knob_bank (self w))))
      (with_self (Mk4.Driver false (Mk4.press_times (self w))
                    (turn (Mk4.knob_bank (self w))) ∅
                    (Mk4.last_zynpot_values (self w))) w).
Proof.
  intros Hty Hv Hs [[Hcc ->]|[Hcc ->]].
  - rewrite (mk4_bank_event _ _ _ _ _ "ARROW_UP" (λ bank, (bank - 1) `mod` 3))
      by (done || by left).
    by rewrite mk4_bank_button_run, Hs.
  - rewrite (mk4_bank_event _ _ _ _ _ "ARROW_DOWN" (λ bank, (bank + 1) `mod` 3))
      by (done || by right).
    by rewrite mk4_bank_button_run, Hs.
Qed.

Lemma mini_bank_step now ev0 ev1 ev2 (w : world Mini.driver) turn :
  evtype ev0 = 0xB → 0 < data7 ev2 → Mini.shift (self w) = false →
  (data7 ev1 = 51 ∧ turn = (λ bank, (bank - 1) `mod` 3)) ∨
  (data7 ev1 = 52 ∧ turn = (λ bank, (bank + 1) `mod` 3)) →
  snd (Mini.midi_event now [ev0; ev1; ev2] w)
  = with_out (out w ++ button_led_writes (idev_out w)
                         (turn (Mini.knob_bank (self w))))
      (with_self (Mini.Driver false (Mini.press_times (self w))
                    (turn (Mini.knob_bank (self w)))
                    (Mini.last_select_back_time (self w))) w).
Proof.
  intros Hty Hv Hs [[Hcc ->]|[Hcc ->]].
  - rewrite (mini_bank_event _ _ _ _ _ "ARROW_UP" (λ bank, (bank - 1) `mod` 3))
      by (done || by left).
    by rewrite mini_bank_button_run, Hs.
  - rewrite (mini_bank_event _ _ _ _ _ "ARROW_DOWN" (λ bank, (bank + 1) `mod` 3))
      by (done || by right).
    by rewrite mini_bank_button_run, Hs.
Qed.

(** X24.  The bank buttons walk a cycle of three.  Without shift, from a
    bank within 0..2 (which the driver always has), next-bank (CC 52) then
    previous-bank (CC 51) returns to the bank it started from, and so do
    previous then next, and three presses of next; the button LEDs written
    last show the starting bank again.  In the pickup driver the round trip
    is not an identity on the driver: [mixer_synced] is empty after it. *)
Theorem bank_round_trips t1 t2 t3 ev0 ev2 :
  evtype ev0 = 0xB → 0 < data7 ev2 →
  let next := [ev0; 52; ev2] in
  let previous := [ev0; 51; ev2] in
  (∀ w : world Mk4.driver,
      0 ≤ Mk4.knob_bank (self w) ≤ 2 → Mk4.shift (self w) = false →
      let bank := Mk4.knob_bank (self w) in
      let back := with_self (Mk4.set_mixer_synced ∅ (self w)) w in
      mk4_events [(t1, next); (t2, previous)] w
      = with_out (out w ++ button_led_writes (idev_out w) ((bank + 1) `mod` 3)
                        ++ button_led_writes (idev_out w) bank) back
      ∧ mk4_events [(t1, previous); (t2, next)] w
        = with_out (out w ++ button_led_writes (idev_out w) ((bank - 1) `mod` 3)
                          ++ button_led_writes (idev_out w) bank) back
      ∧ self (mk4_events [(t1, next); (t2, next); (t3, next)] w) = self back)
  ∧ (∀ w : world Mini.driver,
      0 ≤ Mini.knob_bank (self w) ≤ 2 → Mini.shift (self w) = false →
      let bank := Mini.knob_bank (self w) in
      mini_events [(t1, next); (t2, previous)] w
      = with_out (out w ++ button_led_writes (idev_out w) ((bank + 1) `mod` 3)
                        ++ button_led_writes (idev_out w) bank) w
      ∧ mini_events [(t1, previous); (t2, next)] w
        = with_out (out w ++ button_led_writes (idev_out w) ((bank - 1) `mod` 3)
                          ++ button_led_writes (idev_out w) bank) w
      ∧ self (mini_events [(t1, next); (t2, next); (t3, next)] w) = self w).
Proof.
  intros Hty Hv next previous. subst next previous.
  split; intros w Hb Hs bank; subst bank;
    destruct (mod3_round_trips _ Hb) as (H1 & H2 & H3).
  - intros back. subst back. cbn [mk4_events].
    repeat match goal with
      | |- context [Mk4.midi_event ?t [ev0; 52; ev2] ?w0] =>
          rewrite (mk4_bank_step t ev0 52 ev2 w0 (λ bank, (bank + 1) `mod` 3))
            by (done || by right)
      | |- context [Mk4.midi_event ?t [ev0; 51; ev2] ?w0] =>
          rewrite (mk4_bank_step t ev0 51 ev2 w0 (λ bank, (bank - 1) `mod` 3))
            by (done || by left)
      end.
    destruct w as [[sh pt b ms lz] idev hcm hzm cm zm o]. simpl in *. subst sh.
    unfold with_out, with_self, Mk4.set_mixer_synced. simpl.
    rewrite H1, H2, H3, <- !app_assoc. done.
  - cbn [mini_events].
    repeat match goal with
      | |- context [Mini.midi_event ?t [ev0; 52; ev2] ?w0] =>
          rewrite (mini_bank_step t ev0 52 ev2 w0 (λ bank, (bank + 1) `mod` 3))
            by (done || by right)
      | |- context [Mini.midi_event ?t [ev0; 51; ev2] ?w0] =>
          rewrite (mini_bank_step t ev0 51 ev2 w0 (λ bank, (bank - 1) `mod` 3))
            by (done || by left)
      end.
    destruct w as [[sh pt b ls] idev hcm hzm cm zm o]. simpl in *. subst sh.
    unfold with_out, with_self. simpl.
    rewrite H1, H2, H3, <- !app_assoc. done.
Qed.

Lemma bank_round_trips_witness :
  let w := example_world (Mini.Driver false ∅ 2 0) in
  evtype 0xB0 = 0xB ∧ 0 < data7 127
  ∧ 0 ≤ Mini.knob_bank (self w) ≤ 2 ∧ Mini.shift (self w) = false
  ∧ self (mini_events [(0%float, [0xB0; 52; 127]); (0%float, [0xB0; 52; 127]);
                       (0%float, [0xB0; 52; 127])] w) = self w.
Proof.
  intros w.
  assert (H1 : evtype 0xB0 = 0xB) by reflexivity.
  assert (H2 : 0 < data7 127) by reflexivity.
  assert (H3 : 0 ≤ Mini.knob_bank (self w) ≤ 2) by (simpl; lia).
  assert (H4 : Mini.shift (self w) = false) by reflexivity.
  split; [exact H1|]. split; [exact H2|]. split; [exact H3|]. split; [exact H4|].
  exact (proj2 (proj2 (proj2 (bank_round_trips 0 0 0 0xB0 127 H1 H2) w H3 H4))).
Defined.

(** ** Levels at the ends of the range *)

Lemma nudge_up_from_one (v : Z) :
  65 ≤ v ≤ 127 → mini_nudged_level 1 v = 1%float.
Proof.
  intros Hv.
  assert (Hall : Forall (λ v, mini_nudged_level 1 v = 1%float) (seqZ 65 63)).
  { let l := eval vm_compute in (seqZ 65 63) in change (seqZ 65 63) with l.
    repeat (apply List.Forall_cons; [vm_compute; reflexivity|]).
    apply List.Forall_nil. }
  rewrite list.Forall_forall in Hall. apply Hall, elem_of_seqZ. lia.
Qed.

Lemma nudge_down_from_zero (v : Z) :
  0 ≤ v ≤ 63 → mini_nudged_level 0 v = 0%float.
Proof.
  intros Hv.
  assert (Hall : Forall (λ v, mini_nudged_level 0 v = 0%float) (seqZ 0 64)).
  { let l := eval vm_compute in (seqZ 0 64) in change (seqZ 0 64) with l.
    repeat (apply List.Forall_cons; [vm_compute; reflexivity|]).
    apply List.Forall_nil. }
  rewrite list.Forall_forall in Hall. apply Hall, elem_of_seqZ. lia.
Qed.

(** X25.  The transport driver's mixer knobs stop at the ends of the range.
    In bank 0, on a position that resolves to a channel whose level is
    exactly 1.0, every clockwise value (65..127) sets the level to 1.0 again;
    on a channel whose level is 0.0, every counter-clockwise value (0..63)
    sets it to 0.0 again.  The [set_level] call is made all the same. *)
Theorem level_stops_at_the_ends now ev0 ev1 ev2 rest (w : world Mini.driver)
    c ch :
  evtype ev0 = 0xB → Mini.knob_bank (self w) = 0 → 85 ≤ data7 ev1 ≤ 92 →
  has_chain_manager w = true → has_zynmixer w = true →
  get_chain_by_position (chain_manager w) (data7 ev1 - 84 - 1) = Found c →
  mixer_chan c = Val ch → ch < 17 →
  let ev := ev0 :: ev1 :: ev2 :: rest in
  (get_level (zynmixer w) ch = 1%float → 65 ≤ data7 ev2 →
   Mini.midi_event now ev w
   = (Ok true,
      with_out (out w ++ [set_level ch 1])
        (with_zynmixer (set_level_in ch 1 (zynmixer w)) w))
   ∧ get_level (set_level_in ch 1 (zynmixer w)) ch = 1%float)
  ∧ (get_level (zynmixer w) ch = 0%float → data7 ev2 ≤ 63 →
     Mini.midi_event now ev w
     = (Ok true,
        with_out (out w ++ [set_level ch 0])
          (with_zynmixer (set_level_in ch 0 (zynmixer w)) w))
     ∧ get_level (set_level_in ch 0 (zynmixer w)) ch = 0%float).
Proof.
  intros Hty Hbank Hcc Hcm Hzm Hchain Hchan Hch ev. subst ev.
  rewrite (mini_mixer_event _ _ _ _ _ _ c ch) by done.
  pose proof (data7_7bit ev2) as Hv. split.
  - intros Hlevel Hup.
    assert ((Mini.relative_delta (data7 ev2) =? 0) = false) as ->.
    { apply Z.eqb_neq. rewrite relative_delta_zero. lia. }
    simpl. rewrite Hlevel, nudge_up_from_one by lia.
    split; [done|]. apply fn_lookup_insert.
  - intros Hlevel Hdown.
    assert ((Mini.relative_delta (data7 ev2) =? 0) = false) as ->.
    { apply Z.eqb_neq. rewrite relative_delta_zero. lia. }
    simpl. rewrite Hlevel, nudge_down_from_zero by lia.
    split; [done|]. apply fn_lookup_insert.
Qed.

Lemma level_stops_at_the_ends_witness :
  let w := World (Mini.Driver false ∅ 0 0) (Some 1) true true example_chains
             (Zynmixer (λ _, 1%float) (λ _, 0) (λ _, 0)) [] in
  evtype 0xB0 = 0xB ∧ 85 ≤ data7 85 ≤ 92 ∧ 65 ≤ data7 100
  ∧ Mini.midi_event 0 [0xB0; 85; 100] w
    = (Ok true,
       with_out [set_level 0 1] (with_zynmixer (set_level_in 0 1 (zynmixer w)) w)).
Proof.
  intros w.
  assert (H1 : evtype 0xB0 = 0xB) by reflexivity.
  assert (H2 : 85 ≤ data7 85 ≤ 92) by (vm_compute; split; discriminate).
  assert (H3 : 65 ≤ data7 100) by (vm_compute; discriminate).
  split; [exact H1|]. split; [exact H2|]. split; [exact H3|].
  exact (proj1 (proj1 (level_stops_at_the_ends 0 0xB0 85 100 [] w
                         (Chain (Val 0) PyNone) 0
                         H1 eq_refl H2 eq_refl eq_refl eq_refl eq_refl eq_refl)
                  eq_refl H3)).
Defined.


(** ** Mixer knobs on a host that does not answer *)

Lemma checked_lookup_outcomes {D A} i (k : option Z → M (world D) A)
    (w : world D) :
  let m := do chain <- chain_by_position i;
           do mc <- checked_mixer_chan chain; k mc in
  (has_chain_manager w = false → m w = (Raise AttributeError, w))
  ∧ (has_chain_manager w = true →
     match get_chain_by_position (chain_manager w) i with
     | LookupRaises => m w = (Raise HostError, w)
     | NoChain => m w = k None w
     | Found c =>
         match mixer_chan c with
         | Missing => m w = (Raise AttributeError, w)
         | PyNone => m w = k None w
         | Val ch => m w = k (if ch <? 17 then Some ch else None) w
         end
     end).
Proof.
  intros m. subst m.
  unfold chain_by_position, checked_mixer_chan, bind, get, ret, raise.
  split; [by intros ->|]. intros ->.
  destruct (get_chain_by_position _ _) as [| |c]; try done.
  by destruct (mixer_chan c) as [| |ch].
Qed.

Lemma mk4_mixer_knob_event now ev0 ev1 ev2 rest (w : world Mk4.driver) :
  evtype ev0 = 0xB → Mk4.knob_bank (self w) = 0 → 21 ≤ data7 ev1 ≤ 26 →
  Mk4.midi_event now (ev0 :: ev1 :: ev2 :: rest) w
  = (run Mk4.mixer_knob (data7 ev1) (data7 ev2); ret true) w.
Proof.
  intros Hty Hbank Hcc. rewrite mk4_knob_event by (done || lia).
  unfold Mk4.knob. rewrite get_self_run, Hbank. simpl.
  destruct (Z.ltb_spec 20 (data7 ev1)); [|lia].
  by destruct (Z.ltb_spec (data7 ev1) 27); [|lia].
Qed.

Lemma mini_mixer_knob_event now ev0 ev1 ev2 rest (w : world Mini.driver) :
  evtype ev0 = 0xB → Mini.knob_bank (self w) = 0 → 85 ≤ data7 ev1 ≤ 92 →
  Mini.midi_event now (ev0 :: ev1 :: ev2 :: rest) w
  = (run Mini.mixer_knob (data7 ev1) (data7 ev2); ret true) w.
Proof.
  intros Hty Hbank Hcc. rewrite mini_knob_event by done.
  unfold Mini.knob. by rewrite get_self_run, Hbank.
Qed.

(** X26.  A mixer knob in bank 0 is not shielded against the host either.
    When the chain lookup finds no chain, or [mixer_chan] is [None] or 17 or
    more, the message is handled and nothing changes.  When the driver has no
    chain manager, the lookup raises or the chain has no [mixer_chan]
    attribute, the exception leaves [midi_event] with nothing changed.  When
    the position resolves but the driver has no mixer, the pickup driver
    raises on every value, the transport driver on every value but 64, which
    it handles without looking at the mixer. *)
Theorem mixer_knob_failures now ev0 ev1 ev2 rest :
  evtype ev0 = 0xB →
  let ev := ev0 :: ev1 :: ev2 :: rest in
  (∀ w : world Mk4.driver,
      Mk4.knob_bank (self w) = 0 → 21 ≤ data7 ev1 ≤ 26 →
      (has_chain_manager w = false →
       Mk4.midi_event now ev w = (Raise AttributeError, w))
      ∧ (has_chain_manager w = true →
         match get_chain_by_position (chain_manager w) (data7 ev1 - 21) with
         | LookupRaises => Mk4.midi_event now ev w = (Raise HostError, w)
         | NoChain => Mk4.midi_event now ev w = (Ok true, w)
         | Found c =>
             match mixer_chan c with
             | Missing => Mk4.midi_event now ev w = (Raise AttributeError, w)
             | PyNone => Mk4.midi_event now ev w = (Ok true, w)
             | Val ch =>
                 if ch <? 17 then
                   has_zynmixer w = false →
                   Mk4.midi_event now ev w = (Raise AttributeError, w)
                 else Mk4.midi_event now ev w = (Ok true, w)
             end
         end))
  ∧ (∀ w : world Mini.driver,
      Mini.knob_bank (self w) = 0 → 85 ≤ data7 ev1 ≤ 92 →
      (has_chain_manager w = false →
       Mini.midi_event now ev w = (Raise AttributeError, w))
      ∧ (has_chain_manager w = true →
         match get_chain_by_position (chain_manager w) (data7 ev1 - 85) with
         | LookupRaises => Mini.midi_event now ev w = (Raise HostError, w)
         | NoChain => Mini.midi_event now ev w = (Ok true, w)
         | Found c =>
             match mixer_chan c with
             | Missing => Mini.midi_event now ev w = (Raise AttributeError, w)
             | PyNone => Mini.midi_event now ev w = (Ok true, w)
             | Val ch =>
                 if ch <? 17 then
                   has_zynmixer w = false →
                   Mini.midi_event now ev w
                   = if data7 ev2 =? 64 then (Ok true, w)
                     else (Raise AttributeError, w)
                 else Mini.midi_event now ev w = (Ok true, w)
             end
         end)).
Proof.
  intros Hty ev. subst ev. split; intros w Hbank Hcc.
  - rewrite mk4_mixer_knob_event by done.
    unfold Mk4.mixer_knob. cbn zeta.
    replace (data7 ev1 - 21) with (data7 ev1 - 20 - 1) by lia.
    match goal with
    | |- context [bind (chain_by_position ?i)
                    (λ chain, bind (checked_mixer_chan chain) ?k)] =>
        destruct (checked_lookup_outcomes i k w) as [H1 H2]
    end.
    cbn zeta in H1, H2. split.
    + intros Hcm. unfold bind at 1. by rewrite (H1 Hcm).
    + intros Hcm. specialize (H2 Hcm).
      destruct (get_chain_by_position _ _) as [| |c];
        try (unfold bind at 1; by rewrite H2).
      destruct (mixer_chan c) as [| |ch];
        try (unfold bind at 1; by rewrite H2).
      destruct (ch <? 17); [|unfold bind at 1; by rewrite H2].
      intros Hzm. unfold bind at 1. rewrite H2.
      unfold the_zynmixer, bind, get, raise. by rewrite Hzm.
  - rewrite mini_mixer_knob_event by done.
    unfold Mini.mixer_knob. cbn zeta.
    replace (data7 ev1 - 85) with (data7 ev1 - 84 - 1) by lia.
    match goal with
    | |- context [bind (chain_by_position ?i)
                    (λ chain, bind (checked_mixer_chan chain) ?k)] =>
        destruct (checked_lookup_outcomes i k w) as [H1 H2]
    end.
    cbn zeta in H1, H2. split.
    + intros Hcm. unfold bind at 1. by rewrite (H1 Hcm).
    + intros Hcm. specialize (H2 Hcm).
      destruct (get_chain_by_position _ _) as [| |c];
        try (unfold bind at 1; by rewrite H2).
      destruct (mixer_chan c) as [| |ch];
        try (unfold bind at 1; by rewrite H2).
      destruct (ch <? 17); [|unfold bind at 1; by rewrite H2].
      intros Hzm. unfold bind at 1. rewrite H2.
      destruct (Z.eqb_spec (data7 ev2) 64) as [Hv|Hv].
      * apply relative_delta_zero in Hv. by rewrite Hv.
      * assert ((Mini.relative_delta (data7 ev2) =? 0) = false) as ->.
        { apply Z.eqb_neq. by rewrite relative_delta_zero. }
        simpl. unfold the_zynmixer, bind, get, raise. by rewrite Hzm.
Qed.

Lemma mixer_knob_failures_witness :
  let w := World (Mini.Driver false ∅ 0 0) (Some 1) true true faulty_chains
             example_mixer [] in
  evtype 0xB0 = 0xB ∧ Mini.knob_bank (self w) = 0 ∧ 85 ≤ data7 86 ≤ 92
  ∧ Mini.midi_event 0 [0xB0; 86; 65] w = (Raise HostError, w).
Proof.
  intros w.
  assert (H1 : evtype 0xB0 = 0xB) by reflexivity.
  assert (H2 : Mini.knob_bank (self w) = 0) by reflexivity.
  assert (H3 : 85 ≤ data7 86 ≤ 92) by (vm_compute; split; discriminate).
  split; [exact H1|]. split; [exact H2|]. split; [exact H3|].
  exact (proj2 (proj2 (mixer_knob_failures 0 0xB0 86 65 [] H1) w H2 H3) eq_refl).
Defined.
